(** * CyberSynth: the state / compile / mix / history engine of
      [assets/js/cybermidi.js]

    The file holds two classes, [CyberMidi] and [CyberStrudel], which each
    re-implement the sequencer engine.  They are embedded here as the modules
    [Midi] and [Strudel] over a small model of the JavaScript data they use
    (module [JS]) and of the undo stack they share (module [History]).

    Conventions of the embedding:
    - a plain object used as a dictionary is an association list in the order
      [Object.keys] enumerates it; its keys are pairwise distinct;
    - an array of steps is a list of slots, a slot being a boolean, an
      [undefined]/[null] entry or a hole, since a write past the end of a
      JavaScript array grows it;
    - [this.savedPatterns] is a [Map], kept in insertion order;
    - a property read on [undefined] raises an uncaught [TypeError]: the
      operations live in a state monad with that one exception;
    - calls that leave the engine (notifications, the Strudel evaluator,
      [localStorage]) are logged as events; DOM-only updates (button classes,
      grid redraws) are not modelled, and the page elements the code looks up
      are taken to exist. *)

From Stdlib Require Import ZArith Lia String Ascii Bool.
From stdpp Require Import base list strings pretty.

Set Warnings "-register-all".

(** ** JavaScript values, objects, arrays and Maps *)

Module JS.

(** The double quote and the line feed, which appear in generated code. *)
Definition dq : string := String "034"%char EmptyString.
Definition nl : string := String "010"%char EmptyString.

(** JSON values plus [undefined].  A number is carried as the text
    [Number.prototype.toString] gives for it ("120", "0.5"): the engine
    never computes with the numbers it reads back from JSON, it only tests,
    compares and prints them. *)
Inductive value : Type :=
  | Undefined
  | Null
  | Bool (b : bool)
  | Num (text : string)
  | Str (s : string)
  | Arr (items : list value)
  | Obj (fields : list (string * value)).

(** [ToBoolean]. *)
Definition truthy (v : value) : bool :=
  match v with
  | Undefined | Null => false
  | Bool b => b
  | Num t => negb (String.eqb t "0" || String.eqb t "NaN")
  | Str s => negb (String.eqb s "")
  | Arr _ | Obj _ => true
  end.

(** [ToString], as applied by template literals. *)
Fixpoint toString (v : value) : string :=
  match v with
  | Undefined => "undefined"
  | Null => "null"
  | Bool b => if b then "true" else "false"
  | Num t => t
  | Str s => s
  | Arr items =>
      String.concat ","
        (List.map (fun x => match x with
                            | Undefined | Null => ""
                            | _ => toString x
                            end) items)
  | Obj _ => "[object Object]"
  end.

(** One element of [Array.prototype.join]: [undefined] and [null] print as
    the empty string. *)
Definition joinItem (v : value) : string :=
  match v with
  | Undefined | Null => ""
  | _ => toString v
  end.

(** [arr.join(sep)]. *)
Definition join (sep : string) (items : list value) : string :=
  String.concat sep (List.map joinItem items).

(** Assignment to [textarea.value]: [null] becomes the empty string. *)
Definition domString (v : value) : string :=
  match v with
  | Null => ""
  | _ => toString v
  end.

(** [str.includes(needle)]. *)
Fixpoint includes (needle hay : string) : bool :=
  if String.prefix needle hay then true
  else match hay with
       | EmptyString => false
       | String _ rest => includes needle rest
       end.

(** [str.trim()], for the ASCII white space (tab, line feed, vertical tab,
    form feed, carriage return, space). *)
Definition isSpace (c : ascii) : bool :=
  let n := nat_of_ascii c in
  (Nat.leb 9 n && Nat.leb n 13) || Nat.eqb n 32.

Fixpoint trimStart (s : string) : string :=
  match s with
  | String c rest => if isSpace c then trimStart rest else s
  | EmptyString => EmptyString
  end.

Fixpoint trimEnd (s : string) : string :=
  match s with
  | EmptyString => EmptyString
  | String c rest =>
      match trimEnd rest with
      | EmptyString => if isSpace c then EmptyString else String c EmptyString
      | r => String c r
      end
  end.

Definition trim (s : string) : string := trimEnd (trimStart s).

(** *** Objects used as dictionaries *)

(** An object with string keys and values in [A], in enumeration order.
    The keys the engine uses are identifiers ("bd", "track4", "a"), never
    array indices, so a new key goes last; nor are they names of
    [Object.prototype], so a key that was not set reads [undefined]. *)
Definition obj (A : Type) : Type := list (string * A).

Fixpoint get {A} (k : string) (o : obj A) : option A :=
  match o with
  | [] => None
  | (k', v) :: rest => if String.eqb k k' then Some v else get k rest
  end.

Definition keys {A} (o : obj A) : list string := List.map fst o.
Definition values {A} (o : obj A) : list A := List.map snd o.

(** [o[k] = v]. *)
Fixpoint set {A} (k : string) (v : A) (o : obj A) : obj A :=
  match o with
  | [] => [(k, v)]
  | (k', v') :: rest =>
      if String.eqb k k' then (k, v) :: rest else (k', v') :: set k v rest
  end.

(** [o[k].f = ...]: the record under an existing key [k] is changed in
    place. *)
Fixpoint alter {A} (k : string) (f : A -> A) (o : obj A) : obj A :=
  match o with
  | [] => []
  | (k', v) :: rest =>
      if String.eqb k k' then (k', f v) :: rest else (k', v) :: alter k f rest
  end.

(** [o[k]] read as a boolean: a missing key reads [undefined]. *)
Definition flag (k : string) (o : obj bool) : bool :=
  match get k o with
  | Some b => b
  | None => false
  end.

(** An own data property of a parsed JSON value; anything but an object has
    none under the names used here ([code]). *)
Definition field (k : string) (v : value) : value :=
  match v with
  | Obj fs => match get k fs with Some x => x | None => Undefined end
  | _ => Undefined
  end.

(** *** Step arrays *)

(** One position of a step array. *)
Inductive slot : Type :=
  | Hole                (* no element: left behind by a write past the end *)
  | Void                (* [undefined] or [null] *)
  | Step (b : bool).

(** The value [arr[i]] reads as, in a boolean context. *)
Definition active (s : slot) : bool :=
  match s with
  | Step b => b
  | _ => false
  end.

(** [arr[i]] in a boolean context; past the end it is [undefined]. *)
Definition activeAt (arr : list slot) (i : nat) : bool :=
  match arr !! i with
  | Some s => active s
  | None => false
  end.

(** [arr[i] = x]: in range the element is replaced, past the end the array
    grows and the positions in between are holes. *)
Definition store (arr : list slot) (i : nat) (x : slot) : list slot :=
  if decide (i < length arr) then <[i:=x]> arr
  else arr ++ replicate (i - length arr) Hole ++ [x].

(** [x = arr[i]] copied into another array: a hole reads [undefined]. *)
Definition load (arr : list slot) (i : nat) : slot :=
  match arr !! i with
  | Some (Step b) => Step b
  | _ => Void
  end.

(** [arr.slice(0, n)]. *)
Definition slice0 (n : nat) (arr : list slot) : list slot := take n arr.

(** [Array(n).fill(false)], for the lengths an array can have. *)
Definition filled (n : nat) : list slot := replicate n (Step false).

(** [.map(active => active ? 'x' : '~')] followed by [.join(' ')], on one
    element: [map] skips a hole and [join] prints it empty. *)
Definition marker (s : slot) : string :=
  match s with
  | Hole => ""
  | Void => "~"
  | Step b => if b then "x" else "~"
  end.

(** [JSON.stringify] of a slot. *)
Definition slotJSON (s : slot) : value :=
  match s with
  | Step b => Bool b
  | _ => Null
  end.

(** *** Maps *)

(** A [Map] in insertion order. *)
Definition Map : Type := list (value * value).

(** SameValueZero.  Arrays and objects compare by identity, and every one
    the engine meets was freshly built by [JSON.parse] or a literal. *)
Definition same (a b : value) : bool :=
  match a, b with
  | Undefined, Undefined => true
  | Null, Null => true
  | Bool x, Bool y => Bool.eqb x y
  | Num x, Num y => String.eqb x y
  | Str x, Str y => String.eqb x y
  | _, _ => false
  end.

Fixpoint mapGet (k : value) (m : Map) : value :=
  match m with
  | [] => Undefined
  | (k', v) :: rest => if same k k' then v else mapGet k rest
  end.

Fixpoint mapHas (k : value) (m : Map) : bool :=
  match m with
  | [] => false
  | (k', _) :: rest => same k k' || mapHas k rest
  end.

(** [m.set(k, v)]: an existing key keeps its place. *)
Fixpoint mapSet (k v : value) (m : Map) : Map :=
  match m with
  | [] => [(k, v)]
  | (k', v') :: rest =>
      if same k k' then (k', v) :: rest else (k', v') :: mapSet k v rest
  end.

(** Element [i] of an iterator entry: [entry[0]], [entry[1]]. *)
Definition entryAt (i : nat) (entry : value) : value :=
  match entry with
  | Arr items => match items !! i with Some x => x | None => Undefined end
  | Obj fs => match get (pretty i) fs with Some x => x | None => Undefined end
  | _ => Undefined
  end.

Definition isObject (v : value) : bool :=
  match v with
  | Arr _ | Obj _ => true
  | _ => false
  end.

(** [new Map(data)]: [None] is the [TypeError] of the constructor.
    [undefined] and [null] give the empty map; an array is iterated and
    every entry must be an object; a string iterates its characters, which
    are not objects; anything else is not iterable. *)
Definition newMap (data : value) : option Map :=
  match data with
  | Undefined | Null => Some []
  | Arr items =>
      fold_left
        (fun acc entry =>
           match acc with
           | None => None
           | Some m =>
               if isObject entry
               then Some (mapSet (entryAt 0 entry) (entryAt 1 entry) m)
               else None
           end)
        items (Some [])
  | Str s => if String.eqb s "" then Some [] else None
  | Bool _ | Num _ | Obj _ => None
  end.

(** [m.delete(k)]. *)
Fixpoint mapDelete (k : value) (m : Map) : Map :=
  match m with
  | [] => []
  | (k', v) :: rest =>
      if same k k' then rest else (k', v) :: mapDelete k rest
  end.

(** [[...m]]: the entries as two-element arrays. *)
Definition entries (m : Map) : list value :=
  List.map (fun e => Arr [fst e; snd e]) m.

(** *** More on objects, strings and JSON *)

(** [delete o[k]]. *)
Fixpoint remove {A} (k : string) (o : obj A) : obj A :=
  match o with
  | [] => []
  | (k', v) :: rest =>
      if String.eqb k k' then rest else (k', v) :: remove k rest
  end.




(** [JSON.parse(JSON.stringify(v))] of an array or an object: inside an
    array [undefined] comes back as [null], a property that is [undefined]
    is left out, and a number that is not finite comes back as [null]. *)
Definition finite (text : string) : bool :=
  negb (existsb (String.eqb text) ["NaN"; "Infinity"; "-Infinity"]).

Fixpoint clone (v : value) : value :=
  match v with
  | Num t => if finite t then Num t else Null
  | Arr items =>
      Arr (List.map (fun x => match x with
                              | Undefined => Null
                              | _ => clone x
                              end) items)
  | Obj fs =>
      Obj ((fix fields (fs : list (string * value)) :=
              match fs with
              | [] => []
              | (k, Undefined) :: rest => fields rest
              | (k, x) :: rest => (k, clone x) :: fields rest
              end) fs)
  | _ => v
  end.

End JS.

(** ** The undo stack

    [saveToHistory], [undo] and [redo] are written twice in the source, word
    for word the same in both classes; they touch [this.history] and
    [this.historyIndex] only, apart from the snapshot they store or hand to
    [restoreState]. *)

Module History.

(** [this.maxHistory], set once by both constructors. *)
Definition maxHistory : Z := 50.

Section Stack.

Context {A : Type}.

Record stack : Type := Stack {
  history : list A;
  historyIndex : Z
}.

(** The constructor's [history = []], [historyIndex = -1]. *)
Definition empty : stack := Stack [] (-1).

Definition len (l : list A) : Z := Z.of_nat (length l).

(** [arr.splice(start)] on the array: everything from [start] on goes; a
    negative [start] counts from the end. *)
Definition splice (start : Z) (l : list A) : list A :=
  let from := if (start <? 0)%Z then Z.max (len l + start) 0
              else Z.min start (len l) in
  take (Z.to_nat from) l.

(** [arr.push(x)]. *)
Definition push (x : A) (l : list A) : list A := l ++ [x].

(** [arr.shift()]. *)
Definition shift (l : list A) : list A := tail l.

(** [saveToHistory()], given the snapshot it has just made. *)
Definition saveToHistory (state : A) (s : stack) : stack :=
  let h1 := if (historyIndex s <? len (history s) - 1)%Z
            then splice (historyIndex s + 1) (history s)
            else history s in
  let h2 := push state h1 in
  let h3 := if (len h2 >? maxHistory)%Z then shift h2 else h2 in
  Stack h3 (len h3 - 1).

(** What [undo] and [redo] do next: report that there is nothing to do, or
    call [restoreState] on [history[historyIndex]] ([None] when that
    element does not exist). *)
Inductive step : Type :=
  | Nothing
  | Restore (entry : option A).

Definition at_ (s : stack) : option A :=
  if (historyIndex s <? 0)%Z then None
  else history s !! Z.to_nat (historyIndex s).

Definition undo (s : stack) : stack * step :=
  if (historyIndex s <=? 0)%Z then (s, Nothing)
  else
    let s' := Stack (history s) (historyIndex s - 1) in
    (s', Restore (at_ s')).

Definition redo (s : stack) : stack * step :=
  if (historyIndex s >=? len (history s) - 1)%Z then (s, Nothing)
  else
    let s' := Stack (history s) (historyIndex s + 1) in
    (s', Restore (at_ s')).

End Stack.

Arguments stack : clear implicits.

End History.

(** ** State with an uncaught exception *)

Module Monad.

Section WithState.

Context {S : Type}.

(** An operation either returns, or an uncaught [TypeError] unwinds it; the
    state reached so far stays either way. *)
Inductive outcome (A : Type) : Type :=
  | Done (a : A) (st : S)
  | Raised (st : S).

Definition M (A : Type) : Type := S -> outcome A.

Definition ret {A} (a : A) : M A := fun st => Done A a st.

Definition bind {A B} (m : M A) (k : A -> M B) : M B :=
  fun st =>
    match m st with
    | Done _ a st' => k a st'
    | Raised _ st' => Raised B st'
    end.

Definition gets {A} (f : S -> A) : M A := fun st => Done A (f st) st.

Definition modify (f : S -> S) : M unit := fun st => Done unit tt (f st).

Definition raise {A} : M A := fun st => Raised A st.

(** A read that is [undefined] and is then dereferenced. *)
Definition defined {A} (o : option A) : M A :=
  match o with
  | Some a => ret a
  | None => raise
  end.

(** [try { m } catch (error) { handler }]. *)
Definition try {A} (m : M A) (handler : M A) : M A :=
  fun st =>
    match m st with
    | Done _ a st' => Done A a st'
    | Raised _ st' => handler st'
    end.

(** [list.forEach(body)]. *)
Fixpoint forEach {A} (l : list A) (body : A -> M unit) : M unit :=
  match l with
  | [] => ret tt
  | x :: rest => bind (body x) (fun _ => forEach rest body)
  end.

(** [list.forEach] whose body pushes onto a local array [acc]. *)
Fixpoint collect {A B} (l : list A) (body : list B -> A -> M (list B))
    (acc : list B) : M (list B) :=
  match l with
  | [] => ret acc
  | x :: rest => bind (body acc x) (fun acc' => collect rest body acc')
  end.

(** The state an operation leaves, however it ends. *)
Definition final {A} (r : outcome A) : S :=
  match r with
  | Done _ _ st => st
  | Raised _ st => st
  end.

Definition returned {A} (r : outcome A) : bool :=
  match r with
  | Done _ _ _ => true
  | Raised _ _ => false
  end.

End WithState.

Arguments outcome : clear implicits.
Arguments M : clear implicits.
Arguments Done {S A} a st.
Arguments Raised {S A} st.

End Monad.

Notation "'let*' x ':=' m 'in' k" := (Monad.bind m (fun x => k))
  (at level 10, x name, m at level 100, k at level 200).

(** ** What the two classes have in common *)

(** The second argument of [showNotification]. *)
Inductive kind : Type := success | error.

(** Calls that leave the engine. *)
Inductive event (message : Type) : Type :=
  | Notify (m : message) (k : kind)   (* showNotification(m, k) *)
  | SetCps (bpm : N)                  (* strudelAPI.setCps(bpm / 60 / 4) *)
  | Evaluate (code : string)          (* strudelAPI.evaluate(code) *)
  | Hush                              (* strudelAPI.hush() *)
  | Persist.                          (* localStorage.setItem(...) *)

Arguments Notify {message} m k.
Arguments SetCps {message} bpm.
Arguments Evaluate {message} code.
Arguments Hush {message}.
Arguments Persist {message}.

(** One entry of [this.trackStates]. *)
Record trackState : Type := TrackState {
  muted : bool;
  solo : bool;
  steps : nat;
  sound : string
}.

Definition setMuted (b : bool) (c : trackState) : trackState :=
  TrackState b (solo c) (steps c) (sound c).
Definition setSolo (b : bool) (c : trackState) : trackState :=
  TrackState (muted c) b (steps c) (sound c).
Definition setSteps (n : nat) (c : trackState) : trackState :=
  TrackState (muted c) (solo c) n (sound c).

(** [Object.values(this.trackStates).some(state => state.solo)]. *)
Definition isSoloActive (ts : JS.obj trackState) : bool :=
  existsb solo (JS.values ts).

(** [isEnabled] of [updateSequencerUI]. *)
Definition isEnabled (ts : JS.obj trackState) (c : trackState) : bool :=
  negb (isSoloActive ts) || solo c.

(** [JSON.parse(JSON.stringify(x))] of the parts of the state. *)
Definition stepsJSON (arr : list JS.slot) : JS.value :=
  JS.Arr (List.map JS.slotJSON arr).

Definition sequencerJSON (o : JS.obj (list JS.slot)) : JS.value :=
  JS.Obj (List.map (fun e => (fst e, stepsJSON (snd e))) o).

Definition trackJSON (c : trackState) : JS.value :=
  JS.Obj [("muted", JS.Bool (muted c)); ("solo", JS.Bool (solo c));
          ("steps", JS.Num (pretty (steps c))); ("sound", JS.Str (sound c))].

Definition tracksJSON (o : JS.obj trackState) : JS.value :=
  JS.Obj (List.map (fun e => (fst e, trackJSON (snd e))) o).

Definition flagsJSON (o : JS.obj bool) : JS.value :=
  JS.Obj (List.map (fun e => (fst e, JS.Bool (snd e))) o).

(** ** The class [CyberStrudel] *)

Module Strudel.

Import Monad.

(** The texts [showNotification] is called with. *)
Inductive message : Type :=
  | NoActivePatterns            (* No active patterns to play *)
  | CannotStop                  (* Strudel not initialized. Cannot stop. *)
  | PlaybackStopped             (* Playback stopped *)
  | NotInitialized              (* Strudel not initialized. Please wait. *)
  | NoCodeToEvaluate            (* No code to evaluate *)
  | MutedOrNotSoloed (track : string)   (* TRACK is muted or not soloed *)
  | NoActiveSteps (track : string)      (* No active steps in TRACK *)
  | CodeGenerated (track sound : string)
                                (* Code generated for TRACK with sound *)
  | NothingToGenerate           (* No active steps to generate code *)
  | SequencerCodeGenerated      (* Sequencer code generated *)
  | MuteNow (track : string) (on : bool)    (* TRACK muted / unmuted *)
  | SoloNow (track : string) (on : bool)    (* TRACK soloed / unsoloed *)
  | StepsSet (track : string) (count : nat) (* TRACK set to count steps *)
  | PatternNameRequired         (* Pattern name is required *)
  | NoCodeToSave                (* No code to save *)
  | PatternSaved (name : string)        (* Pattern name saved *)
  | NoFileSelected              (* No file selected *)
  | PatternsImported            (* Patterns imported *)
  | InvalidPatternFile.         (* Invalid pattern file *)

(** [this.synthParams]; the four effect parameters are only stored and
    copied, and are carried as the text of the number. *)
Record synth : Type := Synth {
  lpf : string;
  lpq : string;
  room : string;
  delay : string;
  bpm : N;
  bpmEnabled : bool
}.

(** [this.mixedPatterns]. *)
Record mix : Type := Mix {
  presets : JS.obj bool;
  tracks : JS.obj bool;
  saved : JS.obj bool
}.

Record state : Type := State {
  sequencerState : JS.obj (list JS.slot);
  trackStates : JS.obj trackState;
  synthParams : synth;
  mixedPatterns : mix;
  savedPatterns : JS.Map;
  hist : History.stack JS.value;   (* this.history, this.historyIndex *)
  strudelReady : bool;             (* strudelReady && strudelAPI *)
  currentPattern : bool;           (* this.currentPattern is not null *)
  isPlaying : bool;
  editor : string;                 (* the value of #code-editor *)
  log : list (event message)
}.

Definition setSequencerState v (st : state) : state :=
  State v (trackStates st) (synthParams st) (mixedPatterns st)
    (savedPatterns st) (hist st) (strudelReady st) (currentPattern st)
    (isPlaying st) (editor st) (log st).
Definition setTrackStates v (st : state) : state :=
  State (sequencerState st) v (synthParams st) (mixedPatterns st)
    (savedPatterns st) (hist st) (strudelReady st) (currentPattern st)
    (isPlaying st) (editor st) (log st).
Definition setMixedPatterns v (st : state) : state :=
  State (sequencerState st) (trackStates st) (synthParams st) v
    (savedPatterns st) (hist st) (strudelReady st) (currentPattern st)
    (isPlaying st) (editor st) (log st).
Definition setSavedPatterns v (st : state) : state :=
  State (sequencerState st) (trackStates st) (synthParams st)
    (mixedPatterns st) v (hist st) (strudelReady st) (currentPattern st)
    (isPlaying st) (editor st) (log st).
Definition setHist v (st : state) : state :=
  State (sequencerState st) (trackStates st) (synthParams st)
    (mixedPatterns st) (savedPatterns st) v (strudelReady st)
    (currentPattern st) (isPlaying st) (editor st) (log st).
Definition setPlayback (pattern playing : bool) (st : state) : state :=
  State (sequencerState st) (trackStates st) (synthParams st)
    (mixedPatterns st) (savedPatterns st) (hist st) (strudelReady st)
    pattern playing (editor st) (log st).
Definition setEditor v (st : state) : state :=
  State (sequencerState st) (trackStates st) (synthParams st)
    (mixedPatterns st) (savedPatterns st) (hist st) (strudelReady st)
    (currentPattern st) (isPlaying st) v (log st).
Definition setLog v (st : state) : state :=
  State (sequencerState st) (trackStates st) (synthParams st)
    (mixedPatterns st) (savedPatterns st) (hist st) (strudelReady st)
    (currentPattern st) (isPlaying st) (editor st) v.

(** [get presets()]: the twelve built-in patterns. *)
Definition builtin : JS.obj string :=
  let dq := JS.dq in
  let nl := JS.nl in
  [
    ("a", "s('bd,bass(4,8)').jux(rev).gain(0.8)");
    ("b",
       "s('bd,bass(4,8)').jux(rev).gain(0.8).lpf(800).lpq(1).room(0.5).delay(0.3)");
    ("c",
       "s('bd*2,hh(3,4),bass:[1 4](5,8,1)').jux(rev).attack(0.015).stack(s('~ sd')).gain(0.8)");
    ("d", "note(" +:+ dq +:+ "[c eb g <f bb>](3,8,<0 1>)" +:+ dq
       +:+ ".sub(12))" +:+ nl +:+ ".s(" +:+ dq +:+ "<sawtooth>/64" +:+ dq
       +:+ ")" +:+ nl +:+ ".lpf(sine.range(300,2000).slow(16))" +:+ nl
       +:+ ".lpa(0.005)" +:+ nl +:+ ".lpd(perlin.range(.02,.2))" +:+ nl
       +:+ ".lps(perlin.range(0,.5).slow(3))" +:+ nl
       +:+ ".lpq(sine.range(2,10).slow(32))" +:+ nl +:+ ".release(.5)" +:+ nl
       +:+ ".lpenv(perlin.range(1,8).slow(2))" +:+ nl +:+ ".ftype('24db')"
       +:+ nl +:+ ".room(1)" +:+ nl +:+ ".juxBy(.5,rev)" +:+ nl
       +:+ ".sometimes(add(note(12)))" +:+ nl +:+ ".stack(s(" +:+ dq
       +:+ "bd*2" +:+ dq +:+ ").bank('RolandTR909'))" +:+ nl
       +:+ ".gain(.5).fast(2)");
    ("e", "s(" +:+ dq +:+ "hh*8" +:+ dq +:+ ").gain(" +:+ dq
       +:+ ".4!2 1 .4!2 1 .4 1" +:+ dq +:+ ").fast(2).layer(" +:+ nl
       +:+ "  x => x.degrade().pan(0)," +:+ nl
       +:+ "  x => x.undegrade().pan(1))");
    ("f", "n(" +:+ dq +:+ "<-4,0 5 2 1>*<2!3 4>" +:+ dq +:+ ")" +:+ nl
       +:+ ".scale(" +:+ dq +:+ "<C F>/8:pentatonic" +:+ dq +:+ ")" +:+ nl
       +:+ ".s(" +:+ dq +:+ "sine" +:+ dq +:+ ")" +:+ nl +:+ ".penv(" +:+ dq
       +:+ "<.5 0 7 -2>*2" +:+ dq +:+ ").vib(" +:+ dq +:+ "4:.1" +:+ dq
       +:+ ")" +:+ nl +:+ ".phaser(2).delay(.25).room(.3)" +:+ nl
       +:+ ".size(4).fast(1.5)" +:+ nl +:+ ".fm(3)" +:+ nl +:+ ".fmdecay(.2)"
       +:+ nl +:+ ".fmsustain(1)" +:+ nl +:+ ".fmenv(" +:+ dq +:+ "<exp lin>"
       +:+ dq +:+ ")" +:+ nl +:+ ".fm(" +:+ dq +:+ "<1 2 1.5 1.61>" +:+ dq
       +:+ ")" +:+ nl +:+ ".lpf(tri.range(100, 5000).slow(2))" +:+ nl
       +:+ ".lpf(tri.range(100, 5000).slow(2))" +:+ nl +:+ ".vowel(" +:+ dq
       +:+ "<a e i <o u>>" +:+ dq +:+ ")" +:+ nl +:+ ".vib(" +:+ dq
       +:+ "<.5 1 2 4 8 16>:8" +:+ dq +:+ ")" +:+ nl
       +:+ ".room(1).roomsize(5).orbit(2)");
    ("g", "note(" +:+ dq +:+ "D#1!8" +:+ dq +:+ ").s(" +:+ dq +:+ "sine"
       +:+ dq +:+ ").penv(34).pdecay(.1).decay(.23).distort(" +:+ dq
       +:+ "8:.4" +:+ dq +:+ ")");
    ("h", "sound(" +:+ dq +:+ "bd*2,<white pink brown>*8" +:+ dq +:+ ")"
       +:+ nl +:+ ".decay(.04).sustain(0).scope()");
    ("i", "note(" +:+ dq +:+ "c4 d4 e4 f4 g4 a4 b4 c5" +:+ dq
       +:+ ").sound('sine').gain(0.8)");
    ("j", "stack( n(" +:+ dq +:+ "<-4,0 5 2 1>*<2!3 4>" +:+ dq +:+ ")" +:+ nl
       +:+ ".scale(" +:+ dq +:+ "<C F>/8:pentatonic" +:+ dq +:+ ")" +:+ nl
       +:+ ".s(" +:+ dq +:+ "sine" +:+ dq +:+ ")" +:+ nl +:+ ".penv(" +:+ dq
       +:+ "<.5 0 7 -2>*2" +:+ dq +:+ ").vib(" +:+ dq +:+ "4:.1" +:+ dq
       +:+ ")" +:+ nl +:+ ".size(4).fast(1.5)" +:+ nl
       +:+ ".room(1).roomsize(5).orbit(2))");
    ("k",
       "stack(s('bd*2,jvbass*4(2,8),jvbass(8,8,1)').jux(rev), note('c1 eb1 g1 bb1').sound('sawtooth').lpf(sine.range(500,1000).slow(8)).lpq(5)).fm(sine.range(3,8).slow(100)).gain(0.8)");
    ("l", "n(" +:+ dq +:+ "0 1 4 2 0 6 3 2" +:+ dq +:+ ").sound(" +:+ dq
       +:+ "jazz" +:+ dq +:+ ")")
  ].

(** [this.presets[key]]. *)
Definition preset (key : string) : JS.value :=
  match JS.get key builtin with
  | Some code => JS.Str code
  | None => JS.Undefined
  end.

(** The state the constructor builds. *)
Definition initial : state :=
  State
    [("bd", JS.filled 8); ("sd", JS.filled 8); ("hh", JS.filled 8);
     ("cp", JS.filled 8)]
    [("bd", TrackState false false 8 "bd");
     ("sd", TrackState false false 8 "sd");
     ("hh", TrackState false false 8 "hh");
     ("cp", TrackState false false 8 "cp")]
    (Synth "800" "1" "0.5" "0.3" 120 true)
    (Mix [] [] [])
    []
    History.empty
    false false false "" [].

Definition getTracks (st : state) : list string :=
  JS.keys (sequencerState st).

Definition showNotification (m : message) (k : kind) : M state unit :=
  modify (fun st => setLog (log st ++ [Notify m k]) st).

Definition emit (e : event message) : M state unit :=
  modify (fun st => setLog (log st ++ [e]) st).

Definition saveToLocalStorage : M state unit := emit Persist.

(** *** History *)

Definition synthJSON (p : synth) : JS.value :=
  JS.Obj [("lpf", JS.Num (lpf p)); ("lpq", JS.Num (lpq p));
          ("room", JS.Num (room p)); ("delay", JS.Num (delay p));
          ("bpm", JS.Num (pretty (bpm p)));
          ("bpmEnabled", JS.Bool (bpmEnabled p))].

Definition mixJSON (m : mix) : JS.value :=
  JS.Obj [("presets", flagsJSON (presets m)); ("tracks", flagsJSON (tracks m));
          ("saved", flagsJSON (saved m))].

(** The deep copy [saveToHistory] stores. *)
Definition snapshot (st : state) : JS.value :=
  JS.Obj [("sequencerState", sequencerJSON (sequencerState st));
          ("trackStates", tracksJSON (trackStates st));
          ("code", JS.Str (editor st));
          ("mixedPatterns", mixJSON (mixedPatterns st));
          ("synthParams", synthJSON (synthParams st))].

Definition saveToHistory : M state unit :=
  modify (fun st => setHist (History.saveToHistory (snapshot st) (hist st)) st).

(** *** Playback *)

Definition stop : M state unit :=
  let* ready := gets strudelReady in
  if negb ready then showNotification CannotStop error
  else
    let* _ := emit Hush in
    let* _ := modify (setPlayback false false) in
    let* _ := showNotification PlaybackStopped success in
    saveToLocalStorage.

(** [evaluateCode()] up to its [await]: what follows the evaluator's answer
    (setting [currentPattern] and [isPlaying]) belongs to a later turn of
    the event loop. *)
Definition evaluateCode : M state unit :=
  let* ready := gets strudelReady in
  if negb ready then showNotification NotInitialized error
  else
    let* text := gets editor in
    let code := JS.trim text in
    if String.eqb code "" then showNotification NoCodeToEvaluate error
    else
      let* playing := gets currentPattern in
      let* _ := (if playing then stop else ret tt) in
      let* p := gets synthParams in
      let* _ := (if bpmEnabled p then emit (SetCps (bpm p)) else ret tt) in
      emit (Evaluate code).

(** *** From steps to pattern code *)

(** [arr.slice(0, stepCount).map(active => active ? 'x' : '~').join(' ')]. *)
Definition stepMask (stepCount : nat) (arr : list JS.slot) : string :=
  String.concat " " (List.map JS.marker (JS.slice0 stepCount arr)).

(** [['sawtooth', 'sine', 'triangle'].includes(sound)]. *)
Definition tonal (sound : string) : bool :=
  existsb (String.eqb sound) ["sawtooth"; "sine"; "triangle"].

(** The conditional that builds the code of one track. *)
Definition trackCode (sound : string) (stepCount : nat) (mask : string)
    : string :=
  if tonal sound
  then "note('c3').sound('" +:+ sound +:+ "').struct(" +:+ JS.dq +:+ mask
         +:+ JS.dq +:+ ").gain(0.8)"
  else "s(" +:+ JS.dq +:+ sound +:+ "*" +:+ pretty stepCount +:+ JS.dq
         +:+ ").struct(" +:+ JS.dq +:+ mask +:+ JS.dq +:+ ").gain(0.8)".

(** The template that puts [setCps] in front of the code. *)
Definition tempo (bpm : N) (code : string) : string :=
  "setCps(" +:+ pretty bpm +:+ "/60/4)" +:+ JS.nl +:+ code.

(** [trackStates[track].muted || (some(state => state.solo) &&
    !trackStates[track].solo)]. *)
Definition silenced (ts : JS.obj trackState) (c : trackState) : bool :=
  muted c || (isSoloActive ts && negb (solo c)).

(** [this.trackStates[track]] and [this.sequencerState[track]], about to be
    dereferenced. *)
Definition config (track : string) : M state trackState :=
  let* ts := gets trackStates in defined (JS.get track ts).

Definition grid (track : string) : M state (list JS.slot) :=
  let* ss := gets sequencerState in defined (JS.get track ss).

(** [updateSequencerUI(track)] only redraws, but it reads
    [trackStates[track].steps] on the way. *)
Definition updateSequencerUI (track : string) : M state unit :=
  let* _ := config track in ret tt.

(** The three loops of [updateMixedCode] that fill [patterns]. *)
Definition trackPattern (patterns : list JS.value) (track : string)
    : M state (list JS.value) :=
  let* mixed := gets (fun st => JS.flag track (tracks (mixedPatterns st))) in
  if mixed then
    let* ts := gets trackStates in
    let* c := config track in
    if silenced ts c then ret patterns
    else
      let stepCount := steps c in
      let* arr := grid track in
      let mask := stepMask stepCount arr in
      if JS.includes "x" mask
      then ret (patterns ++ [JS.Str (trackCode (sound c) stepCount mask)])
      else ret patterns
  else ret patterns.

Definition presetPattern (patterns : list JS.value) (key : string)
    : M state (list JS.value) :=
  let* on := gets (fun st => JS.flag key (presets (mixedPatterns st))) in
  if on then ret (patterns ++ [preset key]) else ret patterns.

Definition savedPattern (patterns : list JS.value) (name : string)
    : M state (list JS.value) :=
  let* on := gets (fun st => JS.flag name (saved (mixedPatterns st))) in
  if on then
    let* pattern := gets (fun st => JS.mapGet (JS.Str name) (savedPatterns st)) in
    if JS.truthy pattern && JS.truthy (JS.field "code" pattern)
    then ret (patterns ++ [JS.field "code" pattern])
    else ret patterns
  else ret patterns.

Definition mixPatterns : M state (list JS.value) :=
  let* ids := gets getTracks in
  let* patterns := collect ids trackPattern [] in
  let* keys := gets (fun st => JS.keys (presets (mixedPatterns st))) in
  let* patterns := collect keys presetPattern patterns in
  let* names := gets (fun st => JS.keys (saved (mixedPatterns st))) in
  collect names savedPattern patterns.

(** "Combine all patterns". *)
Definition combine (patterns : list JS.value) : JS.value :=
  match patterns with
  | [] => JS.Str ""
  | [p] => p
  | _ => JS.Str ("stack(" +:+ JS.join ", " patterns +:+ ")")
  end.

(** "Add BPM if enabled". *)
Definition withTempo (p : synth) (patterns : list JS.value)
    (newCode : JS.value) : JS.value :=
  if bpmEnabled p && (0 <? length patterns)
  then JS.Str (tempo (bpm p) (JS.toString newCode))
  else newCode.

Definition updateMixedCode : M state unit :=
  let* patterns := mixPatterns in
  let* p := gets synthParams in
  let newCode := withTempo p patterns (combine patterns) in
  let* _ := modify (setEditor (JS.domString newCode)) in
  let* playing := gets isPlaying in
  if JS.truthy newCode && playing then evaluateCode
  else if negb (JS.truthy newCode) then
    let* _ := stop in showNotification NoActivePatterns error
  else ret tt.

(** *** Generating code from the sequencer *)

Definition generateTrackCode (track : string) : M state unit :=
  let* ts := gets trackStates in
  let* c := config track in
  if silenced ts c then showNotification (MutedOrNotSoloed track) error
  else
    let stepCount := steps c in
    let* arr := grid track in
    let mask := stepMask stepCount arr in
    if negb (JS.includes "x" mask)
    then showNotification (NoActiveSteps track) error
    else
      let code := trackCode (sound c) stepCount mask in
      let* p := gets synthParams in
      let code := if bpmEnabled p then tempo (bpm p) code else code in
      let* _ := modify (setEditor code) in
      let* _ := modify (setMixedPatterns (Mix [] [(track, true)] [])) in
      let* _ := evaluateCode in
      let* _ := saveToHistory in
      showNotification (CodeGenerated track (sound c)) success.

(** The loop of [generateSequencerCode]; [isSoloActive] is read once,
    before it. *)
Definition sequencerPattern (soloActive : bool) (patterns : list string)
    (track : string) : M state (list string) :=
  let* c := config track in
  if muted c || (soloActive && negb (solo c)) then ret patterns
  else
    let stepCount := steps c in
    let* arr := grid track in
    let mask := stepMask stepCount arr in
    if JS.includes "x" mask
    then ret (patterns ++ [trackCode (sound c) stepCount mask])
    else ret patterns.

Definition generateSequencerCode : M state unit :=
  let* soloActive := gets (fun st => isSoloActive (trackStates st)) in
  let* ids := gets getTracks in
  let* patterns := collect ids (sequencerPattern soloActive) [] in
  if (length patterns =? 0)%nat
  then showNotification NothingToGenerate error
  else
    let newCode := "stack(" +:+ String.concat ", " patterns +:+ ")" in
    let* p := gets synthParams in
    let newCode := if bpmEnabled p then tempo (bpm p) newCode else newCode in
    let* _ := modify (setEditor newCode) in
    let* _ := modify (setMixedPatterns (Mix [] [] [])) in
    let* ids := gets getTracks in
    let* _ := forEach ids (fun track =>
        modify (fun st =>
          let m := mixedPatterns st in
          setMixedPatterns
            (Mix (presets m) (JS.set track true (tracks m)) (saved m)) st)) in
    let* _ := evaluateCode in
    let* _ := saveToHistory in
    showNotification SequencerCodeGenerated success.

(** *** Editing tracks *)

Definition toggleStep (track : string) (index : nat) : M state unit :=
  let* _ := saveToHistory in
  let* arr := grid track in
  let* _ := modify (fun st =>
      setSequencerState
        (JS.set track
           (JS.store arr index (JS.Step (negb (JS.activeAt arr index))))
           (sequencerState st)) st) in
  let* _ := updateSequencerUI track in
  let* mixed := gets (fun st => JS.flag track (tracks (mixedPatterns st))) in
  let* _ := (if mixed then updateMixedCode else ret tt) in
  saveToLocalStorage.

Definition toggleMute (track : string) : M state unit :=
  let* c := config track in
  let* _ := modify (fun st =>
      setTrackStates
        (JS.alter track (setMuted (negb (muted c))) (trackStates st)) st) in
  let* _ := modify (fun st =>
      setTrackStates (JS.alter track (setSolo false) (trackStates st)) st) in
  let* ids := gets getTracks in
  let* _ := forEach ids updateSequencerUI in
  let* mixed := gets (fun st => JS.flag track (tracks (mixedPatterns st))) in
  let* _ := (if mixed then updateMixedCode else ret tt) in
  let* _ := saveToLocalStorage in
  let* c' := config track in
  showNotification (MuteNow track (muted c')) success.

(** The body of the loop over [Object.keys(this.trackStates)] in
    [toggleSolo]. *)
Definition soloOnly (track : string) (wasSolo : bool)
    (e : string * trackState) : string * trackState :=
  let t := fst e in
  let c := setSolo (if String.eqb t track then negb wasSolo else false)
             (snd e) in
  (t, if negb (String.eqb t track) then setMuted false c else c).

Definition toggleSolo (track : string) : M state unit :=
  let* c := config track in
  let wasSolo := solo c in
  let* _ := modify (fun st =>
      setTrackStates (List.map (soloOnly track wasSolo) (trackStates st)) st) in
  let* ids := gets getTracks in
  let* _ := forEach ids updateSequencerUI in
  let* any := gets (fun st =>
      existsb (fun v => v) (JS.values (tracks (mixedPatterns st)))) in
  let* _ := (if any then updateMixedCode else ret tt) in
  let* _ := saveToLocalStorage in
  showNotification (SoloNow track (negb wasSolo)) success.

(** The [for] loop of [changeStepCount]:
    [for (i = 0; i < Math.min(current.length, count); i++)
       sequencerState[track][i] = current[i]]. *)
Definition copySteps (current : list JS.slot) (count : nat)
    (fresh : list JS.slot) : list JS.slot :=
  fold_left (fun arr i => JS.store arr i (JS.load current i))
    (seq 0 (Nat.min (length current) count)) fresh.

(** [updateSequencerTrack(track)] rebuilds the step elements; it reads
    [trackStates[track].steps]. *)
Definition updateSequencerTrack (track : string) : M state unit :=
  let* _ := config track in updateSequencerUI track.

Definition changeStepCount (track : string) (count : nat) : M state unit :=
  let* _ := config track in
  let* _ := modify (fun st =>
      setTrackStates (JS.alter track (setSteps count) (trackStates st)) st) in
  let* arr := grid track in
  let current := JS.slice0 count arr in
  let* _ := modify (fun st =>
      setSequencerState
        (JS.set track (copySteps current count (JS.filled count))
           (sequencerState st)) st) in
  let* _ := updateSequencerTrack track in
  let* mixed := gets (fun st => JS.flag track (tracks (mixedPatterns st))) in
  let* _ := (if mixed then updateMixedCode else ret tt) in
  let* _ := saveToLocalStorage in
  showNotification (StepsSet track count) success.

(** *** The pattern bank *)

(** The record [savePattern] stores under the name. *)
Definition savedRecord (code : string) (st : state) : JS.value :=
  JS.Obj [("code", JS.Str code);
          ("sequencerState", sequencerJSON (sequencerState st));
          ("trackStates", tracksJSON (trackStates st));
          ("synthParams", synthJSON (synthParams st))].

(** [savePattern()]; [input] is the value of the field [#pattern-name]. *)
Definition savePattern (input : string) : M state unit :=
  let name := JS.trim input in
  if String.eqb name "" then showNotification PatternNameRequired error
  else
    let* text := gets editor in
    let code := JS.trim text in
    if String.eqb code "" then showNotification NoCodeToSave error
    else
      let* _ := modify (fun st =>
          setSavedPatterns
            (JS.mapSet (JS.Str name) (savedRecord code st) (savedPatterns st))
            st) in
      let* _ := saveToLocalStorage in
      showNotification (PatternSaved name) success.

(** What [JSON.parse] makes of the text of the chosen file. *)
Inductive parsed : Type :=
  | SyntaxError
  | Parsed (data : JS.value).

(** The body of the [try] in the [onload] handler of [importPatterns]. *)
Definition importData (text : parsed) : M state unit :=
  let* data := (match text with
                | SyntaxError => raise
                | Parsed data => ret data
                end) in
  let* m := defined (JS.newMap data) in
  let* _ := modify (setSavedPatterns m) in
  let* _ := modify (fun st =>
      let mp := mixedPatterns st in
      setMixedPatterns (Mix (presets mp) (tracks mp) []) st) in
  let* _ := updateMixedCode in
  let* _ := saveToHistory in
  let* _ := saveToLocalStorage in
  showNotification PatternsImported success.

(** [importPatterns(event)]; [file] is [event.target.files[0]], read and
    parsed. *)
Definition importPatterns (file : option parsed) : M state unit :=
  match file with
  | None => showNotification NoFileSelected error
  | Some text =>
      try (importData text) (showNotification InvalidPatternFile error)
  end.

End Strudel.

(** ** The class [CyberMidi] *)

Module Midi.

Import Monad.

Inductive message : Type :=
  | EnterPatternName                  (* Please enter a pattern name *)
  | AlreadyExists (name : string)     (* Pattern name already exists *)
  | PatternSaved (name : string).     (* Pattern name saved *)

Record synth : Type := Synth {
  bpm : N;
  bpmEnabled : bool
}.

Record mix : Type := Mix {
  tracks : JS.obj bool;
  saved : JS.obj bool
}.

Record state : Type := State {
  sequencerState : JS.obj (list JS.slot);
  trackStates : JS.obj trackState;
  synthParams : synth;
  mixedPatterns : mix;
  savedPatterns : JS.Map;
  hist : History.stack JS.value;
  editor : string;
  log : list (event message)
}.

Definition setSequencerState v (st : state) : state :=
  State v (trackStates st) (synthParams st) (mixedPatterns st)
    (savedPatterns st) (hist st) (editor st) (log st).
Definition setTrackStates v (st : state) : state :=
  State (sequencerState st) v (synthParams st) (mixedPatterns st)
    (savedPatterns st) (hist st) (editor st) (log st).
Definition setSavedPatterns v (st : state) : state :=
  State (sequencerState st) (trackStates st) (synthParams st)
    (mixedPatterns st) v (hist st) (editor st) (log st).
Definition setHist v (st : state) : state :=
  State (sequencerState st) (trackStates st) (synthParams st)
    (mixedPatterns st) (savedPatterns st) v (editor st) (log st).
Definition setEditor v (st : state) : state :=
  State (sequencerState st) (trackStates st) (synthParams st)
    (mixedPatterns st) (savedPatterns st) (hist st) v (log st).
Definition setLog v (st : state) : state :=
  State (sequencerState st) (trackStates st) (synthParams st)
    (mixedPatterns st) (savedPatterns st) (hist st) (editor st) v.

(** The state the constructor builds. *)
Definition initial : state :=
  State [("note", JS.filled 8)] [("note", TrackState false false 8 "C4")]
    (Synth 120 true) (Mix [] []) [] History.empty "" [].

Definition getTracks (st : state) : list string :=
  JS.keys (sequencerState st).

Definition showNotification (m : message) (k : kind) : M state unit :=
  modify (fun st => setLog (log st ++ [Notify m k]) st).

Definition saveToLocalStorage : M state unit :=
  modify (fun st => setLog (log st ++ [Persist]) st).

Definition synthJSON (p : synth) : JS.value :=
  JS.Obj [("bpm", JS.Num (pretty (bpm p)));
          ("bpmEnabled", JS.Bool (bpmEnabled p))].

Definition mixJSON (m : mix) : JS.value :=
  JS.Obj [("tracks", flagsJSON (tracks m)); ("saved", flagsJSON (saved m))].

Definition snapshot (st : state) : JS.value :=
  JS.Obj [("sequencerState", sequencerJSON (sequencerState st));
          ("trackStates", tracksJSON (trackStates st));
          ("code", JS.Str (editor st));
          ("mixedPatterns", mixJSON (mixedPatterns st));
          ("synthParams", synthJSON (synthParams st))].

Definition saveToHistory : M state unit :=
  modify (fun st => setHist (History.saveToHistory (snapshot st) (hist st)) st).

Definition config (track : string) : M state trackState :=
  let* ts := gets trackStates in defined (JS.get track ts).

Definition grid (track : string) : M state (list JS.slot) :=
  let* ss := gets sequencerState in defined (JS.get track ss).

Definition updateSequencerUI (track : string) : M state unit :=
  let* _ := config track in ret tt.

(** [steps.map((active, i) => active ? sound : '~').join(' ')], on one
    element. *)
Definition noteMarker (sound : string) (s : JS.slot) : string :=
  match s with
  | JS.Hole => ""
  | JS.Void => "~"
  | JS.Step b => if b then sound else "~"
  end.

Definition noteCode (sound : string) (arr : list JS.slot) : string :=
  "note(" +:+ JS.dq +:+ String.concat " " (List.map (noteMarker sound) arr)
    +:+ JS.dq +:+ ").midi()" +:+ JS.nl.

(** The two loops of [updateMixedCode], which append to [code]. *)
Definition trackLine (code : string) (track : string) : M state string :=
  let* c := config track in
  let* arr := grid track in
  ret (code +:+ noteCode (sound c) arr).

Definition savedLine (code : string) (name : string) : M state string :=
  let* on := gets (fun st => JS.flag name (saved (mixedPatterns st))) in
  if on then
    let* pattern := gets (fun st => JS.mapGet (JS.Str name) (savedPatterns st)) in
    if JS.truthy pattern && JS.truthy (JS.field "code" pattern)
    then ret (code +:+ JS.toString (JS.field "code" pattern) +:+ JS.nl)
    else ret code
  else ret code.

Fixpoint appendAll {A} (l : list A) (body : string -> A -> M state string)
    (code : string) : M state string :=
  match l with
  | [] => ret code
  | x :: rest => let* code' := body code x in appendAll rest body code'
  end.

Definition updateMixedCode : M state unit :=
  let* chosen := gets (fun st =>
      List.filter (fun t => JS.flag t (tracks (mixedPatterns st)))
        (JS.keys (tracks (mixedPatterns st)))) in
  let* code := appendAll chosen trackLine "" in
  let* names := gets (fun st => JS.keys (saved (mixedPatterns st))) in
  let* code := appendAll names savedLine code in
  modify (setEditor code).

Definition toggleStep (track : string) (index : nat) : M state unit :=
  let* _ := saveToHistory in
  let* arr := grid track in
  let* _ := modify (fun st =>
      setSequencerState
        (JS.set track
           (JS.store arr index (JS.Step (negb (JS.activeAt arr index))))
           (sequencerState st)) st) in
  let* _ := updateSequencerUI track in
  let* mixed := gets (fun st => JS.flag track (tracks (mixedPatterns st))) in
  let* _ := (if mixed then updateMixedCode else ret tt) in
  saveToLocalStorage.

Definition toggleSolo (track : string) : M state unit :=
  let* c := config track in
  let* _ := modify (fun st =>
      setTrackStates
        (JS.alter track (setSolo (negb (solo c))) (trackStates st)) st) in
  let* ids := gets getTracks in
  let* _ := forEach ids updateSequencerUI in
  let* mixed := gets (fun st => JS.flag track (tracks (mixedPatterns st))) in
  let* _ := (if mixed then updateMixedCode else ret tt) in
  saveToLocalStorage.

(** The record [savePattern] stores under the name. *)
Definition savedRecord (st : state) : JS.value :=
  JS.Obj [("sequencerState", sequencerJSON (sequencerState st));
          ("trackStates", tracksJSON (trackStates st));
          ("synthParams", synthJSON (synthParams st));
          ("code", JS.Str (editor st))].

(** [savePattern()]; [input] is the value of the field [#pattern-name]. *)
Definition savePattern (input : string) : M state unit :=
  if String.eqb (JS.trim input) "" then showNotification EnterPatternName error
  else
    let name := JS.trim input in
    let* has := gets (fun st => JS.mapHas (JS.Str name) (savedPatterns st)) in
    if has then showNotification (AlreadyExists name) error
    else
      let* _ := modify (fun st =>
          setSavedPatterns
            (JS.mapSet (JS.Str name) (savedRecord st) (savedPatterns st)) st) in
      let* _ := saveToHistory in
      let* _ := saveToLocalStorage in
      showNotification (PatternSaved name) success.

Definition toggleMute (track : string) : M state unit :=
  let* c := config track in
  let* _ := modify (fun st =>
      setTrackStates
        (JS.alter track (setMuted (negb (muted c))) (trackStates st)) st) in
  let* _ := updateSequencerUI track in
  let* mixed := gets (fun st => JS.flag track (tracks (mixedPatterns st))) in
  let* _ := (if mixed then updateMixedCode else ret tt) in
  saveToLocalStorage.

(** *** From note names to MIDI numbers *)

(** [noteMap]. *)
Definition noteMap : JS.obj nat :=
  [("C", 0); ("C#", 1); ("D", 2); ("D#", 3); ("E", 4); ("F", 5); ("F#", 6);
   ("G", 7); ("G#", 8); ("A", 9); ("A#", 10); ("B", 11)].

(** The classes [[A-G]] and [\d] of the regular expression. *)
Definition isNoteLetter (c : ascii) : bool :=
  let n := nat_of_ascii c in Nat.leb 65 n && Nat.leb n 71.

Definition isDigit (c : ascii) : bool :=
  let n := nat_of_ascii c in Nat.leb 48 n && Nat.leb n 57.

(** [parseInt(octave)] of the one digit matched. *)
Definition digit (c : ascii) : nat := nat_of_ascii c - 48.

(** [/([A-G]#?)(\d)/] tried at the start of a string: the two groups.  The
    sharp is taken when it is there; giving it back does not help, no digit
    being a sharp. *)
Definition noteHere (s : string) : option (string * ascii) :=
  match s with
  | String c rest =>
      if isNoteLetter c then
        match rest with
        | String "#" (String d _) =>
            if isDigit d then Some (String c "#", d) else None
        | String d _ => if isDigit d then Some (String c "", d) else None
        | EmptyString => None
        end
      else None
  | EmptyString => None
  end.

(** [note.match(/([A-G]#?)(\d)/)]: the leftmost match. *)
Fixpoint noteMatch (note : string) : option (string * ascii) :=
  match noteHere note with
  | Some groups => Some groups
  | None =>
      match note with
      | String _ rest => noteMatch rest
      | EmptyString => None
      end
  end.

(** [noteToMidiNumber(note)]; [None] is [NaN], the sum of [undefined] and
    a number, for a name [noteMap] does not have. *)
Definition noteToMidiNumber (note : string) : option nat :=
  match noteMatch note with
  | None => Some 60
  | Some (noteName, octave) =>
      match JS.get noteName noteMap with
      | Some semitone => Some (semitone + (digit octave + 1) * 12)
      | None => None
      end
  end.

End Midi.

(** ** More of [CyberStrudel]

    The methods below tell the user what they did by one last call of
    [showNotification], on every path that comes to an end; the operation
    returns the message and its kind.  What the methods they call notify
    on the way goes to the log as before. *)

Module StrudelOps.

Import Monad Strudel.

(** The button [toggleVisualizer] was reached from. *)
Inductive visualizer : Type := scope | spectrum.

Inductive message : Type :=
  | TrackSilent (track : string)      (* TRACK is muted or not soloed *)
  | TrackEmpty (track : string)       (* No active steps in TRACK *)
  | TrackMixed (track : string) (on : bool)   (* Track TRACK mixed / removed *)
  | PresetNotValid (key : string)     (* Preset KEY is not valid *)
  | PresetMixed (key : string) (on : bool)    (* Preset KEY mixed / removed *)
  | SavedNotValid (name : string)     (* Saved pattern name is not valid *)
  | SavedMixed (name : string) (on : bool)
                                      (* Saved pattern name mixed / removed *)
  | PatternNotFound (name : string)   (* Pattern name not found *)
  | PatternDeleted (name : string)    (* Pattern name deleted *)
  | PatternsExported                  (* Patterns exported *)
  | TrackAdded (key : string)         (* New track KEY added *)
  | OriginalTracks                    (* Cannot remove original tracks *)
  | TrackRemoved (key : string)       (* Track KEY removed *)
  | SequencerCleared                  (* Sequencer cleared *)
  | SoundSet (track sound : string)   (* TRACK sound set to sound *)
  | VisualizerNow (type : visualizer) (on : bool).
                                      (* SCOPE enabled / disabled *)

Definition notice : Type := message * kind.

Definition setSound (s : string) (c : trackState) : trackState :=
  TrackState (muted c) (solo c) (steps c) s.

Definition setTracks (v : JS.obj bool) (st : state) : state :=
  let m := mixedPatterns st in
  setMixedPatterns (Mix (presets m) v (saved m)) st.
Definition setSaved (v : JS.obj bool) (st : state) : state :=
  let m := mixedPatterns st in
  setMixedPatterns (Mix (presets m) (tracks m) v) st.

(** *** The mixer buttons *)

Definition mixTrack (track : string) : M state notice :=
  let* ts := gets trackStates in
  let* c := config track in
  if silenced ts c then ret (TrackSilent track, error)
  else
    let stepCount := steps c in
    let* arr := grid track in
    let mask := stepMask stepCount arr in
    if negb (JS.includes "x" mask) then ret (TrackEmpty track, error)
    else
      let* _ := modify (fun st =>
          setTracks
            (JS.set track (negb (JS.flag track (tracks (mixedPatterns st))))
               (tracks (mixedPatterns st))) st) in
      let* _ := updateMixedCode in
      let* _ := saveToHistory in
      let* on := gets (fun st => JS.flag track (tracks (mixedPatterns st))) in
      ret (TrackMixed track on, success).


Definition mixSavedPattern (name : string) : M state notice :=
  let* pattern := gets (fun st => JS.mapGet (JS.Str name) (savedPatterns st)) in
  if negb (JS.truthy pattern) || negb (JS.truthy (JS.field "code" pattern))
  then ret (SavedNotValid name, error)
  else
    let* _ := modify (fun st =>
        setSaved
          (JS.set name (negb (JS.flag name (saved (mixedPatterns st))))
             (saved (mixedPatterns st))) st) in
    let* _ := updateMixedCode in
    let* _ := saveToHistory in
    let* _ := saveToLocalStorage in
    let* on := gets (fun st => JS.flag name (saved (mixedPatterns st))) in
    ret (SavedMixed name on, success).

(** *** The pattern bank *)

Definition deletePattern (name : string) : M state notice :=
  let* has := gets (fun st => JS.mapHas (JS.Str name) (savedPatterns st)) in
  if negb has then ret (PatternNotFound name, error)
  else
    let* _ := modify (fun st =>
        setSaved (JS.set name false (saved (mixedPatterns st))) st) in
    let* _ := modify (fun st =>
        setSavedPatterns (JS.mapDelete (JS.Str name) (savedPatterns st)) st) in
    let* _ := modify (fun st =>
        setSaved (JS.remove name (saved (mixedPatterns st))) st) in
    let* _ := updateMixedCode in
    let* _ := saveToHistory in
    let* _ := saveToLocalStorage in
    ret (PatternDeleted name, success).

(** What [JSON.parse] reads back from the text [exportPatterns] puts in the
    downloaded file, [JSON.stringify([...this.savedPatterns], null, 2)]. *)
Definition exported (bank : JS.Map) : JS.value :=
  JS.clone (JS.Arr (JS.entries bank)).

(** [exportPatterns()]; the operation returns the file with the notice. *)
Definition exportPatterns : M state (JS.value * notice) :=
  let* bank := gets savedPatterns in
  ret (exported bank, (PatternsExported, success)).

(** *** Tracks *)

(** [adjustSequencerGrid()] restyles the grids; it reads
    [trackStates[track].steps] of every track. *)
Definition adjustSequencerGrid : M state unit :=
  let* ids := gets getTracks in
  forEach ids (fun track => let* _ := config track in ret tt).

(** [createTrackHTML(track)] builds the elements of the track; it reads
    [trackStates[track].steps]. *)
Definition createTrackHTML (track : string) : M state unit :=
  let* _ := config track in ret tt.

Definition addTrack : M state notice :=
  let* _ := saveToHistory in
  let* numTracks := gets (fun st => length (getTracks st)) in
  let newKey := "track" +:+ pretty numTracks in
  let* _ := modify (fun st =>
      setSequencerState (JS.set newKey (JS.filled 8) (sequencerState st)) st) in
  let* _ := modify (fun st =>
      setTrackStates
        (JS.set newKey (TrackState false false 8 "bd") (trackStates st)) st) in
  let* _ := createTrackHTML newKey in
  let* _ := updateSequencerTrack newKey in
  let* _ := adjustSequencerGrid in
  let* _ := saveToLocalStorage in
  ret (TrackAdded newKey, success).

(** [tracks[tracks.length - 1]] as a property key. *)
Definition lastOf (ids : list string) : string := List.last ids "undefined".

Definition removeTrack : M state notice :=
  let* ids := gets getTracks in
  if (length ids <=? 4)%nat then ret (OriginalTracks, error)
  else
    let lastKey := lastOf ids in
    let* _ := modify (fun st =>
        setSequencerState (JS.remove lastKey (sequencerState st)) st) in
    let* _ := modify (fun st =>
        setTrackStates (JS.remove lastKey (trackStates st)) st) in
    let* mixed := gets (fun st => JS.flag lastKey (tracks (mixedPatterns st))) in
    let* _ := (if mixed
               then modify (fun st =>
                      setTracks (JS.remove lastKey (tracks (mixedPatterns st)))
                        st)
               else ret tt) in
    let* _ := saveToHistory in
    let* _ := adjustSequencerGrid in
    let* _ := saveToLocalStorage in
    ret (TrackRemoved lastKey, success).

(** The body of the loop of [clearSequencer]. *)
Definition clearTrack (track : string) : M state unit :=
  let* c := config track in
  let* _ := modify (fun st =>
      setSequencerState
        (JS.set track (JS.filled (steps c)) (sequencerState st)) st) in
  let* _ := updateSequencerUI track in
  modify (fun st =>
    setTracks (JS.set track false (tracks (mixedPatterns st))) st).

Definition clearSequencer : M state notice :=
  let* ids := gets getTracks in
  let* _ := forEach ids clearTrack in
  let* _ := modify (setSaved []) in
  let* _ := updateMixedCode in
  let* _ := saveToLocalStorage in
  ret (SequencerCleared, success).

Definition changeTrackSound (track sound : string) : M state notice :=
  let* _ := config track in
  let* _ := modify (fun st =>
      setTrackStates (JS.alter track (setSound sound) (trackStates st)) st) in
  let* mixed := gets (fun st => JS.flag track (tracks (mixedPatterns st))) in
  let* _ := (if mixed then updateMixedCode else ret tt) in
  let* _ := saveToLocalStorage in
  ret (SoundSet track sound, success).

(** *** The visualizers *)




(** *** Click listeners of [setupTrackListeners] and [setupEventListeners] *)

Definition onMute (track : string) : M state unit :=
  let* _ := saveToHistory in toggleMute track.

Definition onSolo (track : string) : M state unit :=
  let* _ := saveToHistory in toggleSolo track.

Definition onMix (track : string) : M state notice :=
  let* _ := saveToHistory in mixTrack track.

Definition onSteps (track : string) (count : nat) : M state unit :=
  let* _ := saveToHistory in changeStepCount track count.

Definition onSound (track sound : string) : M state notice :=
  let* _ := saveToHistory in changeTrackSound track sound.

Definition onClear : M state notice :=
  let* _ := saveToHistory in clearSequencer.

End StrudelOps.

(** ** More of [CyberMidi] *)

Module MidiOps.

Import Monad Midi.

Inductive message : Type :=
  | SavedMixed (name : string) (on : bool)
                                      (* Saved pattern name mixed / removed *)
  | PatternNotFound (name : string)   (* Pattern name not found *)
  | PatternDeleted (name : string)    (* Pattern name deleted *)
  | TrackAdded (trackId : string)     (* Track ID added *)
  | LastTrack                         (* Cannot remove the last track *)
  | TrackRemoved (track : string)     (* Track ID removed *)
  | AllCleared.                       (* All tracks cleared *)

Definition notice : Type := message * kind.

Definition setMixedPatterns v (st : state) : state :=
  State (sequencerState st) (trackStates st) (synthParams st) v
    (savedPatterns st) (hist st) (editor st) (log st).

(** Assignments to the two objects of [this.mixedPatterns]. *)
Definition setTracks (v : JS.obj bool) (st : state) : state :=
  setMixedPatterns (Mix v (saved (mixedPatterns st))) st.
Definition setSaved (v : JS.obj bool) (st : state) : state :=
  setMixedPatterns (Mix (tracks (mixedPatterns st)) v) st.

(** *** The mixer buttons *)

Definition mixTrack (track : string) : M state unit :=
  let* _ := modify (fun st =>
      setTracks
        (JS.set track (negb (JS.flag track (tracks (mixedPatterns st))))
           (tracks (mixedPatterns st))) st) in
  let* _ := updateMixedCode in
  saveToLocalStorage.

Definition mixSavedPattern (name : string) : M state notice :=
  let* _ := modify (fun st =>
      setSaved
        (JS.set name (negb (JS.flag name (saved (mixedPatterns st))))
           (saved (mixedPatterns st))) st) in
  let* _ := updateMixedCode in
  let* _ := saveToHistory in
  let* _ := saveToLocalStorage in
  let* on := gets (fun st => JS.flag name (saved (mixedPatterns st))) in
  ret (SavedMixed name on, success).

Definition deletePattern (name : string) : M state notice :=
  let* has := gets (fun st => JS.mapHas (JS.Str name) (savedPatterns st)) in
  if negb has then ret (PatternNotFound name, error)
  else
    let* _ := modify (fun st =>
        setSaved (JS.set name false (saved (mixedPatterns st))) st) in
    let* _ := modify (fun st =>
        setSavedPatterns (JS.mapDelete (JS.Str name) (savedPatterns st)) st) in
    let* _ := modify (fun st =>
        setSaved (JS.remove name (saved (mixedPatterns st))) st) in
    let* _ := updateMixedCode in
    let* _ := saveToHistory in
    let* _ := saveToLocalStorage in
    ret (PatternDeleted name, success).

(** *** Tracks *)

(** [createTrackHTML(track)] builds the elements of the track and sets its
    two selectors from [trackStates[track]]. *)
Definition createTrackHTML (track : string) : M state unit :=
  let* _ := config track in ret tt.

(** [updateSequencerTrack(track)] rebuilds the steps of the track, as many
    as [trackStates[track].steps]. *)
Definition updateSequencerTrack (track : string) : M state unit :=
  let* _ := config track in updateSequencerUI track.

Definition adjustSequencerGrid : M state unit :=
  let* ids := gets getTracks in
  forEach ids (fun track => let* _ := config track in ret tt).

Definition recreateSequencer : M state unit :=
  let* ids := gets getTracks in
  let* _ := forEach ids createTrackHTML in
  let* ids := gets getTracks in
  let* _ := forEach ids updateSequencerTrack in
  adjustSequencerGrid.

Definition addTrack : M state notice :=
  let* _ := saveToHistory in
  let* count := gets (fun st => length (JS.keys (sequencerState st))) in
  let trackId := "note" +:+ pretty (count + 1) in
  let* _ := modify (fun st =>
      setSequencerState (JS.set trackId (JS.filled 8) (sequencerState st)) st) in
  let* _ := modify (fun st =>
      setTrackStates
        (JS.set trackId (TrackState false false 8 "C4") (trackStates st)) st) in
  let* _ := recreateSequencer in
  let* _ := saveToLocalStorage in
  ret (TrackAdded trackId, success).

Definition removeTrack : M state notice :=
  let* _ := saveToHistory in
  let* ids := gets getTracks in
  if (length ids <=? 1)%nat then ret (LastTrack, error)
  else
    let lastTrack := StrudelOps.lastOf ids in
    let* _ := modify (fun st =>
        setSequencerState (JS.remove lastTrack (sequencerState st)) st) in
    let* _ := modify (fun st =>
        setTrackStates (JS.remove lastTrack (trackStates st)) st) in
    let* _ := modify (fun st =>
        setTracks (JS.remove lastTrack (tracks (mixedPatterns st))) st) in
    let* _ := recreateSequencer in
    let* _ := updateMixedCode in
    let* _ := saveToLocalStorage in
    ret (TrackRemoved lastTrack, success).

(** The body of the first loop of [clearAll]. *)
Definition clearTrack (track : string) : M state unit :=
  let* c := config track in
  let* _ := modify (fun st =>
      setSequencerState
        (JS.set track (JS.filled (steps c)) (sequencerState st)) st) in
  updateSequencerUI track.

Definition clearAll : M state notice :=
  let* _ := saveToHistory in
  let* ids := gets getTracks in
  let* _ := forEach ids clearTrack in
  let* _ := modify (setTracks []) in
  let* _ := updateMixedCode in
  let* _ := saveToLocalStorage in
  ret (AllCleared, success).

End MidiOps.

(** * The vocabulary of the properties *)

(** ** The undo stack *)

Section HistoryTerms.

Context {A : Type}.

Implicit Types (s : History.stack A) (x : A).

(** The data-model invariant of the stack: the cursor points at an entry
    whenever there is one. *)
Definition cursorOk s : Prop :=
  (0 < History.len (History.history s) ->
   0 <= History.historyIndex s < History.len (History.history s))%Z.

Definition bounded s : Prop :=
  (History.len (History.history s) <= History.maxHistory)%Z.

(** The entries [saveToHistory] keeps before it appends: all of them when
    the cursor is at the end, otherwise those up to the cursor. *)
Definition kept s : list A :=
  if (History.historyIndex s <? History.len (History.history s) - 1)%Z
  then History.splice (History.historyIndex s + 1) (History.history s)
  else History.history s.

(** One user action on the stack. *)
Inductive action : Type :=
  | Push (x : A)
  | Undo
  | Redo.

Definition act (a : action) s : History.stack A :=
  match a with
  | Push x => History.saveToHistory x s
  | Undo => fst (History.undo s)
  | Redo => fst (History.redo s)
  end.

Definition run (acts : list action) s : History.stack A :=
  fold_left (fun s a => act a s) acts s.

End HistoryTerms.

Arguments action : clear implicits.

(** ** Operations *)

(** The operation leaves the part [f] of the state as it found it, whether
    it returns or raises. *)
Definition keeps {S B A : Type} (f : S -> B) (m : Monad.M S A) : Prop :=
  forall st, f (Monad.final (m st)) = f st.

(** Operations that cannot raise. *)
Definition total {S A : Type} (m : Monad.M S A) : Prop :=
  forall st, Monad.returned (m st) = true.

(** ** Data *)



(** One [[name, record]] pair of an exported bank, and the payloads that are
    lists of such pairs. *)
Definition pairJSON (e : string * JS.value) : JS.value :=
  JS.Arr [JS.Str (fst e); snd e].

Definition wellFormed (data : JS.value) : bool :=
  match data with
  | JS.Arr items =>
      forallb (fun e => match e with
                        | JS.Arr [JS.Str _; JS.Obj _] => true
                        | _ => false
                        end) items
  | _ => false
  end.

(** The bank a list of pairs stands for. *)
Definition bankOf (l : list (string * JS.value)) : JS.Map :=
  List.map (fun e => (JS.Str (fst e), snd e)) l.

(** The loop of the [Map] constructor. *)
Definition addEntries (items : list JS.value) (acc : option JS.Map)
    : option JS.Map :=
  fold_left
    (fun acc entry =>
       match acc with
       | None => None
       | Some m =>
           if JS.isObject entry
           then Some (JS.mapSet (JS.entryAt 0 entry) (JS.entryAt 1 entry) m)
           else None
       end) items acc.


(** Whether a character occurs in a string. *)
Fixpoint hasChar (c : ascii) (s : string) : bool :=
  match s with
  | EmptyString => false
  | String c' rest => Ascii.eqb c c' || hasChar c rest
  end.

(** The marker of a boolean step. *)
Definition hitOrRest (b : bool) : string := if b then "x" else "~".

(** ** The class [CyberStrudel] *)

Section StrudelTerms.

Import Monad Strudel.

(** Everything but the editor text, the playback flags and the log. *)
Definition data (st : state) :=
  (sequencerState st, trackStates st, synthParams st, mixedPatterns st,
   savedPatterns st, hist st).

(** Every track of [sequencerState] has its entry in [trackStates]. *)
Definition configured (st : state) : bool :=
  forallb (fun t => match JS.get t (trackStates st) with
                    | Some _ => true
                    | None => false
                    end) (getTracks st).

(** *** The loops of the source as functions of the state *)

(** What each of the three loops of [updateMixedCode] pushes for one key. *)
Definition trackPart (st : state) (track : string) : list JS.value :=
  if JS.flag track (tracks (mixedPatterns st)) then
    match JS.get track (trackStates st), JS.get track (sequencerState st) with
    | Some c, Some arr =>
        if silenced (trackStates st) c then []
        else
          let mask := stepMask (steps c) arr in
          if JS.includes "x" mask
          then [JS.Str (trackCode (sound c) (steps c) mask)]
          else []
    | _, _ => []
    end
  else [].

Definition presetPart (st : state) (key : string) : list JS.value :=
  if JS.flag key (presets (mixedPatterns st)) then [preset key] else [].

Definition savedPart (st : state) (name : string) : list JS.value :=
  if JS.flag name (saved (mixedPatterns st)) then
    let pattern := JS.mapGet (JS.Str name) (savedPatterns st) in
    if JS.truthy pattern && JS.truthy (JS.field "code" pattern)
    then [JS.field "code" pattern]
    else []
  else [].

Definition patternsOf (st : state) : list JS.value :=
  flat_map (trackPart st) (getTracks st)
  ++ flat_map (presetPart st) (JS.keys (presets (mixedPatterns st)))
  ++ flat_map (savedPart st) (JS.keys (saved (mixedPatterns st))).

(** What the loop of [generateSequencerCode] pushes for one track. *)
Definition sequencerPart (st : state) (track : string) : list string :=
  match JS.get track (trackStates st), JS.get track (sequencerState st) with
  | Some c, Some arr =>
      if silenced (trackStates st) c then []
      else
        let mask := stepMask (steps c) arr in
        if JS.includes "x" mask
        then [trackCode (sound c) (steps c) mask]
        else []
  | _, _ => []
  end.

(** The text [updateMixedCode] puts in the editor. *)
Definition mixedText (st : state) : string :=
  JS.domString
    (withTempo (synthParams st) (patternsOf st) (combine (patternsOf st))).

(** The state [changeStepCount] has built when it turns to the display. *)
Definition resized (track : string) (count : nat) (arr : list JS.slot)
    (st : state) : state :=
  setSequencerState
    (JS.set track (copySteps (JS.slice0 count arr) count (JS.filled count))
       (sequencerState st))
    (setTrackStates (JS.alter track (setSteps count) (trackStates st)) st).

(** What [changeStepCount] still does then. *)
Definition afterResize (track : string) (count : nat) : M state unit :=
  let* _ := updateSequencerTrack track in
  let* mixed := gets (fun st => JS.flag track (tracks (mixedPatterns st))) in
  let* _ := (if mixed then updateMixedCode else ret tt) in
  let* _ := saveToLocalStorage in
  showNotification (StepsSet track count) success.

(** The state [toggleStep] has built when it turns to the display. *)
Definition toggled (track : string) (index : nat) (arr : list JS.slot)
    (st : state) : state :=
  let st1 := setHist (History.saveToHistory (snapshot st) (hist st)) st in
  setSequencerState
    (JS.set track
       (JS.store arr index (JS.Step (negb (JS.activeAt arr index))))
       (sequencerState st1)) st1.

Definition afterToggle (track : string) : M state unit :=
  let* _ := updateSequencerUI track in
  let* mixed := gets (fun st => JS.flag track (tracks (mixedPatterns st))) in
  let* _ := (if mixed then updateMixedCode else ret tt) in
  saveToLocalStorage.

Definition afterSolo (track : string) (wasSolo : bool) : M state unit :=
  let* ids := gets getTracks in
  let* _ := forEach ids updateSequencerUI in
  let* any := gets (fun st =>
      existsb (fun v => v) (JS.values (tracks (mixedPatterns st)))) in
  let* _ := (if any then updateMixedCode else ret tt) in
  let* _ := saveToLocalStorage in
  showNotification (SoloNow track (negb wasSolo)) success.

Definition afterMute (track : string) : M state unit :=
  let* ids := gets getTracks in
  let* _ := forEach ids updateSequencerUI in
  let* mixed := gets (fun st => JS.flag track (tracks (mixedPatterns st))) in
  let* _ := (if mixed then updateMixedCode else ret tt) in
  let* _ := saveToLocalStorage in
  let* c' := config track in
  showNotification (MuteNow track (muted c')) success.

(** [trackStates] once [toggleMute] has changed the two flags. *)
Definition muteToggled (track : string) (c : trackState)
    (ts : JS.obj trackState) : JS.obj trackState :=
  JS.alter track (setSolo false)
    (JS.alter track (setMuted (negb (muted c))) ts).

(** The state [importPatterns] has built when it recomposes the mix. *)
Definition imported (m : JS.Map) (st : state) : state :=
  let st1 := setSavedPatterns m st in
  setMixedPatterns
    (Mix (presets (mixedPatterns st1)) (tracks (mixedPatterns st1)) []) st1.

Definition afterImport : M state unit :=
  let* _ := updateMixedCode in
  let* _ := saveToHistory in
  let* _ := saveToLocalStorage in
  showNotification PatternsImported success.

(** The code [generateTrackCode] writes for a track it accepts. *)
Definition generatedCode (p : synth) (c : trackState) (arr : list JS.slot)
    : string :=
  let code := trackCode (sound c) (steps c) (stepMask (steps c) arr) in
  if bpmEnabled p then tempo (bpm p) code else code.

Definition afterGenerate (track sound : string) : M state unit :=
  let* _ := evaluateCode in
  let* _ := saveToHistory in
  showNotification (CodeGenerated track sound) success.

(** *** The mixer in the words of the specification *)

(** The solo rule: a muted track is never heard, and when some track is
    soloed only the soloed tracks are. *)
Definition audible (ts : JS.obj trackState) (c : trackState) : bool :=
  negb (muted c) && (negb (isSoloActive ts) || solo c).

(** The grid of a track is the first [stepCount] entries of its array. *)
Definition hasActiveStep (c : trackState) (arr : list JS.slot) : bool :=
  existsb JS.active (take (steps c) arr).

(** The fragment of a track: the compiled code of a track that is selected,
    audible and has an active step. *)
Definition trackFragment (st : state) (track : string) : list string :=
  match JS.get track (trackStates st), JS.get track (sequencerState st) with
  | Some c, Some arr =>
      if JS.flag track (tracks (mixedPatterns st))
         && audible (trackStates st) c && hasActiveStep c arr
      then [trackCode (sound c) (steps c) (stepMask (steps c) arr)]
      else []
  | _, _ => []
  end.

(** The fragment of a preset: its fixed text, when it is selected. *)
Definition presetFragment (st : state) (key : string) : list string :=
  if JS.flag key (presets (mixedPatterns st))
  then match JS.get key builtin with
       | Some code => [code]
       | None => []
       end
  else [].

(** The code stored with a saved pattern. *)
Definition storedCode (bank : JS.Map) (name : string) : option string :=
  match JS.field "code" (JS.mapGet (JS.Str name) bank) with
  | JS.Str code => Some code
  | _ => None
  end.

(** The fragment of a saved pattern: its stored code, when it is selected.
    With [skipEmpty] a pattern whose stored code is empty gives none. *)
Definition savedFragment (skipEmpty : bool) (st : state) (name : string)
    : list string :=
  if JS.flag name (saved (mixedPatterns st))
  then match storedCode (savedPatterns st) name with
       | Some code =>
           if skipEmpty && String.eqb code "" then [] else [code]
       | None => []
       end
  else [].

(** Tracks, then presets, then saved patterns. *)
Definition fragments (skipEmpty : bool) (st : state) : list string :=
  flat_map (trackFragment st) (getTracks st)
  ++ flat_map (presetFragment st) (JS.keys (presets (mixedPatterns st)))
  ++ flat_map (savedFragment skipEmpty st) (JS.keys (saved (mixedPatterns st))).

(** The composed program. *)
Definition program (fs : list string) : string :=
  match fs with
  | [] => ""
  | [f] => f
  | _ => "stack(" +:+ String.concat ", " fs +:+ ")"
  end.

(** Every selected preset is one of the built-in ones. *)
Definition presetsKnown (st : state) : bool :=
  forallb (fun key => negb (JS.flag key (presets (mixedPatterns st)))
                      || match JS.get key builtin with
                         | Some _ => true
                         | None => false
                         end)
    (JS.keys (presets (mixedPatterns st))).

(** The [code] of every selected saved pattern is a string, if it has one. *)
Definition textOrNothing (v : JS.value) : bool :=
  match v with
  | JS.Str _ => true
  | _ => negb (JS.truthy v)
  end.

Definition codesAreText (st : state) : bool :=
  forallb (fun name =>
             negb (JS.flag name (saved (mixedPatterns st)))
             || textOrNothing
                  (JS.field "code" (JS.mapGet (JS.Str name) (savedPatterns st))))
    (JS.keys (saved (mixedPatterns st))).

End StrudelTerms.

(** ** The class [CyberMidi] *)

Section MidiTerms.

Import Monad Midi.

(** The tracks [updateMixedCode] goes through. *)
Definition chosenTracks (m : state) : list string :=
  List.filter (fun t => JS.flag t (tracks (mixedPatterns m)))
    (JS.keys (tracks (mixedPatterns m))).

(** The line of a track, when it has its two entries. *)
Definition midiLine (m : state) (track : string) : option string :=
  match JS.get track (trackStates m), JS.get track (sequencerState m) with
  | Some c, Some arr => Some (noteCode (sound c) arr)
  | _, _ => None
  end.

(** Every selected track has its two entries. *)
Definition mixable (m : state) : bool :=
  forallb (fun t => match midiLine m t with
                    | Some _ => true
                    | None => false
                    end) (chosenTracks m).

(** What a saved pattern adds to the code. *)
Definition midiSaved (m : state) (name : string) : string :=
  if JS.flag name (saved (mixedPatterns m)) then
    let pattern := JS.mapGet (JS.Str name) (savedPatterns m) in
    if JS.truthy pattern && JS.truthy (JS.field "code" pattern)
    then JS.toString (JS.field "code" pattern) +:+ JS.nl
    else ""
  else "".

(** The text [updateMixedCode] puts in the editor. *)
Definition midiText (m : state) : string :=
  fold_left (fun code name => code +:+ midiSaved m name)
    (JS.keys (saved (mixedPatterns m)))
    (fold_left (fun code t => code +:+ default "" (midiLine m t))
       (chosenTracks m) "").

End MidiTerms.




(** ** More of [CyberStrudel] *)

(** The keys of a [Map] are pairwise different. *)
Fixpoint distinct (m : JS.Map) : bool :=
  match m with
  | [] => true
  | (k, _) :: rest => negb (JS.mapHas k rest) && distinct rest
  end.

(** Values that [JSON.stringify] writes in full: no [undefined] in them and
    no number that is not finite. *)
Fixpoint isJSON (v : JS.value) : bool :=
  match v with
  | JS.Undefined => false
  | JS.Num t => JS.finite t
  | JS.Arr items => forallb isJSON items
  | JS.Obj fs => forallb (fun '(_, x) => isJSON x) fs
  | _ => true
  end.

Section StrudelOpsTerms.

Import Monad Strudel StrudelOps.

(** A saved pattern the mixer takes: it is in the bank and its [code] is
    not empty. *)
Definition usable (bank : JS.Map) (name : string) : bool :=
  JS.truthy (JS.mapGet (JS.Str name) bank)
  && JS.truthy (JS.field "code" (JS.mapGet (JS.Str name) bank)).

(** Every selected saved pattern is one the mixer takes. *)
Definition selectionValid (st : state) : bool :=
  forallb (fun name => negb (JS.flag name (saved (mixedPatterns st)))
                       || usable (savedPatterns st) name)
    (JS.keys (saved (mixedPatterns st))).

(** The tracks, the synth parameters, the selection and the bank. *)
Definition core (st : state) :=
  (sequencerState st, trackStates st, synthParams st, mixedPatterns st,
   savedPatterns st).

(** The state [deletePattern] has built when it recomposes the mix. *)
Definition deleted (name : string) (st : state) : state :=
  let st1 := setSaved (JS.set name false (saved (mixedPatterns st))) st in
  let st2 := setSavedPatterns
               (JS.mapDelete (JS.Str name) (savedPatterns st1)) st1 in
  setSaved (JS.remove name (saved (mixedPatterns st2))) st2.

(** The state [mixSavedPattern] has built when it recomposes the mix. *)
Definition savedToggled (name : string) (st : state) : state :=
  setSaved
    (JS.set name (negb (JS.flag name (saved (mixedPatterns st))))
       (saved (mixedPatterns st))) st.

(** A bank [JSON.stringify] writes in full. *)
Definition bankIsJSON (bank : JS.Map) : bool :=
  forallb (fun '(k, v) => isJSON k && isJSON v) bank.

(** What the user does with the pattern bank. *)
Inductive bankOp : Type :=
  | Save (input : string)
  | Delete (name : string)
  | MixSaved (name : string)
  | Import (file : option parsed).

Definition bankStep (op : bankOp) (st : state) : state :=
  match op with
  | Save input => final (savePattern input st)
  | Delete name => final (deletePattern name st)
  | MixSaved name => final (mixSavedPattern name st)
  | Import file => final (importPatterns file st)
  end.

(** The bank and its selection are in order: the names of each are pairwise
    different and what is selected is usable. *)
Definition bankOk (st : state) : Prop :=
  configured st = true
  /\ distinct (savedPatterns st) = true
  /\ NoDup (JS.keys (saved (mixedPatterns st)))
  /\ selectionValid st = true.

(** The states [mixTrack] and [mixPreset] have built when they recompose
    the mix. *)
Definition trackToggled (track : string) (st : state) : state :=
  setTracks
    (JS.set track (negb (JS.flag track (tracks (mixedPatterns st))))
       (tracks (mixedPatterns st))) st.


(** The second loop of [generateSequencerCode], which selects every
    track, and the state the method has built when it evaluates the code. *)
Definition selectedAll (ids : list string) (st : state) : state :=
  fold_left
    (fun st track =>
       setMixedPatterns
         (Mix (presets (mixedPatterns st))
            (JS.set track true (tracks (mixedPatterns st)))
            (saved (mixedPatterns st))) st) ids st.

Definition stacked (p : synth) (parts : list string) : string :=
  let newCode := "stack(" +:+ String.concat ", " parts +:+ ")" in
  if bpmEnabled p then tempo (bpm p) newCode else newCode.

Definition sequenced (parts : list string) (st : state) : state :=
  selectedAll (getTracks st)
    (setMixedPatterns (Mix [] [] [])
       (setEditor (stacked (synthParams st) parts) st)).



(** *** Tracks *)

(** The key [addTrack] gives the track it adds to [i] tracks. *)
Definition trackName (i : nat) : string := "track" +:+ pretty i.

(** The four tracks of the constructor followed by [k] added ones. *)
Definition standardTracks (k : nat) : list string :=
  ["bd"; "sd"; "hh"; "cp"] ++ List.map trackName (seq 4 k).

Definition standard (st : state) : Prop :=
  exists k, getTracks st = standardTracks k
            /\ JS.keys (trackStates st) = standardTracks k.

(** The state [addTrack] has built when it turns to the display. *)
Definition added (st : state) : state :=
  let newKey := trackName (length (getTracks st)) in
  let st1 := setHist (History.saveToHistory (snapshot st) (hist st)) st in
  setTrackStates
    (JS.set newKey (TrackState false false 8 "bd") (trackStates st1))
    (setSequencerState
       (JS.set newKey (JS.filled 8) (sequencerState st1)) st1).

(** The state [removeTrack] has built when it pushes it on the undo
    stack. *)
Definition removed (st : state) : state :=
  let lastKey := lastOf (getTracks st) in
  let st1 := setTrackStates (JS.remove lastKey (trackStates st))
               (setSequencerState (JS.remove lastKey (sequencerState st)) st) in
  if JS.flag lastKey (tracks (mixedPatterns st1))
  then setTracks (JS.remove lastKey (tracks (mixedPatterns st1))) st1
  else st1.

(** What one round of the loop of [clearSequencer] makes of the state, and
    the state after the rounds for the tracks [ids]. *)
Definition clearedTrack (track : string) (st : state) : state :=
  match JS.get track (trackStates st) with
  | Some c =>
      setTracks (JS.set track false (tracks (mixedPatterns st)))
        (setSequencerState
           (JS.set track (JS.filled (steps c)) (sequencerState st)) st)
  | None => st
  end.

Definition cleared (ids : list string) (st : state) : state :=
  fold_left (fun st track => clearedTrack track st) ids st.

(** Everything the loop does not write. *)
Definition untouched (st : state) :=
  (trackStates st, synthParams st, presets (mixedPatterns st),
   saved (mixedPatterns st), savedPatterns st, hist st, editor st, log st,
   (strudelReady st, currentPattern st, isPlaying st)).

Inductive trackOp : Type := AddTrack | RemoveTrack.

(** The array of a track agrees with its step count: it has as many
    entries, and they are booleans. *)
Definition isStep (s : JS.slot) : bool :=
  match s with
  | JS.Step _ => true
  | _ => false
  end.

Definition gridOk (c : trackState) (arr : list JS.slot) : bool :=
  (length arr =? steps c)%nat && forallb isStep arr.

Definition gridsOk (st : state) : bool :=
  forallb (fun t => match JS.get t (trackStates st),
                          JS.get t (sequencerState st) with
                    | Some c, Some arr => gridOk c arr
                    | _, _ => false
                    end) (getTracks st).

(** The controls of the sequencer.  A step of a track can be clicked when
    the grid shows it: [updateSequencerTrack] builds one element for each
    index below the step count of the track. *)
Inductive control : Type :=
  | ClickStep (track : string) (index : nat)
  | SelectSteps (track : string) (count : nat)
  | SelectSound (track sound : string)
  | ClickMute (track : string)
  | ClickSolo (track : string)
  | ClickClear
  | ClickAdd.

Definition hasTrack (track : string) (st : state) : bool :=
  existsb (String.eqb track) (getTracks st).

Definition onPage (k : control) (st : state) : bool :=
  match k with
  | ClickStep track index =>
      hasTrack track st
      && match JS.get track (trackStates st) with
         | Some c => index <? steps c
         | None => false
         end
  | SelectSteps track _ | SelectSound track _ | ClickMute track
  | ClickSolo track =>
      hasTrack track st
  | ClickClear | ClickAdd => true
  end.

Definition controlStep (k : control) (st : state) : state :=
  match k with
  | ClickStep track index => final (toggleStep track index st)
  | SelectSteps track count => final (onSteps track count st)
  | SelectSound track sound => final (onSound track sound st)
  | ClickMute track => final (onMute track st)
  | ClickSolo track => final (onSolo track st)
  | ClickClear => final (onClear st)
  | ClickAdd => final (addTrack st)
  end.

(** A session: every control is on the page when it is used. *)
Fixpoint session (ks : list control) (st : state) : bool :=
  match ks with
  | [] => true
  | k :: rest => onPage k st && session rest (controlStep k st)
  end.

Definition trackStep (op : trackOp) (st : state) : state :=
  match op with
  | AddTrack => final (addTrack st)
  | RemoveTrack => final (removeTrack st)
  end.

End StrudelOpsTerms.

(** ** More of [CyberMidi] *)

Section MidiOpsTerms.

Import Monad Midi MidiOps.

(** Every track has its entry in [trackStates]. *)
Definition midiConfigured (m : state) : bool :=
  forallb (fun t => match JS.get t (trackStates m) with
                    | Some _ => true
                    | None => false
                    end) (getTracks m).

(** The id [addTrack] gives the track it adds to [n] tracks. *)
Definition noteName (n : nat) : string := "note" +:+ pretty (n + 1).

(** The code of the selected saved patterns alone. *)
Definition midiSavedText (m : state) : string :=
  fold_left (fun code name => code +:+ midiSaved m name)
    (JS.keys (saved (mixedPatterns m))) "".

(** The state [mixTrack] has built when it composes the code. *)
Definition midiToggled (track : string) (m : state) : state :=
  setTracks
    (JS.set track (negb (JS.flag track (tracks (mixedPatterns m))))
       (tracks (mixedPatterns m))) m.

(** The state [addTrack] has built when it turns to the display. *)
Definition midiAdded (m : state) : state :=
  let trackId := noteName (length (getTracks m)) in
  let m1 := setHist (History.saveToHistory (snapshot m) (hist m)) m in
  setTrackStates
    (JS.set trackId (TrackState false false 8 "C4") (trackStates m1))
    (setSequencerState (JS.set trackId (JS.filled 8) (sequencerState m1)) m1).

(** The state [removeTrack] has built when it turns to the display. *)
Definition midiRemoved (m : state) : state :=
  let lastTrack := StrudelOps.lastOf (getTracks m) in
  let m1 := setHist (History.saveToHistory (snapshot m) (hist m)) m in
  setTracks (JS.remove lastTrack (tracks (mixedPatterns m1)))
    (setTrackStates (JS.remove lastTrack (trackStates m1))
       (setSequencerState (JS.remove lastTrack (sequencerState m1)) m1)).


(** The bank and the selection without [name]. *)
Definition midiDeleted (name : string) (m : state) : state :=
  setSaved (JS.remove name (saved (mixedPatterns m)))
    (setSavedPatterns (JS.mapDelete (JS.Str name) (savedPatterns m)) m).

(** Everything but the arrays of steps. *)
Definition besidesGrids (m : state) :=
  (trackStates m, synthParams m, mixedPatterns m, savedPatterns m, hist m,
   editor m, log m).

End MidiOpsTerms.

(** * Properties *)


(** ** The undo stack *)

Section HistoryFacts.

Context {A : Type}.

Implicit Types (s : History.stack A) (x : A).

Lemma len_app_one (l : list A) x :
  History.len (l ++ [x]) = (History.len l + 1)%Z.
Proof. unfold History.len. rewrite length_app. simpl. lia. Qed.

Lemma len_tail (l : list A) :
  l <> [] -> History.len (tail l) = (History.len l - 1)%Z.
Proof. destruct l; [congruence|]. intros _. unfold History.len. simpl. lia. Qed.

Lemma splice_in_range (l : list A) (i : Z) :
  (0 <= i <= History.len l)%Z -> History.splice i l = take (Z.to_nat i) l.
Proof.
  intros H. unfold History.splice.
  destruct (Z.ltb_spec i 0); [lia|].
  by rewrite Z.min_l by lia.
Qed.

Lemma len_splice (l : list A) (i : Z) :
  (History.len (History.splice i l) <= History.len l)%Z.
Proof.
  unfold History.splice, History.len. rewrite length_take. lia.
Qed.

Lemma len_kept s :
  (History.len (kept s) <= History.len (History.history s))%Z.
Proof. unfold kept. case_match; [apply len_splice|lia]. Qed.

Lemma saveToHistory_history x s :
  History.history (History.saveToHistory x s) =
  if (History.len (kept s) + 1 >? History.maxHistory)%Z
  then tail (kept s ++ [x]) else kept s ++ [x].
Proof.
  unfold History.saveToHistory, kept, History.push, History.shift. simpl.
  rewrite len_app_one. reflexivity.
Qed.

Lemma saveToHistory_index x s :
  History.historyIndex (History.saveToHistory x s) =
  (History.len (History.history (History.saveToHistory x s)) - 1)%Z.
Proof. reflexivity. Qed.

Lemma saveToHistory_len x s :
  History.len (History.history (History.saveToHistory x s)) =
  (if (History.len (kept s) + 1 >? History.maxHistory)%Z
   then History.len (kept s) else History.len (kept s) + 1)%Z.
Proof.
  rewrite saveToHistory_history. case_match.
  - rewrite len_tail, len_app_one; [lia|]. by destruct (kept s).
  - apply len_app_one.
Qed.

Lemma saveToHistory_last x s :
  last (History.history (History.saveToHistory x s)) = Some x.
Proof.
  rewrite saveToHistory_history. case_match eqn:E.
  - destruct (kept s) as [|y l] eqn:K.
    + simpl in E. unfold History.maxHistory in E. simpl in E. discriminate.
    + simpl. apply last_snoc.
  - apply last_snoc.
Qed.

Lemma saveToHistory_cursorOk x s : cursorOk (History.saveToHistory x s).
Proof.
  unfold cursorOk. rewrite saveToHistory_index. lia.
Qed.

Lemma saveToHistory_bounded x s :
  bounded s -> bounded (History.saveToHistory x s).
Proof.
  unfold bounded. intros H. rewrite saveToHistory_len.
  pose proof (len_kept s). destruct (Z.gtb_spec (History.len (kept s) + 1)
    History.maxHistory); lia.
Qed.

Lemma undo_cursorOk s : cursorOk s -> cursorOk (fst (History.undo s)).
Proof.
  unfold cursorOk, History.undo. intros H.
  destruct (Z.leb_spec (History.historyIndex s) 0); simpl; [done|lia].
Qed.

Lemma redo_cursorOk s : cursorOk s -> cursorOk (fst (History.redo s)).
Proof.
  unfold cursorOk, History.redo. intros H.
  destruct (Z.geb_spec (History.historyIndex s)
              (History.len (History.history s) - 1)); simpl; [done|lia].
Qed.

Lemma undo_history s : History.history (fst (History.undo s)) = History.history s.
Proof. unfold History.undo. by case_match. Qed.

Lemma redo_history s : History.history (fst (History.redo s)) = History.history s.
Proof. unfold History.redo. by case_match. Qed.

Lemma act_preserves a s :
  bounded s /\ cursorOk s -> bounded (act a s) /\ cursorOk (act a s).
Proof.
  intros [Hb Hc]. destruct a; simpl.
  - split; [by apply saveToHistory_bounded|apply saveToHistory_cursorOk].
  - split; [|by apply undo_cursorOk]. unfold bounded. by rewrite undo_history.
  - split; [|by apply redo_cursorOk]. unfold bounded. by rewrite redo_history.
Qed.

Lemma run_preserves acts s :
  bounded s /\ cursorOk s -> bounded (run acts s) /\ cursorOk (run acts s).
Proof.
  revert s. induction acts as [|a acts IH]; intros s H; [done|].
  simpl. apply IH. by apply act_preserves.
Qed.

End HistoryFacts.

Lemma kept_take {A} (s : History.stack A) :
  (0 <= History.historyIndex s + 1 <= History.len (History.history s))%Z ->
  kept s = take (Z.to_nat (History.historyIndex s + 1)) (History.history s).
Proof.
  intros H. unfold kept.
  destruct (Z.ltb_spec (History.historyIndex s)
              (History.len (History.history s) - 1)).
  - by apply splice_in_range.
  - rewrite take_ge; [done|]. unfold History.len in *. lia.
Qed.

(** C6.  [saveToHistory] keeps the entries up to the cursor (all of them
    when the cursor is at the end), appends the new snapshot, drops the
    oldest entry when that makes more than [maxHistory], and leaves the
    cursor on the last entry.  So a stack of at most [maxHistory] entries
    stays so; the cursor invariant [0 <= index < length] (for a non-empty
    stack) holds after every push and is kept by [undo] and [redo]; and both
    hold in every state reached from the empty stack of the constructor. *)
Theorem history_push_bounded {A} (x : A) (s : History.stack A)
    (acts : list (action A)) :
  History.history (History.saveToHistory x s) =
    (if (History.len (kept s) + 1 >? History.maxHistory)%Z
     then tail (kept s ++ [x]) else kept s ++ [x])
  /\ ((0 <= History.historyIndex s + 1 <= History.len (History.history s))%Z ->
      kept s = take (Z.to_nat (History.historyIndex s + 1)) (History.history s))
  /\ last (History.history (History.saveToHistory x s)) = Some x
  /\ History.historyIndex (History.saveToHistory x s) =
       (History.len (History.history (History.saveToHistory x s)) - 1)%Z
  /\ (bounded s -> bounded (History.saveToHistory x s))
  /\ cursorOk (History.saveToHistory x s)
  /\ (cursorOk s ->
      cursorOk (fst (History.undo s)) /\ cursorOk (fst (History.redo s)))
  /\ bounded (run acts History.empty) /\ cursorOk (run acts History.empty).
Proof.
  split; [apply saveToHistory_history|].
  split; [apply kept_take|].
  split; [apply saveToHistory_last|].
  split; [apply saveToHistory_index|].
  split; [apply saveToHistory_bounded|].
  split; [apply saveToHistory_cursorOk|].
  split; [intros H; split; [by apply undo_cursorOk|by apply redo_cursorOk]|].
  apply run_preserves. split.
  - unfold bounded, History.maxHistory, History.len. simpl. lia.
  - unfold cursorOk, History.len. simpl. lia.
Qed.

(** A full stack with the cursor on its last entry: the push evicts entry 0
    and the stack keeps its fifty entries. *)
Lemma history_push_bounded_witness :
  let s := History.Stack (seq 0 50) 49 in
  History.history (History.saveToHistory 50 s) = seq 1 50
  /\ kept s = seq 0 50
  /\ bounded (History.saveToHistory 50 s)
  /\ cursorOk (fst (History.undo s)) /\ cursorOk (fst (History.redo s)).
Proof.
  intros s.
  destruct (history_push_bounded 50 s []) as (H1 & H2 & _ & _ & H5 & _ & H7 & _).
  split; [rewrite H1; reflexivity|].
  split; [rewrite H2; [reflexivity|vm_compute; split; discriminate]|].
  split; [apply H5; vm_compute; discriminate|].
  apply H7. intros _. vm_compute. split; [discriminate|reflexivity].
Defined.

(** ** Reasoning about operations *)

Section Keeps.

Import Monad.

Context {S B : Type} (f : S -> B).

Lemma keeps_ret {A} (a : A) : keeps f (ret a).
Proof. by intros st. Qed.

Lemma keeps_gets {A} (g : S -> A) : keeps f (gets g).
Proof. by intros st. Qed.

Lemma keeps_raise {A} : keeps f (@raise S A).
Proof. by intros st. Qed.

Lemma keeps_defined {A} (o : option A) : keeps f (defined o).
Proof. destruct o; [apply keeps_ret|apply keeps_raise]. Qed.

Lemma keeps_modify (g : S -> S) : (forall st, f (g st) = f st) -> keeps f (modify g).
Proof. intros H st. apply H. Qed.

Lemma keeps_bind {A C} (m : M S A) (k : A -> M S C) :
  keeps f m -> (forall a, keeps f (k a)) -> keeps f (bind m k).
Proof.
  intros Hm Hk st. unfold bind. specialize (Hm st).
  destruct (m st) as [a st'|st']; simpl in *; [|done].
  by rewrite Hk.
Qed.

Lemma keeps_try {A} (m h : M S A) : keeps f m -> keeps f h -> keeps f (try m h).
Proof.
  intros Hm Hh st. unfold try. specialize (Hm st).
  destruct (m st) as [a st'|st']; simpl in *; [done|].
  by rewrite Hh.
Qed.

Lemma keeps_forEach {A} (l : list A) (body : A -> M S unit) :
  (forall x, keeps f (body x)) -> keeps f (forEach l body).
Proof.
  intros H. induction l as [|x l IH]; simpl; [apply keeps_ret|].
  apply keeps_bind; [apply H|by intros _].
Qed.

Lemma keeps_collect {A C} (l : list A) (body : list C -> A -> M S (list C))
    (acc : list C) :
  (forall acc x, keeps f (body acc x)) -> keeps f (collect l body acc).
Proof.
  intros H. revert acc. induction l as [|x l IH]; intros acc; simpl;
    [apply keeps_ret|].
  apply keeps_bind; [apply H|apply IH].
Qed.

End Keeps.

(** Breaks an operation into its steps; what is left are the [modify]
    steps that touch the kept part. *)
Ltac keeps_step :=
  first
    [ apply keeps_ret | apply keeps_gets | apply keeps_raise
    | apply keeps_defined
    | apply keeps_bind; [|intros ?]
    | apply keeps_try
    | apply keeps_forEach; intros ?
    | apply keeps_collect; intros ? ?
    | apply keeps_modify; intros ?; reflexivity
    | match goal with
      | |- keeps _ (if ?b then _ else _) => destruct b
      | |- keeps _ (match ?x with _ => _ end) => destruct x
      end ].

Ltac keeps_auto := repeat (cbv zeta; keeps_step).

(** An operation that returns hands its continuation the state it left. *)
Section Returns.

Import Monad.

Context {S : Type}.

Lemma bind_run {A C} (m : M S A) (k : A -> M S C) st a st1 :
  m st = Done a st1 -> bind m k st = k a st1.
Proof. intros H. unfold bind. by rewrite H. Qed.

Lemma returned_done {A} (m : M S A) st :
  returned (m st) = true -> exists a, m st = Done a (final (m st)).
Proof. destruct (m st) as [a st'|st']; simpl; [by exists a|done]. Qed.

Lemma returned_bind {A C} (m : M S A) (k : A -> M S C) st :
  returned (m st) = true ->
  (forall a, returned (k a (final (m st))) = true) ->
  returned (bind m k st) = true.
Proof.
  unfold bind. destruct (m st) as [a st'|st']; simpl; [|done].
  intros _ H. apply H.
Qed.

Lemma final_bind {A C} (m : M S A) (k : A -> M S C) st a st1 :
  m st = Done a st1 -> final (bind m k st) = final (k a st1).
Proof. intros H. by rewrite (bind_run _ _ _ _ _ H). Qed.

Lemma total_ret {A} (a : A) : total (@ret S A a).
Proof. by intros st. Qed.

Lemma total_gets {A} (g : S -> A) : total (gets g).
Proof. by intros st. Qed.

Lemma total_modify (g : S -> S) : total (modify g).
Proof. by intros st. Qed.

Lemma total_bind {A C} (m : M S A) (k : A -> M S C) :
  total m -> (forall a, total (k a)) -> total (bind m k).
Proof. intros Hm Hk st. apply returned_bind; [apply Hm|intros; apply Hk]. Qed.

End Returns.

Ltac total_step :=
  first
    [ apply total_ret | apply total_gets | apply total_modify
    | apply total_bind; [|intros ?]
    | match goal with
      | |- total (if ?b then _ else _) => destruct b
      end ].

Ltac total_auto := repeat (cbv zeta; total_step).

(** *** Dictionaries *)

Section Objects.

Context {A : Type}.

Implicit Types (o : JS.obj A) (k : string).

Lemma get_alter_eq o k (f : A -> A) :
  JS.get k (JS.alter k f o) = f <$> JS.get k o.
Proof.
  induction o as [|[k' v] o IH]; simpl; [done|].
  destruct (String.eqb_spec k k') as [->|Hne]; simpl.
  - by rewrite String.eqb_refl.
  - destruct (String.eqb_spec k k'); [done|]. apply IH.
Qed.

Lemma get_alter_ne o k k' (f : A -> A) :
  k <> k' -> JS.get k' (JS.alter k f o) = JS.get k' o.
Proof.
  intros Hne. induction o as [|[k0 v] o IH]; simpl; [done|].
  destruct (String.eqb_spec k k0) as [->|Hk]; simpl.
  - destruct (String.eqb_spec k' k0); [congruence|done].
  - destruct (String.eqb_spec k' k0); [done|apply IH].
Qed.

Lemma get_set_eq o k (v : A) : JS.get k (JS.set k v o) = Some v.
Proof.
  induction o as [|[k' v'] o IH]; simpl.
  - by rewrite String.eqb_refl.
  - destruct (String.eqb_spec k k') as [->|Hne]; simpl.
    + by rewrite String.eqb_refl.
    + destruct (String.eqb_spec k k'); [done|]. apply IH.
Qed.

Lemma get_set_ne o k k' (v : A) :
  k <> k' -> JS.get k' (JS.set k v o) = JS.get k' o.
Proof.
  intros Hne. induction o as [|[k0 v0] o IH]; simpl.
  - destruct (String.eqb_spec k' k); [congruence|done].
  - destruct (String.eqb_spec k k0) as [->|Hk]; simpl.
    + destruct (String.eqb_spec k' k0); [congruence|done].
    + destruct (String.eqb_spec k' k0); [done|apply IH].
Qed.

Lemma keys_alter o k (f : A -> A) : JS.keys (JS.alter k f o) = JS.keys o.
Proof.
  induction o as [|[k' v] o IH]; simpl; [done|].
  destruct (String.eqb k k'); simpl; [done|]. f_equal. apply IH.
Qed.

Lemma keys_set_present o k (v : A) :
  is_Some (JS.get k o) -> JS.keys (JS.set k v o) = JS.keys o.
Proof.
  induction o as [|[k' v'] o IH]; simpl; [by intros [? ?]|].
  destruct (String.eqb_spec k k') as [->|Hne]; simpl; [done|].
  intros H. f_equal. by apply IH.
Qed.

Lemma get_keys o k : is_Some (JS.get k o) <-> In k (JS.keys o).
Proof.
  induction o as [|[k' v] o IH]; simpl.
  - split; [by intros [? ?]|done].
  - destruct (String.eqb_spec k k') as [->|Hne].
    + split; [by left|by eexists].
    + rewrite IH. split; [by right|]. intros [?|?]; [congruence|done].
Qed.

End Objects.

(** ** The class [CyberStrudel] *)

Section StrudelFacts.

Import Monad Strudel.

Lemma stop_keeps_editor : keeps editor stop.
Proof. keeps_auto. Qed.

Lemma evaluateCode_keeps_editor : keeps editor evaluateCode.
Proof. keeps_auto. Qed.

Lemma mixPatterns_keeps_state : keeps (fun st => st) mixPatterns.
Proof. keeps_auto. Qed.

Lemma updateMixedCode_keeps_data : keeps data updateMixedCode.
Proof. keeps_auto. Qed.

End StrudelFacts.

(** *** Step arrays *)

Lemma store_length_in (arr : list JS.slot) i x :
  i < length arr -> JS.store arr i x = <[i:=x]> arr.
Proof. intros H. unfold JS.store. by case_decide. Qed.


(** The copying loop overwrites the first positions of the fresh array and
    leaves the rest. *)
Lemma copy_loop (current fresh : list JS.slot) (k : nat) :
  k <= length fresh ->
  fold_left (fun arr i => JS.store arr i (JS.load current i)) (seq 0 k) fresh
  = List.map (JS.load current) (seq 0 k) ++ drop k fresh.
Proof.
  induction k as [|k IH]; intros Hk; [done|].
  rewrite seq_S, fold_left_app, IH by lia. simpl.
  rewrite List.map_app. simpl.
  assert (Hlen : length (List.map (JS.load current) (seq 0 k)) = k)
    by (by rewrite length_map, length_seq).
  rewrite store_length_in by (rewrite length_app, length_drop; lia).
  destruct (drop k fresh) as [|y rest] eqn:E.
  { apply (f_equal length) in E. rewrite length_drop in E. simpl in E. lia. }
  rewrite insert_app_r_alt by lia. rewrite Hlen, Nat.sub_diag. simpl.
  rewrite <- app_assoc. simpl. do 2 f_equal.
  replace (S k) with (k + 1) by lia. rewrite <- drop_drop, E. done.
Qed.

Lemma lookup_map_seq {A} (f : nat -> A) (k i : nat) :
  i < k -> List.map f (seq 0 k) !! i = Some (f i).
Proof.
  intros Hi. change (List.map f (seq 0 k)) with (f <$> seq 0 k).
  rewrite list_lookup_fmap, lookup_seq_lt by done. done.
Qed.

Lemma copySteps_resized (arr : list JS.slot) (count : nat) :
  let k := Nat.min (length arr) count in
  Strudel.copySteps (JS.slice0 count arr) count (JS.filled count)
  = List.map (JS.load arr) (seq 0 k) ++ replicate (count - k) (JS.Step false).
Proof.
  intros k. unfold Strudel.copySteps, JS.slice0, JS.filled.
  rewrite length_take.
  replace (Nat.min (count `min` length arr) count) with k by lia.
  rewrite copy_loop by (rewrite length_replicate; lia).
  rewrite drop_replicate. f_equal.
  apply List.map_ext_in. intros i Hi. apply in_seq in Hi.
  unfold JS.load. rewrite lookup_take. case_decide; [done|lia].
Qed.

Lemma collect_run {S A C} (l : list A)
    (body : list C -> A -> Monad.M S (list C)) (g : A -> list C) (st : S) :
  (forall acc x, In x l -> body acc x st = Monad.Done (acc ++ g x) st) ->
  forall acc,
    Monad.collect l body acc st = Monad.Done (acc ++ flat_map g l) st.
Proof.
  induction l as [|x l IH]; intros H acc; simpl.
  - by rewrite app_nil_r.
  - rewrite (bind_run _ _ _ _ _ (H acc x (or_introl eq_refl))).
    rewrite IH by (intros; apply H; by right).
    by rewrite <- app_assoc.
Qed.

(** *** The mixer of [CyberStrudel] *)

Section StrudelMix.

Import Monad Strudel.

Lemma configured_get st track :
  configured st = true -> In track (getTracks st) ->
  exists c arr, JS.get track (trackStates st) = Some c
                /\ JS.get track (sequencerState st) = Some arr.
Proof.
  unfold configured. rewrite forallb_forall. intros Hc Hin.
  specialize (Hc _ Hin). destruct (JS.get track (trackStates st)) as [c|]; [|done].
  apply get_keys in Hin as [arr Harr]. by exists c, arr.
Qed.

Lemma config_run st track c :
  JS.get track (trackStates st) = Some c -> config track st = Done c st.
Proof. intros H. unfold config, bind, gets, defined. simpl. by rewrite H. Qed.

Lemma grid_run st track arr :
  JS.get track (sequencerState st) = Some arr -> grid track st = Done arr st.
Proof. intros H. unfold grid, bind, gets, defined. simpl. by rewrite H. Qed.

Lemma trackPattern_run st acc track :
  configured st = true -> In track (getTracks st) ->
  trackPattern acc track st = Done (acc ++ trackPart st track) st.
Proof.
  intros Hc Hin. destruct (configured_get _ _ Hc Hin) as (c & arr & H1 & H2).
  unfold trackPattern, trackPart. rewrite H1, H2.
  unfold bind at 1. unfold gets at 1.
  destruct (JS.flag track (tracks (mixedPatterns st))).
  - unfold bind at 1. unfold gets at 1.
    rewrite (bind_run _ _ _ _ _ (config_run _ _ _ H1)).
    destruct (silenced (trackStates st) c).
    + by rewrite app_nil_r.
    + rewrite (bind_run _ _ _ _ _ (grid_run _ _ _ H2)). cbv zeta.
      destruct (JS.includes _ _); [done|by rewrite app_nil_r].
  - by rewrite app_nil_r.
Qed.

Lemma presetPattern_run st acc key :
  presetPattern acc key st = Done (acc ++ presetPart st key) st.
Proof.
  unfold presetPattern, presetPart, bind, gets.
  destruct (JS.flag key _); [done|by rewrite app_nil_r].
Qed.

Lemma savedPattern_run st acc name :
  savedPattern acc name st = Done (acc ++ savedPart st name) st.
Proof.
  unfold savedPattern, savedPart, bind, gets.
  destruct (JS.flag name _); [|by rewrite app_nil_r].
  cbv zeta. destruct (_ && _); [done|by rewrite app_nil_r].
Qed.

Lemma mixPatterns_run st :
  configured st = true -> mixPatterns st = Done (patternsOf st) st.
Proof.
  intros Hc. unfold mixPatterns, patternsOf.
  unfold bind at 1. unfold gets at 1.
  rewrite (bind_run _ _ _ _ _
             (collect_run _ _ (trackPart st) st
                (fun acc x Hin => trackPattern_run st acc x Hc Hin) [])).
  unfold bind at 1. unfold gets at 1.
  rewrite (bind_run _ _ _ _ _
             (collect_run _ _ (presetPart st) st
                (fun acc x _ => presetPattern_run st acc x) _)).
  unfold bind at 1. unfold gets at 1.
  rewrite (collect_run _ _ (savedPart st) st
             (fun acc x _ => savedPattern_run st acc x)).
  by rewrite app_assoc.
Qed.

Lemma stop_total : total stop.
Proof. total_auto. Qed.

Lemma evaluateCode_total : total evaluateCode.
Proof. total_auto. Qed.

Lemma updateMixedCode_unfold st :
  configured st = true ->
  updateMixedCode st =
  (let newCode :=
     withTempo (synthParams st) (patternsOf st) (combine (patternsOf st)) in
   if JS.truthy newCode && isPlaying st then evaluateCode
   else if negb (JS.truthy newCode)
        then let* _ := stop in showNotification NoActivePatterns error
        else ret tt) (setEditor (mixedText st) st).
Proof.
  intros Hc. unfold updateMixedCode.
  by rewrite (bind_run _ _ _ _ _ (mixPatterns_run _ Hc)).
Qed.

Lemma updateMixedCode_run st :
  configured st = true ->
  returned (updateMixedCode st) = true
  /\ editor (final (updateMixedCode st)) = mixedText st.
Proof.
  intros Hc. rewrite (updateMixedCode_unfold _ Hc). cbv zeta.
  set (st1 := setEditor _ st).
  assert (He : editor st1 = mixedText st) by done.
  clearbody st1.
  destruct (_ && _).
  - split; [apply evaluateCode_total|].
    by rewrite evaluateCode_keeps_editor.
  - destruct (negb _); [|done].
    split.
    + apply returned_bind; [apply stop_total|done].
    + destruct (returned_done _ _ (stop_total st1)) as [[] Hs].
      rewrite (final_bind _ _ _ _ _ Hs). simpl.
      by rewrite stop_keeps_editor.
Qed.

End StrudelMix.

(** *** Editing tracks in [CyberStrudel] *)

Section StrudelTracks.

Import Monad Strudel.

Lemma updateSequencerUI_run st track c :
  JS.get track (trackStates st) = Some c ->
  updateSequencerUI track st = Done tt st.
Proof.
  intros H. unfold updateSequencerUI.
  by rewrite (bind_run _ _ _ _ _ (config_run _ _ _ H)).
Qed.

Lemma updateSequencerTrack_run st track c :
  JS.get track (trackStates st) = Some c ->
  updateSequencerTrack track st = Done tt st.
Proof.
  intros H. unfold updateSequencerTrack.
  rewrite (bind_run _ _ _ _ _ (config_run _ _ _ H)).
  by apply updateSequencerUI_run with c.
Qed.

Lemma redraw_run st :
  configured st = true ->
  forEach (getTracks st) updateSequencerUI st = Done tt st.
Proof.
  intros Hc.
  assert (H : forall t, In t (getTracks st) ->
                        updateSequencerUI t st = Done tt st).
  { intros t Ht. destruct (configured_get _ _ Hc Ht) as (c & _ & H & _).
    by apply updateSequencerUI_run with c. }
  revert H. generalize (getTracks st). intros l.
  induction l as [|t l IH]; intros H; simpl; [done|].
  rewrite (bind_run _ _ _ _ _ (H t (or_introl eq_refl))).
  apply IH. intros; apply H; by right.
Qed.

(** Once the tracks are edited, an operation refreshes the mixed code when
    it has to and goes on with steps that cannot raise. *)
Lemma refresh_returns (b : bool) (k : M state unit) st :
  configured st = true -> total k ->
  returned ((let* _ := (if b then updateMixedCode else ret tt) in k) st) = true.
Proof.
  intros Hc Hk. apply returned_bind; [|intros; apply Hk].
  destruct b; [|done]. by apply updateMixedCode_run.
Qed.

Lemma changeStepCount_unfold st track c arr count :
  JS.get track (trackStates st) = Some c ->
  JS.get track (sequencerState st) = Some arr ->
  changeStepCount track count st =
  afterResize track count (resized track count arr st).
Proof.
  intros Hc Ha. unfold changeStepCount.
  rewrite (bind_run _ _ _ _ _ (config_run _ _ _ Hc)).
  unfold bind at 1. unfold modify at 1.
  rewrite (bind_run _ _ _ arr (setTrackStates _ st)) by (by apply grid_run).
  reflexivity.
Qed.

Lemma afterResize_keeps_data track count : keeps data (afterResize track count).
Proof. keeps_auto. Qed.

Lemma configured_resized st track c arr count :
  JS.get track (trackStates st) = Some c ->
  JS.get track (sequencerState st) = Some arr ->
  configured (resized track count arr st) = configured st.
Proof.
  intros Hc Ha. unfold configured, resized, getTracks. simpl.
  rewrite keys_set_present by (by eexists).
  induction (JS.keys (sequencerState st)) as [|t l IH]; simpl; [done|].
  rewrite IH. f_equal.
  destruct (String.eqb_spec track t) as [<-|Hne].
  - by rewrite get_alter_eq, Hc.
  - by rewrite get_alter_ne.
Qed.

End StrudelTracks.

(** C5.  [changeStepCount(track, count)] on a track whose array has [old]
    entries leaves an array of [count] entries: below [min old count] every
    entry reads as it did before (a boolean stays that boolean), from there
    on every entry is [false]; and [trackStates[track].steps] is [count], so
    the array is as long as the step count says.  This holds for every
    [old] and [count], in particular for those in 4, 8, 16.  The call
    returns when every track has its configuration. *)
Theorem changeStepCount_resizes (st : Strudel.state) (track : string)
    (c : trackState) (arr : list JS.slot) (count : nat) :
  JS.get track (Strudel.trackStates st) = Some c ->
  JS.get track (Strudel.sequencerState st) = Some arr ->
  let old := length arr in
  let st' := Monad.final (Strudel.changeStepCount track count st) in
  exists arr' c',
    JS.get track (Strudel.sequencerState st') = Some arr'
    /\ JS.get track (Strudel.trackStates st') = Some c'
    /\ length arr' = count
    /\ steps c' = count
    /\ (forall i, i < Nat.min old count -> arr' !! i = Some (JS.load arr i))
    /\ (forall i b, i < Nat.min old count ->
          arr !! i = Some (JS.Step b) -> arr' !! i = Some (JS.Step b))
    /\ (forall i, Nat.min old count <= i < count ->
          arr' !! i = Some (JS.Step false))
    /\ (configured st = true ->
        Monad.returned (Strudel.changeStepCount track count st) = true).
Proof.
  intros Hc Ha old st'.
  pose proof (changeStepCount_unfold st track c arr count Hc Ha) as Hun.
  set (st2 := resized track count arr st) in *.
  assert (Hdata : data st' = data st2).
  { subst st'. rewrite Hun. apply afterResize_keeps_data. }
  assert (Hss : Strudel.sequencerState st' = Strudel.sequencerState st2)
    by (unfold data in Hdata; congruence).
  assert (Hts : Strudel.trackStates st' = Strudel.trackStates st2)
    by (unfold data in Hdata; congruence).
  pose proof (copySteps_resized arr count) as Hcopy. cbv zeta in Hcopy.
  fold old in Hcopy.
  exists (Strudel.copySteps (JS.slice0 count arr) count (JS.filled count)),
    (setSteps count c).
  assert (Hlook : forall i, i < Nat.min old count ->
            Strudel.copySteps (JS.slice0 count arr) count (JS.filled count)
              !! i = Some (JS.load arr i)).
  { intros i Hi. rewrite Hcopy.
    rewrite lookup_app_l by (rewrite length_map, length_seq; lia).
    by apply lookup_map_seq. }
  split; [rewrite Hss; subst st2; unfold resized; simpl; apply get_set_eq|].
  split; [rewrite Hts; subst st2; unfold resized; simpl;
          by rewrite get_alter_eq, Hc|].
  split; [rewrite Hcopy, length_app, length_map, length_seq, length_replicate;
          lia|].
  split; [done|].
  split; [exact Hlook|].
  split.
  { intros i b Hi Hb. rewrite Hlook by done. unfold JS.load. by rewrite Hb. }
  split.
  { intros i Hi. rewrite Hcopy.
    rewrite lookup_app_r by (rewrite length_map, length_seq; lia).
    rewrite length_map, length_seq.
    apply lookup_replicate. split; [done|lia]. }
  intros Hcfg. rewrite Hun. unfold afterResize.
  assert (Hcfg2 : configured st2 = true)
    by (subst st2; by rewrite (configured_resized _ _ c)).
  assert (Hc2 : JS.get track (Strudel.trackStates st2) = Some (setSteps count c))
    by (subst st2; unfold resized; simpl; by rewrite get_alter_eq, Hc).
  rewrite (bind_run _ _ _ _ _ (updateSequencerTrack_run _ _ _ Hc2)).
  unfold Monad.bind at 1. unfold Monad.gets at 1.
  apply refresh_returns; [done|]. total_auto.
Qed.

(** The kick track of the constructor with steps 0 and 5 set, taken from 8
    steps to 4. *)
Lemma changeStepCount_resizes_witness :
  let arr := [JS.Step true; JS.Step false; JS.Step false; JS.Step false;
              JS.Step false; JS.Step true; JS.Step false; JS.Step false] in
  let st := Strudel.setSequencerState
              (JS.set "bd" arr (Strudel.sequencerState Strudel.initial))
              Strudel.initial in
  let st' := Monad.final (Strudel.changeStepCount "bd" 4 st) in
  exists arr' c',
    JS.get "bd" (Strudel.sequencerState st') = Some arr'
    /\ JS.get "bd" (Strudel.trackStates st') = Some c'
    /\ length arr' = 4 /\ steps c' = 4
    /\ arr' !! 0 = Some (JS.Step true)
    /\ Monad.returned (Strudel.changeStepCount "bd" 4 st) = true.
Proof.
  intros arr st st'.
  destruct (changeStepCount_resizes st "bd" (TrackState false false 8 "bd")
              arr 4 eq_refl eq_refl)
    as (arr' & c' & H1 & H2 & H3 & H4 & _ & H6 & _ & H8).
  exists arr', c'.
  split; [exact H1|]. split; [exact H2|]. split; [exact H3|].
  split; [exact H4|].
  split; [apply H6; [simpl; lia|reflexivity]|].
  apply H8. reflexivity.
Defined.

(** *** [toggleStep] *)


Section StrudelToggle.

Import Monad Strudel.

Lemma toggleStep_unfold st track arr index :
  JS.get track (sequencerState st) = Some arr ->
  toggleStep track index st = afterToggle track (toggled track index arr st).
Proof.
  intros Ha. unfold toggleStep.
  unfold bind at 1. unfold saveToHistory at 1. unfold modify at 1.
  rewrite (bind_run _ _ _ arr (setHist _ st)) by (by apply grid_run).
  reflexivity.
Qed.

Lemma afterToggle_keeps_data track : keeps data (afterToggle track).
Proof. keeps_auto. Qed.

Lemma toggleStep_grid st track arr index :
  JS.get track (sequencerState st) = Some arr ->
  sequencerState (final (toggleStep track index st)) =
  JS.set track (JS.store arr index (JS.Step (negb (JS.activeAt arr index))))
    (sequencerState st).
Proof.
  intros Ha. rewrite (toggleStep_unfold _ _ _ _ Ha).
  pose proof (afterToggle_keeps_data track (toggled track index arr st)) as H.
  unfold data in H. injection H as H _ _ _ _ _. by rewrite H.
Qed.


End StrudelToggle.

Section MidiToggle.

Import Monad Midi.

Lemma midi_grid_run st track arr :
  JS.get track (sequencerState st) = Some arr -> grid track st = Done arr st.
Proof. intros H. unfold grid, bind, gets, defined. simpl. by rewrite H. Qed.

Lemma midi_config_run st track c :
  JS.get track (trackStates st) = Some c -> config track st = Done c st.
Proof. intros H. unfold config, bind, gets, defined. simpl. by rewrite H. Qed.

Lemma midi_appendAll_keeps {A B} (f : state -> B) (l : list A)
    (body : string -> A -> M state string) code :
  (forall code x, keeps f (body code x)) -> keeps f (appendAll l body code).
Proof.
  intros H. revert code. induction l as [|x l IH]; intros code; simpl;
    [apply keeps_ret|].
  apply keeps_bind; [apply H|apply IH].
Qed.

Lemma midi_updateMixedCode_keeps_tracks :
  keeps (fun st => (sequencerState st, trackStates st, savedPatterns st))
    updateMixedCode.
Proof.
  unfold updateMixedCode.
  apply keeps_bind; [apply keeps_gets|intros chosen].
  apply keeps_bind; [apply midi_appendAll_keeps; intros; keeps_auto|intros c1].
  apply keeps_bind; [apply keeps_gets|intros names].
  apply keeps_bind; [apply midi_appendAll_keeps; intros; keeps_auto|intros c2].
  keeps_auto.
Qed.


End MidiToggle.





(** *** Mute and solo *)



Section SoloFacts.

Import Strudel.

Lemma get_soloOnly track w (ts : JS.obj trackState) t :
  JS.get t (List.map (soloOnly track w) ts)
  = (fun c => snd (soloOnly track w (t, c))) <$> JS.get t ts.
Proof.
  induction ts as [|[t' c] ts IH]; simpl; [done|].
  destruct (String.eqb_spec t t') as [->|Hne]; [done|apply IH].
Qed.




End SoloFacts.

Section StrudelSolo.

Import Monad Strudel.

Lemma toggleSolo_unfold st track c :
  JS.get track (trackStates st) = Some c ->
  toggleSolo track st =
  afterSolo track (solo c)
    (setTrackStates (List.map (soloOnly track (solo c)) (trackStates st)) st).
Proof.
  intros Hc. unfold toggleSolo.
  by rewrite (bind_run _ _ _ _ _ (config_run _ _ _ Hc)).
Qed.

Lemma afterSolo_keeps_data track w : keeps data (afterSolo track w).
Proof. keeps_auto. Qed.

Lemma toggleSolo_trackStates st track c :
  JS.get track (trackStates st) = Some c ->
  trackStates (final (toggleSolo track st))
  = List.map (soloOnly track (solo c)) (trackStates st).
Proof.
  intros Hc. rewrite (toggleSolo_unfold _ _ _ Hc).
  pose proof (afterSolo_keeps_data track (solo c)
                (setTrackStates (List.map (soloOnly track (solo c))
                                   (trackStates st)) st)) as H.
  unfold data in H. injection H as _ H _ _ _ _. by rewrite H.
Qed.


Lemma toggleMute_unfold st track c :
  JS.get track (trackStates st) = Some c ->
  toggleMute track st =
  afterMute track (setTrackStates (muteToggled track c (trackStates st)) st).
Proof.
  intros Hc. unfold toggleMute.
  by rewrite (bind_run _ _ _ _ _ (config_run _ _ _ Hc)).
Qed.

Lemma afterMute_keeps_data track : keeps data (afterMute track).
Proof. keeps_auto. Qed.

Lemma toggleMute_trackStates st track c :
  JS.get track (trackStates st) = Some c ->
  trackStates (final (toggleMute track st))
  = muteToggled track c (trackStates st).
Proof.
  intros Hc. rewrite (toggleMute_unfold _ _ _ Hc).
  pose proof (afterMute_keeps_data track
                (setTrackStates (muteToggled track c (trackStates st)) st))
    as H.
  unfold data in H. injection H as _ H _ _ _ _. by rewrite H.
Qed.

Lemma get_muteToggled_eq track c (ts : JS.obj trackState) :
  JS.get track ts = Some c ->
  JS.get track (muteToggled track c ts)
  = Some (setSolo false (setMuted (negb (muted c)) c)).
Proof.
  intros Hc. unfold muteToggled. by rewrite !get_alter_eq, Hc.
Qed.

Lemma get_muteToggled_ne track c (ts : JS.obj trackState) t :
  t <> track -> JS.get t (muteToggled track c ts) = JS.get t ts.
Proof.
  intros Hne. unfold muteToggled. by rewrite !get_alter_ne.
Qed.


End StrudelSolo.

Section SoloInvariant.

Import Monad Strudel.






End SoloInvariant.



(** *** Solo in [CyberMidi] *)

Section MidiSolo.

Import Monad Midi.

Lemma midi_toggleSolo_trackStates m track c :
  JS.get track (trackStates m) = Some c ->
  trackStates (final (toggleSolo track m))
  = JS.alter track (setSolo (negb (solo c))) (trackStates m).
Proof.
  intros Hc. unfold toggleSolo.
  rewrite (bind_run _ _ _ _ _ (midi_config_run _ _ _ Hc)).
  unfold bind at 1. unfold modify at 1.
  set (m1 := setTrackStates _ m).
  assert (K : keeps (fun st => (sequencerState st, trackStates st,
                                savedPatterns st))
            (let* ids := gets getTracks in
             let* _ := forEach ids updateSequencerUI in
             let* mixed := gets (fun st =>
                 JS.flag track (tracks (mixedPatterns st))) in
             let* _ := (if mixed then updateMixedCode else ret tt) in
             saveToLocalStorage)).
  { apply keeps_bind; [keeps_auto|intros ids].
    apply keeps_bind; [keeps_auto|intros _].
    apply keeps_bind; [keeps_auto|intros mixed].
    apply keeps_bind; [|intros _; keeps_auto].
    destruct mixed; [apply midi_updateMixedCode_keeps_tracks|apply keeps_ret]. }
  specialize (K m1). injection K as _ K _. by rewrite K.
Qed.

End MidiSolo.

(** C3, as the code has it.  In [CyberMidi], [toggleSolo(track)] negates the
    solo flag of [track] and leaves every other track as it was; so a track
    that was soloed stays soloed when another one is soloed too, and every
    soloed track is enabled under the solo rule of the display.  In
    [CyberStrudel], [toggleSolo(track)] clears the solo flag, and the muted
    flag, of every other track. *)
Theorem solo_and_the_other_tracks (m : Midi.state) (st : Strudel.state)
    (track : string) :
  (forall c, JS.get track (Midi.trackStates m) = Some c ->
     let ts := Midi.trackStates m in
     let ts' := Midi.trackStates (Monad.final (Midi.toggleSolo track m)) in
     JS.get track ts' = Some (setSolo (negb (solo c)) c)
     /\ (forall t, t <> track -> JS.get t ts' = JS.get t ts)
     /\ JS.keys ts' = JS.keys ts
     /\ (forall t c0, t <> track -> JS.get t ts = Some c0 ->
           solo c0 = true -> solo c = false ->
           (solo <$> JS.get t ts') = Some true
           /\ (solo <$> JS.get track ts') = Some true)
     /\ (forall t c', JS.get t ts' = Some c' -> solo c' = true ->
           isEnabled ts' c' = true))
  /\ (forall c, JS.get track (Strudel.trackStates st) = Some c ->
        let ts := Strudel.trackStates st in
        let ts' := Strudel.trackStates
                     (Monad.final (Strudel.toggleSolo track st)) in
        forall t c0, t <> track -> JS.get t ts = Some c0 ->
          JS.get t ts' = Some (setMuted false (setSolo false c0))).
Proof.
  split.
  - intros c Hc ts ts'. subst ts ts'.
    rewrite (midi_toggleSolo_trackStates _ _ _ Hc).
    assert (H1 : JS.get track
                   (JS.alter track (setSolo (negb (solo c)))
                      (Midi.trackStates m))
                 = Some (setSolo (negb (solo c)) c))
      by (by rewrite get_alter_eq, Hc).
    assert (H2 : forall t, t <> track ->
               JS.get t (JS.alter track (setSolo (negb (solo c)))
                           (Midi.trackStates m))
               = JS.get t (Midi.trackStates m))
      by (intros t Ht; by apply get_alter_ne).
    split; [exact H1|]. split; [exact H2|]. split; [apply keys_alter|].
    split.
    + intros t c0 Ht H0 Hs0 Hs. rewrite H1, (H2 t Ht), H0. simpl.
      by rewrite Hs0, Hs.
    + intros t c' _ Hs. unfold isEnabled. rewrite Hs. apply orb_true_r.
  - intros c Hc ts ts' t c0 Ht H0. subst ts ts'.
    rewrite (toggleSolo_trackStates _ _ _ Hc), get_soloOnly, H0. simpl.
    unfold Strudel.soloOnly. simpl.
    by destruct (String.eqb_spec t track).
Qed.

(** Two note tracks of [CyberMidi], the first one soloed: soloing the second
    leaves both soloed.  Two tracks of [CyberStrudel], the kick soloed:
    soloing the snare leaves the kick not soloed. *)
Lemma solo_and_the_other_tracks_witness :
  let m := Midi.setTrackStates
             [("note", TrackState false true 8 "C4");
              ("note2", TrackState false false 8 "C4")] Midi.initial in
  let st := Strudel.setTrackStates
              [("bd", TrackState false true 8 "bd");
               ("sd", TrackState false false 8 "sd")] Strudel.initial in
  let ts' := Midi.trackStates (Monad.final (Midi.toggleSolo "note2" m)) in
  let us' := Strudel.trackStates (Monad.final (Strudel.toggleSolo "sd" st)) in
  (solo <$> JS.get "note" ts') = Some true
  /\ (solo <$> JS.get "note2" ts') = Some true
  /\ JS.get "bd" us' = Some (TrackState false false 8 "bd").
Proof.
  intros m st ts' us'.
  destruct (solo_and_the_other_tracks m st "note2") as [H _].
  destruct (solo_and_the_other_tracks m st "sd") as [_ H'].
  destruct (H (TrackState false false 8 "C4") eq_refl) as (_ & _ & _ & H4 & _).
  destruct (H4 "note" (TrackState false true 8 "C4"))
    as [Ha Hb]; [discriminate|reflexivity|reflexivity|reflexivity|].
  split; [exact Ha|]. split; [exact Hb|].
  apply (H' (TrackState false false 8 "sd") eq_refl "bd"
            (TrackState false true 8 "bd")); [discriminate|reflexivity].
Defined.

(** C3 as stated fails on [CyberStrudel]: with the kick soloed, soloing the
    snare clears the kick's solo flag. *)
Lemma strudel_solo_clears_others :
  let st := Monad.final (Strudel.toggleSolo "bd" Strudel.initial) in
  let st' := Monad.final (Strudel.toggleSolo "sd" st) in
  (solo <$> JS.get "bd" (Strudel.trackStates st)) = Some true
  /\ Monad.returned (Strudel.toggleSolo "sd" st) = true
  /\ (solo <$> JS.get "bd" (Strudel.trackStates st')) = Some false
  /\ (solo <$> JS.get "bd" (Strudel.trackStates st'))
     <> (solo <$> JS.get "bd" (Strudel.trackStates st)).
Proof.
  repeat split; try reflexivity. vm_compute. discriminate.
Qed.

(** ** The pattern bank *)

Lemma mapGet_mapSet (k v : JS.value) (m : JS.Map) :
  JS.same k k = true -> JS.mapGet k (JS.mapSet k v m) = v.
Proof.
  intros Hk. induction m as [|[k' v'] m IH]; simpl.
  - by rewrite Hk.
  - destruct (JS.same k k') eqn:E; simpl; by rewrite ?E.
Qed.

Lemma length_mapSet_present (k v : JS.value) (m : JS.Map) :
  JS.mapHas k m = true -> length (JS.mapSet k v m) = length m.
Proof.
  induction m as [|[k' v'] m IH]; simpl; [done|].
  destruct (JS.same k k'); simpl; [done|]. intros H. by rewrite IH.
Qed.

Lemma same_Str (s : string) : JS.same (JS.Str s) (JS.Str s) = true.
Proof. simpl. apply String.eqb_refl. Qed.

(** C4 on the code.  A second save under a name that is already in the bank:
    [CyberStrudel.savePattern] does not look the name up, it stores the new
    record in place of the old one and announces a successful save;
    [CyberMidi.savePattern] checks [has(name)], reports that the pattern
    exists and changes nothing else. *)
Theorem savePattern_duplicate (st : Strudel.state) (m : Midi.state)
    (input : string) :
  let name := JS.trim input in
  name <> "" ->
  (JS.mapHas (JS.Str name) (Strudel.savedPatterns st) = true ->
   JS.trim (Strudel.editor st) <> "" ->
   let record := Strudel.savedRecord (JS.trim (Strudel.editor st)) st in
   let st' := Monad.final (Strudel.savePattern input st) in
   Monad.returned (Strudel.savePattern input st) = true
   /\ Strudel.savedPatterns st'
      = JS.mapSet (JS.Str name) record (Strudel.savedPatterns st)
   /\ JS.mapGet (JS.Str name) (Strudel.savedPatterns st') = record
   /\ length (Strudel.savedPatterns st') = length (Strudel.savedPatterns st)
   /\ Strudel.log st'
      = Strudel.log st
        ++ [Persist; Notify (Strudel.PatternSaved name) success])
  /\ (JS.mapHas (JS.Str name) (Midi.savedPatterns m) = true ->
      Midi.savePattern input m
      = Monad.Done tt
          (Midi.setLog
             (Midi.log m ++ [Notify (Midi.AlreadyExists name) error]) m)).
Proof.
  intros name Hname.
  assert (En : String.eqb name "" = false) by (by apply String.eqb_neq).
  split.
  - intros Hhas Hcode record st'.
    assert (Ec : String.eqb (JS.trim (Strudel.editor st)) "" = false)
      by (by apply String.eqb_neq).
    assert (E : Strudel.savePattern input st
                = Monad.Done tt
                    (Strudel.setLog
                       (Strudel.log st
                        ++ [Persist; Notify (Strudel.PatternSaved name) success])
                       (Strudel.setSavedPatterns
                          (JS.mapSet (JS.Str name) record
                             (Strudel.savedPatterns st)) st))).
    { unfold Strudel.savePattern. fold name. rewrite En.
      unfold Monad.bind, Monad.gets. rewrite Ec. simpl.
      unfold Strudel.showNotification, Monad.modify, Strudel.setLog. simpl.
      by rewrite <- app_assoc. }
    subst st'. rewrite E. simpl.
    split; [done|]. split; [done|].
    split; [apply mapGet_mapSet, same_Str|].
    split; [by apply length_mapSet_present|done].
  - intros Hhas. unfold Midi.savePattern. fold name. rewrite En.
    unfold Monad.bind, Monad.gets. by rewrite Hhas.
Qed.

(** The bank holds X; the editor holds another pattern; the name field
    holds X again.  [CyberStrudel] replaces the record of X. *)
Lemma savePattern_duplicate_witness :
  let old := JS.Obj [("code", JS.Str "s('bd*4')")] in
  let st := Strudel.setEditor "s('hh*8')"
              (Strudel.setSavedPatterns [(JS.Str "X", old)] Strudel.initial) in
  let st' := Monad.final (Strudel.savePattern "X" st) in
  JS.mapGet (JS.Str "X") (Strudel.savedPatterns st) = old
  /\ JS.field "code" (JS.mapGet (JS.Str "X") (Strudel.savedPatterns st'))
     = JS.Str "s('hh*8')"
  /\ Strudel.log st' = [Persist; Notify (Strudel.PatternSaved "X") success].
Proof.
  intros old st st'.
  destruct (savePattern_duplicate st Midi.initial "X" ltac:(discriminate))
    as [H _].
  destruct (H eq_refl ltac:(discriminate)) as (_ & _ & H3 & _ & H5).
  split; [reflexivity|].
  split; [exact (f_equal (JS.field "code") H3)|exact H5].
Defined.

(** *** Import *)

Lemma newMap_Arr items : JS.newMap (JS.Arr items) = addEntries items (Some []).
Proof. reflexivity. Qed.

Lemma mapSet_absent (k v : JS.value) (m : JS.Map) :
  JS.mapHas k m = false -> JS.mapSet k v m = m ++ [(k, v)].
Proof.
  induction m as [|[k' v'] m IH]; simpl; [done|].
  destruct (JS.same k k'); simpl; [done|]. intros H. by rewrite IH.
Qed.

Lemma mapHas_bankOf (n : string) (l : list (string * JS.value)) :
  ~ In n (List.map fst l) -> JS.mapHas (JS.Str n) (bankOf l) = false.
Proof.
  induction l as [|[n' r] l IH]; simpl; [done|]. intros H.
  rewrite IH by tauto.
  destruct (String.eqb_spec n n') as [->|]; [tauto|done].
Qed.

Lemma addEntries_pairs (l done_ : list (string * JS.value)) :
  NoDup (List.map fst (done_ ++ l)) ->
  addEntries (List.map pairJSON l) (Some (bankOf done_))
  = Some (bankOf (done_ ++ l)).
Proof.
  revert done_. induction l as [|[n r] l IH]; intros done_ Hnd; simpl.
  - by rewrite app_nil_r.
  - rewrite mapSet_absent.
    + change (bankOf done_ ++ [(JS.Str n, r)]) with
        (bankOf done_ ++ bankOf [(n, r)]).
      unfold bankOf at 1 2. rewrite <- List.map_app. fold (bankOf (done_ ++ [(n, r)])).
      unfold addEntries in IH. rewrite IH.
      * by rewrite <- app_assoc.
      * by rewrite <- app_assoc.
    + apply mapHas_bankOf. rewrite List.map_app in Hnd.
      apply NoDup_app in Hnd as (_ & Hdis & _). intros Hin.
      apply (Hdis n); [by rewrite list_elem_of_In|]. simpl. left.
Qed.

Lemma addEntries_objects items m :
  forallb JS.isObject items = true -> is_Some (addEntries items (Some m)).
Proof.
  revert m. induction items as [|e items IH]; intros m; simpl; [by eexists|].
  intros H. apply andb_prop in H as [He H]. rewrite He. by apply IH.
Qed.

Section StrudelImport.

Import Monad Strudel.

Lemma importData_unfold st data m :
  JS.newMap data = Some m ->
  importData (Parsed data) st = afterImport (imported m st).
Proof.
  intros H. unfold importData, bind at 1 2, ret, defined. by rewrite H.
Qed.

Lemma importData_rejects st text :
  text = SyntaxError \/ (exists data, text = Parsed data /\ JS.newMap data = None) ->
  importData text st = Raised st.
Proof.
  intros [->|(data & -> & H)]; [done|].
  unfold importData, bind at 1 2, ret, defined. by rewrite H.
Qed.

Lemma afterImport_run st :
  configured st = true ->
  exists st2,
    data st2 = data st
    /\ afterImport st
       = Done tt
           (setLog
              (log st2 ++ [Persist; Notify PatternsImported success])
              (setHist (History.saveToHistory (snapshot st2) (hist st2)) st2)).
Proof.
  intros Hc. destruct (updateMixedCode_run _ Hc) as [Hr _].
  destruct (returned_done _ _ Hr) as [[] Hu].
  exists (final (updateMixedCode st)).
  split; [apply updateMixedCode_keeps_data|].
  unfold afterImport. rewrite (bind_run _ _ _ _ _ Hu).
  unfold bind, saveToHistory, saveToLocalStorage, showNotification, emit, modify.
  simpl. unfold setLog. simpl. by rewrite <- app_assoc.
Qed.

End StrudelImport.

(** C8 on the code.  [importPatterns] tells a bad file by an exception
    only: when [JSON.parse] or the [Map] constructor throws, the handler
    reports an invalid file and the bank and the mix selection are as
    before.  Whatever the constructor accepts replaces the bank wholesale and
    empties the "saved" selection, with a success message.  A list of
    [[name, record]] pairs is accepted, entry for entry when the names
    differ; but so is [null], which is no such list and yields the empty
    bank. *)
Theorem importPatterns_replaces (st : Strudel.state) (text : Strudel.parsed) :
  ((text = Strudel.SyntaxError
    \/ (exists data, text = Strudel.Parsed data /\ JS.newMap data = None)) ->
   Strudel.importPatterns (Some text) st
   = Monad.Done tt
       (Strudel.setLog
          (Strudel.log st ++ [Notify Strudel.InvalidPatternFile error]) st))
  /\ (forall data m,
        text = Strudel.Parsed data -> JS.newMap data = Some m ->
        configured st = true ->
        let st' := Monad.final (Strudel.importPatterns (Some text) st) in
        Monad.returned (Strudel.importPatterns (Some text) st) = true
        /\ Strudel.savedPatterns st' = m
        /\ Strudel.mixedPatterns st'
           = Strudel.Mix (Strudel.presets (Strudel.mixedPatterns st))
               (Strudel.tracks (Strudel.mixedPatterns st)) []
        /\ last (Strudel.log st')
           = Some (Notify Strudel.PatternsImported success))
  /\ (forall l, NoDup (List.map fst l) ->
        JS.newMap (JS.Arr (List.map pairJSON l)) = Some (bankOf l))
  /\ (forall data, wellFormed data = true -> is_Some (JS.newMap data))
  /\ wellFormed JS.Null = false
  /\ JS.newMap JS.Null = Some [].
Proof.
  split.
  { intros H. unfold Strudel.importPatterns, Monad.try.
    by rewrite (importData_rejects _ _ H). }
  split.
  { intros d m -> Hm Hc st'. subst st'.
    unfold Strudel.importPatterns, Monad.try.
    rewrite (importData_unfold _ _ _ Hm).
    destruct (afterImport_run (imported m st)) as (st2 & Hd & ->); [done|].
    simpl. unfold data in Hd.
    injection Hd as _ _ _ Hmix Hsaved _.
    split; [done|]. split; [by rewrite Hsaved|]. split; [by rewrite Hmix|].
    change (last (Strudel.log st2
                  ++ [Persist]
                  ++ [Notify Strudel.PatternsImported success])
            = Some (Notify Strudel.PatternsImported success)).
    rewrite app_assoc. apply last_snoc. }
  split.
  { intros l Hnd. rewrite newMap_Arr.
    apply (addEntries_pairs l []). done. }
  split.
  { intros [] H; try done. rewrite newMap_Arr. apply addEntries_objects.
    simpl in H. clear -H. induction items as [|e items IH]; [done|].
    simpl in *. apply andb_prop in H as [He H]. rewrite IH by done.
    destruct e; try done. }
  done.
Qed.

(** The bank holds X, which is selected in the mix; the chosen file holds
    the text [null].  The import succeeds and the bank is empty. *)
Lemma importPatterns_replaces_witness :
  let st := Strudel.setMixedPatterns (Strudel.Mix [] [] [("X", true)])
              (Strudel.setSavedPatterns
                 [(JS.Str "X", JS.Obj [("code", JS.Str "s('bd*4')")])]
                 Strudel.initial) in
  let st' := Monad.final
               (Strudel.importPatterns (Some (Strudel.Parsed JS.Null)) st) in
  wellFormed JS.Null = false
  /\ Monad.returned
       (Strudel.importPatterns (Some (Strudel.Parsed JS.Null)) st) = true
  /\ Strudel.savedPatterns st' = []
  /\ Strudel.saved (Strudel.mixedPatterns st') = []
  /\ last (Strudel.log st') = Some (Notify Strudel.PatternsImported success).
Proof.
  intros st st'.
  destruct (importPatterns_replaces st (Strudel.Parsed JS.Null))
    as (_ & H & _ & _ & Hwf & _).
  destruct (H JS.Null [] eq_refl eq_refl eq_refl) as (H1 & H2 & H3 & H4).
  split; [exact Hwf|]. split; [exact H1|]. split; [exact H2|].
  split; [exact (f_equal Strudel.saved H3)|exact H4].
Defined.

(** ** From steps to pattern code *)

Lemma includes_char (c : ascii) (s : string) :
  JS.includes (String c EmptyString) s = hasChar c s.
Proof.
  induction s as [|c' s IH]; [done|].
  simpl. destruct (ascii_dec c c') as [->|Hne].
  - rewrite Ascii.eqb_refl. by destruct s.
  - rewrite IH. by apply Ascii.eqb_neq in Hne as ->.
Qed.

Lemma hasChar_app (c : ascii) (s1 s2 : string) :
  hasChar c (s1 +:+ s2) = hasChar c s1 || hasChar c s2.
Proof.
  induction s1 as [|c' s1 IH]; [done|]. simpl. by rewrite IH, orb_assoc.
Qed.

Lemma hasChar_concat (c : ascii) (sep : string) (l : list string) :
  hasChar c sep = false ->
  hasChar c (String.concat sep l) = existsb (hasChar c) l.
Proof.
  intros Hsep. induction l as [|s l IH]; [done|].
  destruct l as [|s' l].
  - simpl. by rewrite orb_false_r.
  - change (String.concat sep (s :: s' :: l))
      with (s +:+ sep +:+ String.concat sep (s' :: l)).
    rewrite !hasChar_app, Hsep, IH. done.
Qed.

Lemma hasChar_marker (s : JS.slot) : hasChar "x" (JS.marker s) = JS.active s.
Proof. by destruct s as [| |[]]. Qed.

(** The test [steps.includes('x')] asks for an active step among the first
    [stepCount] entries of the array. *)
Lemma includes_stepMask (stepCount : nat) (arr : list JS.slot) :
  JS.includes "x" (Strudel.stepMask stepCount arr)
  = existsb JS.active (JS.slice0 stepCount arr).
Proof.
  unfold Strudel.stepMask. rewrite (includes_char "x").
  rewrite hasChar_concat by done.
  induction (JS.slice0 stepCount arr) as [|s l IH]; [done|].
  simpl. by rewrite IH, hasChar_marker.
Qed.

Lemma stepMask_booleans (bs : list bool) :
  Strudel.stepMask (length bs) (List.map JS.Step bs)
  = String.concat " " (List.map hitOrRest bs).
Proof.
  unfold Strudel.stepMask, JS.slice0.
  rewrite take_ge by (by rewrite length_map).
  by rewrite List.map_map.
Qed.

Section StrudelGenerate.

Import Monad Strudel.

Lemma afterGenerate_keeps_editor track sound :
  keeps editor (afterGenerate track sound).
Proof. keeps_auto. Qed.

Lemma afterGenerate_total track sound : total (afterGenerate track sound).
Proof.
  unfold afterGenerate.
  apply total_bind; [apply evaluateCode_total|intros _]. total_auto.
Qed.

Lemma generateTrackCode_unfold st track c arr :
  JS.get track (trackStates st) = Some c ->
  JS.get track (sequencerState st) = Some arr ->
  silenced (trackStates st) c = false ->
  existsb JS.active (JS.slice0 (steps c) arr) = true ->
  generateTrackCode track st =
  afterGenerate track (sound c)
    (setMixedPatterns (Mix [] [(track, true)] [])
       (setEditor (generatedCode (synthParams st) c arr) st)).
Proof.
  intros Hc Ha Hs Hx. unfold generateTrackCode.
  unfold bind at 1. unfold gets at 1.
  rewrite (bind_run _ _ _ _ _ (config_run _ _ _ Hc)). rewrite Hs.
  rewrite (bind_run _ _ _ _ _ (grid_run _ _ _ Ha)). cbv zeta.
  rewrite includes_stepMask, Hx. reflexivity.
Qed.

Lemma sequencerPattern_run st acc track :
  configured st = true -> In track (getTracks st) ->
  sequencerPattern (isSoloActive (trackStates st)) acc track st
  = Done (acc ++ sequencerPart st track) st.
Proof.
  intros Hc Hin. destruct (configured_get _ _ Hc Hin) as (c & arr & H1 & H2).
  unfold sequencerPattern, sequencerPart. rewrite H1, H2.
  rewrite (bind_run _ _ _ _ _ (config_run _ _ _ H1)).
  fold (silenced (trackStates st) c).
  destruct (silenced (trackStates st) c); [by rewrite app_nil_r|].
  rewrite (bind_run _ _ _ _ _ (grid_run _ _ _ H2)). cbv zeta.
  destruct (JS.includes _ _); [done|by rewrite app_nil_r].
Qed.

Lemma editor_written (text : synth -> string) (rest : M state unit) st :
  keeps editor rest ->
  editor (final ((let* p := gets synthParams in
                  let* _ := modify (setEditor (text p)) in rest) st))
  = text (synthParams st).
Proof. intros K. unfold bind, gets, modify. by rewrite K. Qed.

(** [generateSequencerCode] stacks the code of every audible track that has
    an active step, however many there are. *)
Lemma generateSequencerCode_stacks st :
  configured st = true ->
  let parts := flat_map (sequencerPart st) (getTracks st) in
  let code := "stack(" +:+ String.concat ", " parts +:+ ")" in
  parts <> [] ->
  editor (final (generateSequencerCode st))
  = (if bpmEnabled (synthParams st) then tempo (bpm (synthParams st)) code
     else code).
Proof.
  intros Hc parts code Hne. unfold generateSequencerCode.
  rewrite (bind_run _ _ _ (isSoloActive (trackStates st)) st) by done.
  rewrite (bind_run _ _ _ (getTracks st) st) by done.
  rewrite (bind_run _ _ _ _ _
             (collect_run _ _ (sequencerPart st) st
                (fun acc x Hin => sequencerPattern_run st acc x Hc Hin) [])).
  change ([] ++ flat_map (sequencerPart st) (getTracks st)) with parts.
  destruct parts as [|f fs] eqn:E; [done|].
  change (length (f :: fs) =? 0)%nat with false. cbv iota zeta.
  apply (editor_written
           (fun p => if bpmEnabled p
                     then tempo (bpm p)
                            ("stack(" +:+ String.concat ", " (f :: fs) +:+ ")")
                     else "stack(" +:+ String.concat ", " (f :: fs) +:+ ")")).
  keeps_auto.
Qed.

End StrudelGenerate.

(** C2.  For a grid [bs] of [N] booleans the mask is the [N] markers, "x"
    where the step is active and "~" where it is not, joined by single
    spaces.  The code of the track is the tonal form, a fixed note played
    with the sound and structured by the mask, exactly for the sounds
    sawtooth, sine and triangle, and otherwise the sample form, the sample
    repeated [N] times under the mask.  [generateTrackCode] writes this
    code, behind the tempo statement when BPM is enabled, for a track that
    is audible and has an active step.  The two examples of the
    specification are the last two parts. *)
Theorem compile_track (bs : list bool) (voice : string) (st : Strudel.state)
    (track : string) (c : trackState) :
  let N := length bs in
  let markers := List.map hitOrRest bs in
  let mask := Strudel.stepMask N (List.map JS.Step bs) in
  mask = String.concat " " markers
  /\ length markers = N
  /\ (forall (i : nat) (b : bool), bs !! i = Some b ->
        markers !! i = Some (if b then "x" else "~"))
  /\ (Strudel.tonal voice = true <->
      voice = "sawtooth" \/ voice = "sine" \/ voice = "triangle")
  /\ (Strudel.tonal voice = true ->
      Strudel.trackCode voice N mask
      = "note('c3').sound('" +:+ voice +:+ "').struct(" +:+ JS.dq +:+ mask
          +:+ JS.dq +:+ ").gain(0.8)")
  /\ (Strudel.tonal voice = false ->
      Strudel.trackCode voice N mask
      = "s(" +:+ JS.dq +:+ voice +:+ "*" +:+ pretty N +:+ JS.dq +:+ ").struct("
          +:+ JS.dq +:+ mask +:+ JS.dq +:+ ").gain(0.8)")
  /\ (JS.get track (Strudel.trackStates st) = Some c ->
      JS.get track (Strudel.sequencerState st) = Some (List.map JS.Step bs) ->
      steps c = N -> sound c = voice ->
      Strudel.silenced (Strudel.trackStates st) c = false ->
      existsb (fun b => b) bs = true ->
      Monad.returned (Strudel.generateTrackCode track st) = true
      /\ Strudel.editor (Monad.final (Strudel.generateTrackCode track st))
         = (if Strudel.bpmEnabled (Strudel.synthParams st)
            then Strudel.tempo (Strudel.bpm (Strudel.synthParams st))
                   (Strudel.trackCode voice N mask)
            else Strudel.trackCode voice N mask))
  /\ Strudel.stepMask 8
       (List.map JS.Step [true; false; true; false; false; false; false; false])
     = "x ~ x ~ ~ ~ ~ ~"
  /\ Strudel.trackCode "bd" 8 "x ~ x ~ ~ ~ ~ ~"
     = "s(" +:+ JS.dq +:+ "bd*8" +:+ JS.dq +:+ ").struct(" +:+ JS.dq
         +:+ "x ~ x ~ ~ ~ ~ ~" +:+ JS.dq +:+ ").gain(0.8)"
  /\ Strudel.trackCode "sine" 8 "x ~ x ~ ~ ~ ~ ~"
     = "note('c3').sound('sine').struct(" +:+ JS.dq +:+ "x ~ x ~ ~ ~ ~ ~"
         +:+ JS.dq +:+ ").gain(0.8)".
Proof.
  intros N markers mask.
  split; [apply stepMask_booleans|].
  split; [apply length_map|].
  split.
  { intros i b Hb. subst markers.
    change (List.map hitOrRest bs) with (hitOrRest <$> bs).
    by rewrite list_lookup_fmap, Hb. }
  split.
  { unfold Strudel.tonal. simpl. rewrite !orb_true_iff, !String.eqb_eq.
    intuition discriminate. }
  split; [intros H; unfold Strudel.trackCode; by rewrite H|].
  split; [intros H; unfold Strudel.trackCode; by rewrite H|].
  split; [|done].
  intros Hc Ha Hn Hs Hsil Hact.
  assert (Hx : existsb JS.active (JS.slice0 (steps c) (List.map JS.Step bs))
               = true).
  { rewrite Hn. unfold JS.slice0, N. rewrite take_ge by (by rewrite length_map).
    clear -Hact. induction bs as [|b bs IH]; [done|]. simpl in *.
    destruct b; [done|]. by apply IH. }
  rewrite (generateTrackCode_unfold _ _ _ _ Hc Ha Hsil Hx).
  split; [apply afterGenerate_total|].
  rewrite afterGenerate_keeps_editor. simpl.
  unfold generatedCode. by rewrite Hn, Hs.
Qed.

(** The kick track of the constructor with steps 0 and 2 set: the editor
    receives the tempo statement and the sample form. *)
Lemma compile_track_witness :
  let bs := [true; false; true; false; false; false; false; false] in
  let st := Strudel.setSequencerState
              (JS.set "bd" (List.map JS.Step bs)
                 (Strudel.sequencerState Strudel.initial)) Strudel.initial in
  Strudel.trackCode "sine" 8 (Strudel.stepMask 8 (List.map JS.Step bs))
  = "note('c3').sound('sine').struct(" +:+ JS.dq +:+ "x ~ x ~ ~ ~ ~ ~"
      +:+ JS.dq +:+ ").gain(0.8)"
  /\ Monad.returned (Strudel.generateTrackCode "bd" st) = true
  /\ Strudel.editor (Monad.final (Strudel.generateTrackCode "bd" st))
     = "setCps(120/60/4)" +:+ JS.nl +:+ "s(" +:+ JS.dq +:+ "bd*8" +:+ JS.dq
         +:+ ").struct(" +:+ JS.dq +:+ "x ~ x ~ ~ ~ ~ ~" +:+ JS.dq
         +:+ ").gain(0.8)".
Proof.
  intros bs st.
  destruct (compile_track bs "sine" st "bd" (TrackState false false 8 "bd"))
    as (_ & _ & _ & _ & H5 & _).
  destruct (compile_track bs "bd" st "bd" (TrackState false false 8 "bd"))
    as (_ & _ & _ & _ & _ & _ & H7 & _).
  split; [exact (H5 eq_refl)|].
  exact (H7 eq_refl eq_refl eq_refl eq_refl eq_refl eq_refl).
Defined.

(** ** Recomposing the mix *)

Section StrudelCompose.

Import Monad Strudel.

(** [updateMixedCode] once its three loops have filled [patterns]. *)
Lemma updateMixedCode_with st patterns :
  mixPatterns st = Done patterns st ->
  returned (updateMixedCode st) = true
  /\ editor (final (updateMixedCode st))
     = JS.domString (withTempo (synthParams st) patterns (combine patterns)).
Proof.
  intros Hp.
  set (newCode := withTempo (synthParams st) patterns (combine patterns)).
  assert (E : updateMixedCode st =
              (if JS.truthy newCode && isPlaying st then evaluateCode
               else if negb (JS.truthy newCode)
                    then let* _ := stop in
                         showNotification NoActivePatterns error
                    else ret tt) (setEditor (JS.domString newCode) st)).
  { unfold updateMixedCode. by rewrite (bind_run _ _ _ _ _ Hp). }
  rewrite E.
  set (st1 := setEditor _ st).
  assert (He : editor st1 = JS.domString newCode) by done.
  clearbody st1.
  destruct (_ && _).
  - split; [apply evaluateCode_total|]. by rewrite evaluateCode_keeps_editor.
  - destruct (negb _); [|done].
    split.
    + apply returned_bind; [apply stop_total|done].
    + destruct (returned_done _ _ (stop_total st1)) as [[] Hs].
      rewrite (final_bind _ _ _ _ _ Hs). simpl.
      by rewrite stop_keeps_editor.
Qed.

End StrudelCompose.



(** *** Which sources the mix includes *)

Section Fragments.

Import Strudel.

Lemma trackPart_fragment st track :
  trackPart st track = List.map JS.Str (trackFragment st track).
Proof.
  unfold trackPart, trackFragment.
  destruct (JS.flag track _); simpl.
  - destruct (JS.get track (trackStates st)) as [c|]; [|done].
    destruct (JS.get track (sequencerState st)) as [arr|]; [|done].
    unfold silenced, audible, hasActiveStep. rewrite includes_stepMask.
    unfold JS.slice0.
    destruct (muted c); simpl; [done|].
    destruct (isSoloActive (trackStates st)); simpl.
    + destruct (solo c); simpl; [|done]. by destruct (existsb _ _).
    + by destruct (existsb _ _).
  - destruct (JS.get track (trackStates st)); [|done].
    by destruct (JS.get track (sequencerState st)).
Qed.

Lemma presetPart_fragment st key :
  (negb (JS.flag key (presets (mixedPatterns st)))
   || match JS.get key builtin with Some _ => true | None => false end) = true ->
  presetPart st key = List.map JS.Str (presetFragment st key).
Proof.
  unfold presetPart, presetFragment, preset.
  destruct (JS.flag key _); [|done].
  by destruct (JS.get key builtin).
Qed.

Lemma truthy_field k v : JS.truthy (JS.field k v) = true -> JS.truthy v = true.
Proof. by destruct v. Qed.

Lemma savedPart_fragment st name :
  (negb (JS.flag name (saved (mixedPatterns st)))
   || textOrNothing
        (JS.field "code" (JS.mapGet (JS.Str name) (savedPatterns st)))) = true ->
  savedPart st name = List.map JS.Str (savedFragment true st name).
Proof.
  unfold savedPart, savedFragment, storedCode.
  destruct (JS.flag name _); simpl; [|done].
  pose proof (truthy_field "code" (JS.mapGet (JS.Str name) (savedPatterns st)))
    as Ht.
  destruct (JS.field "code" _) as [| |b|t|code|items|fs] eqn:E;
    cbn [textOrNothing orb negb JS.truthy]; intros Hb.
  - by rewrite andb_false_r.
  - by rewrite andb_false_r.
  - apply negb_true_iff in Hb. subst b. by rewrite andb_false_r.
  - apply negb_true_iff in Hb. rewrite Hb. by rewrite andb_false_r.
  - destruct (String.eqb code "") eqn:Ec; cbn [negb andb].
    + by rewrite andb_false_r.
    + rewrite Ht; [done|]. simpl. by rewrite Ec.
  - simpl in Hb. done.
  - simpl in Hb. done.
Qed.

Lemma flat_map_map_ext {A} (f : A -> list JS.value) (g : A -> list string)
    (l : list A) :
  (forall x, In x l -> f x = List.map JS.Str (g x)) ->
  flat_map f l = List.map JS.Str (flat_map g l).
Proof.
  induction l as [|x l IH]; intros H; simpl; [done|].
  rewrite List.map_app, H by (by left). rewrite IH; [done|].
  intros; apply H; by right.
Qed.

Lemma patternsOf_fragments st :
  presetsKnown st = true -> codesAreText st = true ->
  patternsOf st = List.map JS.Str (fragments true st).
Proof.
  unfold presetsKnown, codesAreText. rewrite !forallb_forall. intros Hp Hs.
  unfold patternsOf, fragments. rewrite !List.map_app.
  f_equal; [|f_equal].
  - apply flat_map_map_ext. intros; apply trackPart_fragment.
  - apply flat_map_map_ext. intros x Hx. by apply presetPart_fragment, Hp.
  - apply flat_map_map_ext. intros x Hx. by apply savedPart_fragment, Hs.
Qed.

Lemma join_text sep (fs : list string) :
  JS.join sep (List.map JS.Str fs) = String.concat sep fs.
Proof. unfold JS.join. rewrite List.map_map. by rewrite List.map_id. Qed.

Lemma combine_text (fs : list string) :
  combine (List.map JS.Str fs) = JS.Str (program fs).
Proof.
  destruct fs as [|f [|g fs]]; [done|done|].
  unfold combine, program.
  change (JS.Str f :: JS.Str g :: List.map JS.Str fs)
    with (List.map JS.Str (f :: g :: fs)).
  by rewrite join_text.
Qed.

End Fragments.

(** C1, as the code has it.  In a state where every track has its
    configuration, every selected preset is a built-in one and the stored
    codes are strings, [updateMixedCode] composes the fragments of the
    included sources: each selected track that is not muted, not excluded by
    the solo rule and has an active step, then each selected preset's text,
    then the stored code of each selected saved pattern whose code is not
    empty.  The composed program is empty for no fragment, the fragment
    itself for one, and [stack(...)] around all of them, in that order, for
    two or more; the editor receives it, behind the tempo statement when BPM
    is enabled and there is a fragment. *)
Theorem mix_composes_fragments (st : Strudel.state) :
  configured st = true -> presetsKnown st = true -> codesAreText st = true ->
  let fs := fragments true st in
  let p := Strudel.synthParams st in
  Monad.returned (Strudel.updateMixedCode st) = true
  /\ Strudel.mixPatterns st = Monad.Done (List.map JS.Str fs) st
  /\ Strudel.editor (Monad.final (Strudel.updateMixedCode st))
     = (if Strudel.bpmEnabled p && (0 <? length fs)
        then Strudel.tempo (Strudel.bpm p) (program fs)
        else program fs)
  /\ (fs = [] -> program fs = "")
  /\ (forall f, fs = [f] -> program fs = f)
  /\ (2 <= length fs ->
      program fs = "stack(" +:+ String.concat ", " fs +:+ ")").
Proof.
  intros Hc Hp Hs fs p.
  assert (Hm : Strudel.mixPatterns st = Monad.Done (List.map JS.Str fs) st).
  { rewrite (mixPatterns_run _ Hc). by rewrite (patternsOf_fragments _ Hp Hs). }
  destruct (updateMixedCode_with _ _ Hm) as [Hr He].
  split; [exact Hr|]. split; [exact Hm|].
  split.
  { rewrite He, combine_text. unfold Strudel.withTempo. fold p.
    rewrite length_map. by destruct (_ && _). }
  split; [by intros ->|].
  split; [by intros f ->|].
  intros Hlen. destruct fs as [|f [|g fs']]; simpl in Hlen; [lia|lia|done].
Qed.

(** The kick (steps 0 and 2) and the muted snare (step 4) are selected,
    with preset A and two saved patterns, of which Q has no code: the
    editor receives the stack of the kick, preset A and pattern P. *)
Lemma mix_composes_fragments_witness :
  let kick := [true; false; true; false; false; false; false; false] in
  let snare := [false; false; false; false; true; false; false; false] in
  let st :=
    Strudel.State
      [("bd", List.map JS.Step kick); ("sd", List.map JS.Step snare)]
      [("bd", TrackState false false 8 "bd");
       ("sd", TrackState true false 8 "sd")]
      (Strudel.Synth "800" "1" "0.5" "0.3" 120 false)
      (Strudel.Mix [("a", true)] [("bd", true); ("sd", true)]
         [("P", true); ("Q", true)])
      [(JS.Str "P", JS.Obj [("code", JS.Str "s('hh*8')")]);
       (JS.Str "Q", JS.Obj [("code", JS.Str "")])]
      History.empty false false false "" [] in
  Strudel.editor (Monad.final (Strudel.updateMixedCode st))
  = "stack(s(" +:+ JS.dq +:+ "bd*8" +:+ JS.dq +:+ ").struct(" +:+ JS.dq
      +:+ "x ~ x ~ ~ ~ ~ ~" +:+ JS.dq
      +:+ ").gain(0.8), s('bd,bass(4,8)').jux(rev).gain(0.8), s('hh*8'))".
Proof.
  intros kick snare st.
  destruct (mix_composes_fragments st eq_refl eq_refl eq_refl)
    as (_ & _ & H & _).
  exact H.
Defined.

(** C1 as stated fails: preset A and the saved pattern Q are selected, and
    the code stored with Q is the empty string.  Counting Q's code as a
    fragment, the program would be the stack of two fragments; the editor
    receives preset A alone. *)
Lemma empty_saved_code_is_skipped :
  let st :=
    Strudel.State
      [("bd", JS.filled 8)] [("bd", TrackState false false 8 "bd")]
      (Strudel.Synth "800" "1" "0.5" "0.3" 120 false)
      (Strudel.Mix [("a", true)] [] [("Q", true)])
      [(JS.Str "Q", JS.Obj [("code", JS.Str "")])]
      History.empty false false false "" [] in
  fragments false st = ["s('bd,bass(4,8)').jux(rev).gain(0.8)"; ""]
  /\ program (fragments false st)
     = "stack(s('bd,bass(4,8)').jux(rev).gain(0.8), )"
  /\ Monad.returned (Strudel.updateMixedCode st) = true
  /\ Strudel.editor (Monad.final (Strudel.updateMixedCode st))
     = "s('bd,bass(4,8)').jux(rev).gain(0.8)"
  /\ Strudel.editor (Monad.final (Strudel.updateMixedCode st))
     <> program (fragments false st).
Proof.
  repeat split; try reflexivity. vm_compute. discriminate.
Qed.


(** [CyberMidi.updateMixedCode] is another mixer: one line per selected
    track, muted or not, and per saved pattern; no [stack], and no tempo
    statement even with BPM enabled. *)
Lemma midi_mix_is_line_by_line :
  let m :=
    Midi.State
      [("note", List.map JS.Step [true; false; true; false])]
      [("note", TrackState true false 4 "C4")]
      (Midi.Synth 120 true)
      (Midi.Mix [("note", true)] [("P", true)])
      [(JS.Str "P", JS.Obj [("code", JS.Str "s('hh*8')")])]
      History.empty "" [] in
  Midi.editor (Monad.final (Midi.updateMixedCode m))
  = "note(" +:+ JS.dq +:+ "C4 ~ C4 ~" +:+ JS.dq +:+ ").midi()" +:+ JS.nl
      +:+ "s('hh*8')" +:+ JS.nl.
Proof. reflexivity. Qed.

(** * Further properties of the engine *)

(** ** Undo and redo as the handlers use them *)

(** X1.  Where [undo] has something to undo, a [redo] right after it brings
    the stack back as it was and restores the entry the cursor stood on. *)
Theorem undo_then_redo {A} (s : History.stack A) :
  (0 < History.historyIndex s < History.len (History.history s))%Z ->
  History.redo (fst (History.undo s)) = (s, History.Restore (History.at_ s)).
Proof.
  intros H. destruct s as [h i]. simpl in H.
  unfold History.undo. simpl.
  destruct (Z.leb_spec i 0); [lia|]. simpl.
  unfold History.redo. simpl.
  destruct (Z.geb_spec (i - 1) (History.len h - 1)); [lia|].
  unfold History.at_. simpl. by replace (i - 1 + 1)%Z with i by lia.
Qed.

Lemma undo_then_redo_witness :
  History.redo (fst (History.undo (History.Stack ["s0"; "s1"; "s2"] 2)))
  = (History.Stack ["s0"; "s1"; "s2"] 2, History.Restore (Some "s2")).
Proof.
  apply (undo_then_redo (History.Stack ["s0"; "s1"; "s2"] 2)).
  unfold History.len; simpl; lia.
Defined.

Section HistoryMoves.

Context {A : Type}.

Implicit Types (s : History.stack A) (x : A).

(** A push with the cursor on the last entry and room left appends. *)
Lemma saveToHistory_appends x s :
  History.historyIndex s = (History.len (History.history s) - 1)%Z ->
  (History.len (History.history s) < History.maxHistory)%Z ->
  History.saveToHistory x s
  = History.Stack (History.history s ++ [x]) (History.len (History.history s)).
Proof.
  intros Hi Hl. unfold History.saveToHistory.
  destruct (Z.ltb_spec (History.historyIndex s)
              (History.len (History.history s) - 1)); [lia|].
  cbv zeta. unfold History.push. rewrite len_app_one.
  destruct (Z.gtb_spec (History.len (History.history s) + 1)
              History.maxHistory); [lia|].
  f_equal. rewrite len_app_one. lia.
Qed.

Lemma lookup_len_app (l : list A) x y :
  (l ++ [x; y]) !! Z.to_nat (History.len l) = Some x.
Proof.
  unfold History.len. rewrite Nat2Z.id.
  by rewrite lookup_app_r, Nat.sub_diag by lia.
Qed.

End HistoryMoves.

(** X2.  The handlers push the state as it is before the action, and [undo]
    steps back from the cursor before it restores: after two pushes on a
    stack with its cursor at the end, one [undo] restores the first of the
    two snapshots, the one taken before the earlier action, and a [redo]
    then restores the second. *)
Theorem undo_restores_the_snapshot_before {A} (a b : A) (s : History.stack A) :
  History.historyIndex s = (History.len (History.history s) - 1)%Z ->
  (History.len (History.history s) + 2 <= History.maxHistory)%Z ->
  let s2 := History.saveToHistory b (History.saveToHistory a s) in
  snd (History.undo s2) = History.Restore (Some a)
  /\ snd (History.redo (fst (History.undo s2))) = History.Restore (Some b)
  /\ fst (History.redo (fst (History.undo s2))) = s2.
Proof.
  intros Hi Hl s2. subst s2.
  rewrite (saveToHistory_appends a s) by (done || lia).
  rewrite saveToHistory_appends;
    [|simpl; rewrite len_app_one; lia|simpl; rewrite len_app_one; lia].
  simpl. rewrite <- app_assoc. simpl. rewrite len_app_one.
  generalize (History.history s). intros h.
  assert (Hn : (0 <= History.len h)%Z) by (unfold History.len; lia).
  assert (Hlen : History.len (h ++ [a; b]) = (History.len h + 2)%Z).
  { unfold History.len. rewrite length_app. simpl. lia. }
  unfold History.undo. simpl.
  destruct (Z.leb_spec (History.len h + 1) 0); [lia|]. simpl.
  unfold History.at_. simpl.
  replace (History.len h + 1 - 1)%Z with (History.len h) by lia.
  destruct (Z.ltb_spec (History.len h) 0); [lia|].
  split; [by rewrite lookup_len_app|].
  unfold History.redo. simpl. rewrite Hlen.
  destruct (Z.geb_spec (History.len h) (History.len h + 2 - 1)); [lia|]. simpl.
  split; [|done]. f_equal. unfold History.at_. simpl.
  destruct (Z.ltb_spec (History.len h + 1) 0); [lia|].
  unfold History.len. replace (Z.of_nat (length h) + 1)%Z
    with (Z.of_nat (S (length h))) by lia.
  rewrite Nat2Z.id.
  rewrite lookup_app_r by lia. by replace (S (length h) - length h) with 1 by lia.
Qed.

Lemma undo_restores_the_snapshot_before_witness :
  let s2 := History.saveToHistory "before 2nd"
              (History.saveToHistory "before 1st" (History.Stack ["start"] 0)) in
  snd (History.undo s2) = History.Restore (Some "before 1st")
  /\ snd (History.redo (fst (History.undo s2))) = History.Restore (Some "before 2nd")
  /\ fst (History.redo (fst (History.undo s2))) = s2.
Proof.
  apply (undo_restores_the_snapshot_before "before 1st" "before 2nd"
           (History.Stack ["start"] 0)).
  - reflexivity.
  - vm_compute. discriminate.
Defined.

(** X3.  A push after an [undo] keeps the entries before the old cursor and
    drops the rest, the entry the cursor stood on included; nothing is left
    to [redo]. *)
Theorem push_after_undo_drops_redo {A} (x : A) (s : History.stack A) :
  (0 < History.historyIndex s < History.len (History.history s))%Z ->
  (History.len (History.history s) <= History.maxHistory)%Z ->
  let s' := History.saveToHistory x (fst (History.undo s)) in
  History.history s'
  = take (Z.to_nat (History.historyIndex s)) (History.history s) ++ [x]
  /\ History.redo s' = (s', History.Nothing).
Proof.
  intros Hi Hl. cbv zeta. destruct s as [h i]. simpl in Hi, Hl.
  assert (Hs : History.saveToHistory x
                 (fst (History.undo (History.Stack h i)))
               = History.Stack (take (Z.to_nat i) h ++ [x]) (i + 1 - 1)).
  { unfold History.undo. simpl.
    destruct (Z.leb_spec i 0); [lia|]. simpl.
    unfold History.saveToHistory. simpl.
    destruct (Z.ltb_spec (i - 1) (History.len h - 1)); [|lia].
    rewrite splice_in_range by lia.
    replace (i - 1 + 1)%Z with i by lia.
    unfold History.push.
    assert (Hk : History.len (take (Z.to_nat i) h ++ [x]) = (i + 1)%Z).
    { rewrite len_app_one. unfold History.len in *. rewrite length_take. lia. }
    cbv zeta. rewrite Hk.
    destruct (Z.gtb_spec (i + 1) History.maxHistory); [lia|].
    rewrite Hk. f_equal. }
  rewrite Hs. simpl. split; [done|].
  unfold History.redo. simpl.
  assert (Hk : History.len (take (Z.to_nat i) h ++ [x]) = (i + 1)%Z).
  { rewrite len_app_one. unfold History.len in *. rewrite length_take. lia. }
  rewrite Hk.
  by destruct (Z.geb_spec (i + 1 - 1) (i + 1 - 1)); [|lia].
Qed.

Lemma push_after_undo_drops_redo_witness :
  let s' := History.saveToHistory "new"
              (fst (History.undo (History.Stack ["s0"; "s1"; "s2"] 2))) in
  History.history s' = ["s0"; "s1"; "new"]
  /\ History.redo s' = (s', History.Nothing).
Proof.
  apply (push_after_undo_drops_redo "new" (History.Stack ["s0"; "s1"; "s2"] 2)).
  - unfold History.len; simpl; lia.
  - vm_compute. discriminate.
Defined.

Section HistoryOfClicks.

Import Monad Strudel StrudelOps.

Lemma toggleMute_keeps_hist track : keeps hist (toggleMute track).
Proof. keeps_auto. Qed.

Lemma onMute_hist track st :
  hist (final (onMute track st))
  = History.saveToHistory (snapshot st) (hist st).
Proof.
  unfold onMute.
  rewrite (final_bind _ _ _ tt
             (setHist (History.saveToHistory (snapshot st) (hist st)) st))
    by done.
  by rewrite toggleMute_keeps_hist.
Qed.

End HistoryOfClicks.

(** X4.  The listener of a Mute button saves the state and then toggles;
    [toggleMute] itself saves nothing.  After two clicks on Mute buttons
    the entry one [undo] restores is the snapshot of the state before the
    first click: both mutes go. *)
Theorem undo_after_two_mute_clicks (st : Strudel.state) (t1 t2 : string) :
  History.historyIndex (Strudel.hist st)
  = (History.len (History.history (Strudel.hist st)) - 1)%Z ->
  (History.len (History.history (Strudel.hist st)) + 2 <= History.maxHistory)%Z ->
  let st1 := Monad.final (StrudelOps.onMute t1 st) in
  let st2 := Monad.final (StrudelOps.onMute t2 st1) in
  snd (History.undo (Strudel.hist st2))
  = History.Restore (Some (Strudel.snapshot st)).
Proof.
  intros Hi Hl st1 st2. subst st1 st2. rewrite !onMute_hist.
  generalize (Strudel.snapshot (Monad.final (StrudelOps.onMute t1 st))).
  generalize (Strudel.snapshot st). generalize dependent (Strudel.hist st).
  intros s Hi Hl a b.
  rewrite (saveToHistory_appends a s) by (done || lia).
  rewrite saveToHistory_appends;
    [|simpl; rewrite len_app_one; lia|simpl; rewrite len_app_one; lia].
  simpl. rewrite <- app_assoc. simpl. rewrite len_app_one.
  assert (Hn : (0 <= History.len (History.history s))%Z)
    by (unfold History.len; lia).
  unfold History.undo. simpl.
  destruct (Z.leb_spec (History.len (History.history s) + 1) 0); [lia|]. simpl.
  unfold History.at_. simpl.
  replace (History.len (History.history s) + 1 - 1)%Z
    with (History.len (History.history s)) by lia.
  destruct (Z.ltb_spec (History.len (History.history s)) 0); [lia|].
  by rewrite lookup_len_app.
Qed.

Lemma undo_after_two_mute_clicks_witness :
  let st := Strudel.setHist
              (History.Stack [Strudel.snapshot Strudel.initial] 0)
              Strudel.initial in
  let st2 := Monad.final (StrudelOps.onMute "sd"
                            (Monad.final (StrudelOps.onMute "bd" st))) in
  snd (History.undo (Strudel.hist st2))
  = History.Restore (Some (Strudel.snapshot st)).
Proof.
  intros st.
  apply (undo_after_two_mute_clicks st "bd" "sd").
  - reflexivity.
  - vm_compute. discriminate.
Defined.

(** ** The mixer *)

Section MixerFacts.

Import Monad Strudel.

(** The mixed text and the bookkeeping of tracks are functions of the data
    of the state. *)
Lemma data_parts st st' :
  data st' = data st ->
  sequencerState st' = sequencerState st
  /\ trackStates st' = trackStates st
  /\ synthParams st' = synthParams st
  /\ mixedPatterns st' = mixedPatterns st
  /\ savedPatterns st' = savedPatterns st
  /\ hist st' = hist st.
Proof. unfold data. intros H. by inversion H. Qed.

Lemma configured_data st st' :
  data st' = data st -> configured st' = configured st.
Proof.
  intros H. destruct (data_parts _ _ H) as (H1 & H2 & _).
  unfold configured, getTracks. by rewrite H1, H2.
Qed.

Lemma patternsOf_data st st' :
  data st' = data st -> patternsOf st' = patternsOf st.
Proof.
  intros H. destruct (data_parts _ _ H) as (H1 & H2 & H3 & H4 & H5 & _).
  unfold patternsOf, getTracks, trackPart, presetPart, savedPart.
  by rewrite H1, H2, H4, H5.
Qed.

Lemma mixedText_data st st' :
  data st' = data st -> mixedText st' = mixedText st.
Proof.
  intros H. unfold mixedText. rewrite (patternsOf_data _ _ H).
  destruct (data_parts _ _ H) as (_ & _ & H3 & _). by rewrite H3.
Qed.

End MixerFacts.

(** X5.  [updateMixedCode] writes a text that is a function of the tracks,
    the selection, the bank and the tempo alone: whatever was typed in the
    editor is overwritten, and a second call changes nothing in it. *)
Theorem updateMixedCode_overwrites (st : Strudel.state) (typed : string) :
  configured st = true ->
  let st1 := Monad.final (Strudel.updateMixedCode st) in
  Strudel.editor (Monad.final (Strudel.updateMixedCode
                                 (Strudel.setEditor typed st)))
  = Strudel.editor st1
  /\ Monad.returned (Strudel.updateMixedCode st1) = true
  /\ Strudel.editor (Monad.final (Strudel.updateMixedCode st1))
     = Strudel.editor st1.
Proof.
  intros Hc st1.
  assert (Hd : data st1 = data st) by apply updateMixedCode_keeps_data.
  assert (Hc1 : configured st1 = true) by (by rewrite (configured_data _ _ Hd)).
  destruct (updateMixedCode_run st Hc) as [_ He].
  destruct (updateMixedCode_run (Strudel.setEditor typed st) Hc) as [_ He'].
  destruct (updateMixedCode_run st1 Hc1) as [Hr1 He1].
  fold st1 in He. rewrite He', He1, He, (mixedText_data _ _ Hd).
  done.
Qed.

Lemma updateMixedCode_overwrites_witness :
  let st := Strudel.setMixedPatterns (Strudel.Mix [("a", true)] [] [])
              Strudel.initial in
  let st1 := Monad.final (Strudel.updateMixedCode st) in
  Strudel.editor (Monad.final (Strudel.updateMixedCode
                                 (Strudel.setEditor "s('hh*8')" st)))
  = Strudel.editor st1
  /\ Monad.returned (Strudel.updateMixedCode st1) = true
  /\ Strudel.editor (Monad.final (Strudel.updateMixedCode st1))
     = Strudel.editor st1.
Proof.
  intros st.
  apply (updateMixedCode_overwrites st "s('hh*8')"). reflexivity.
Defined.

(** ** Deleting from objects and Maps *)

Section Removal.

Context {A : Type}.

Implicit Types (o : JS.obj A) (k : string).

Lemma remove_set o k (v : A) : JS.remove k (JS.set k v o) = JS.remove k o.
Proof.
  induction o as [|[k' v'] o IH]; simpl.
  - by rewrite String.eqb_refl.
  - destruct (String.eqb_spec k k') as [->|Hne]; simpl.
    + by rewrite String.eqb_refl.
    + destruct (String.eqb_spec k k'); [done|]. by rewrite IH.
Qed.

Lemma get_remove_ne o k k' :
  k <> k' -> JS.get k' (JS.remove k o) = JS.get k' o.
Proof.
  intros Hne. induction o as [|[k1 v1] o IH]; simpl; [done|].
  destruct (String.eqb_spec k k1) as [->|H1]; simpl.
  - by destruct (String.eqb_spec k' k1) as [->|].
  - by rewrite IH.
Qed.

Lemma get_absent o k : ~ In k (JS.keys o) -> JS.get k o = None.
Proof.
  intros H. destruct (JS.get k o) eqn:E; [|done].
  exfalso. apply H. apply get_keys. by eexists.
Qed.

Lemma get_remove_eq o k :
  NoDup (JS.keys o) -> JS.get k (JS.remove k o) = None.
Proof.
  induction o as [|[k1 v1] o IH]; simpl; [done|].
  intros Hnd. apply NoDup_cons in Hnd as [Hnin Hnd].
  destruct (String.eqb_spec k k1) as [->|H1]; simpl.
  - apply get_absent. by rewrite <- list_elem_of_In.
  - destruct (String.eqb_spec k k1); [done|]. by apply IH.
Qed.

End Removal.

Lemma flag_remove_ne (o : JS.obj bool) k k' :
  k <> k' -> JS.flag k' (JS.remove k o) = JS.flag k' o.
Proof. intros H. unfold JS.flag. by rewrite get_remove_ne. Qed.

Lemma same_eq (a b : JS.value) : JS.same a b = true -> a = b.
Proof.
  destruct a, b; simpl; try done.
  - intros H. f_equal. by apply Bool.eqb_prop.
  - intros H. f_equal. by apply String.eqb_eq.
  - intros H. f_equal. by apply String.eqb_eq.
Qed.

Lemma same_Str_ne (n n' : string) :
  n <> n' -> JS.same (JS.Str n) (JS.Str n') = false.
Proof. intros H. simpl. by apply String.eqb_neq. Qed.

Lemma mapGet_mapDelete_ne (n n' : string) (m : JS.Map) :
  n <> n' ->
  JS.mapGet (JS.Str n') (JS.mapDelete (JS.Str n) m) = JS.mapGet (JS.Str n') m.
Proof.
  intros Hne. induction m as [|[k v] m IH]; [done|].
  cbn [JS.mapDelete JS.mapGet].
  destruct (JS.same (JS.Str n) k) eqn:E.
  - apply same_eq in E as <-. by rewrite same_Str_ne by congruence.
  - cbn [JS.mapGet]. by rewrite IH.
Qed.

Lemma mapHas_mapDelete (k : JS.value) (m : JS.Map) :
  distinct m = true -> JS.mapHas k (JS.mapDelete k m) = false.
Proof.
  induction m as [|[k1 v1] m IH]; [done|].
  cbn [distinct JS.mapDelete]. intros H.
  apply andb_prop in H as [H1 H2]. apply negb_true_iff in H1.
  destruct (JS.same k k1) eqn:E.
  - apply same_eq in E as ->. done.
  - cbn [JS.mapHas]. by rewrite E, IH.
Qed.

Lemma mapGet_absent (k : JS.value) (m : JS.Map) :
  JS.mapHas k m = false -> JS.mapGet k m = JS.Undefined.
Proof.
  induction m as [|[k1 v1] m IH]; [done|]. simpl.
  intros H. apply orb_false_elim in H as [H1 H2]. by rewrite H1, IH.
Qed.

(** ** The pattern bank *)

Section BankFacts.

Import Monad Strudel StrudelOps.

(** Where every track has its entry, [updateMixedCode] returns; it has then
    written the mixed text and left the data alone. *)
Lemma updateMixedCode_done st :
  configured st = true ->
  exists st2, updateMixedCode st = Done tt st2
              /\ data st2 = data st /\ editor st2 = mixedText st.
Proof.
  intros Hc. destruct (updateMixedCode_run _ Hc) as [Hr He].
  destruct (returned_done _ _ Hr) as [[] Hu].
  exists (final (updateMixedCode st)).
  split; [done|]. split; [apply updateMixedCode_keeps_data|done].
Qed.

Lemma deletePattern_unfold st name :
  JS.mapHas (JS.Str name) (savedPatterns st) = true ->
  deletePattern name st =
  (let* _ := updateMixedCode in
   let* _ := saveToHistory in
   let* _ := saveToLocalStorage in
   ret (PatternDeleted name, success)) (deleted name st).
Proof.
  intros H. unfold deletePattern.
  rewrite (bind_run _ _ _ true st) by (unfold gets; by rewrite H).
  reflexivity.
Qed.

Lemma deletePattern_missing st name :
  JS.mapHas (JS.Str name) (savedPatterns st) = false ->
  deletePattern name st = Done (PatternNotFound name, error) st.
Proof.
  intros H. unfold deletePattern.
  rewrite (bind_run _ _ _ false st) by (unfold gets; by rewrite H).
  reflexivity.
Qed.

Lemma core_parts st st' :
  core st' = core st ->
  sequencerState st' = sequencerState st
  /\ trackStates st' = trackStates st
  /\ synthParams st' = synthParams st
  /\ mixedPatterns st' = mixedPatterns st
  /\ savedPatterns st' = savedPatterns st.
Proof. unfold core. intros H. by inversion H. Qed.

Lemma data_core st st' : data st' = data st -> core st' = core st.
Proof.
  intros H. destruct (data_parts _ _ H) as (H1 & H2 & H3 & H4 & H5 & _).
  unfold core. by rewrite H1, H2, H3, H4, H5.
Qed.

Lemma configured_core st st' :
  core st' = core st -> configured st' = configured st.
Proof.
  intros H. destruct (core_parts _ _ H) as (H1 & H2 & _).
  unfold configured, getTracks. by rewrite H1, H2.
Qed.

Lemma mixedText_core st st' :
  core st' = core st -> mixedText st' = mixedText st.
Proof.
  intros H. destruct (core_parts _ _ H) as (H1 & H2 & H3 & H4 & H5).
  unfold mixedText, patternsOf, getTracks, trackPart, presetPart, savedPart.
  by rewrite H1, H2, H3, H4, H5.
Qed.

Lemma deletePattern_run st name :
  configured st = true ->
  JS.mapHas (JS.Str name) (savedPatterns st) = true ->
  exists st',
    deletePattern name st = Done (PatternDeleted name, success) st'
    /\ core st' = core (deleted name st)
    /\ editor st' = mixedText st'.
Proof.
  intros Hc Hhas. rewrite (deletePattern_unfold _ _ Hhas).
  destruct (updateMixedCode_done (deleted name st)) as (st2 & Hu & Hd & He);
    [done|].
  rewrite (bind_run _ _ _ _ _ Hu).
  eexists. split; [reflexivity|].
  set (stF := setLog _ _).
  assert (Hcore : core stF = core (deleted name st))
    by (rewrite <- (data_core _ _ Hd); reflexivity).
  split; [done|].
  rewrite (mixedText_core _ _ Hcore). by rewrite <- He.
Qed.

End BankFacts.

(** X6.  [deletePattern(name)] on a name the bank does not hold says so and
    changes nothing.  On a name it holds, the name leaves the bank and the
    selection, every other pattern and every other selection entry stays,
    and the editor receives the mix composed without it. *)
Theorem deletePattern_forgets (st : Strudel.state) (name : string) :
  configured st = true ->
  distinct (Strudel.savedPatterns st) = true ->
  NoDup (JS.keys (Strudel.saved (Strudel.mixedPatterns st))) ->
  if JS.mapHas (JS.Str name) (Strudel.savedPatterns st)
  then exists st',
      StrudelOps.deletePattern name st
      = Monad.Done (StrudelOps.PatternDeleted name, success) st'
      /\ JS.mapHas (JS.Str name) (Strudel.savedPatterns st') = false
      /\ JS.get name (Strudel.saved (Strudel.mixedPatterns st')) = None
      /\ (forall n, n <> name ->
            JS.mapGet (JS.Str n) (Strudel.savedPatterns st')
            = JS.mapGet (JS.Str n) (Strudel.savedPatterns st)
            /\ JS.get n (Strudel.saved (Strudel.mixedPatterns st'))
               = JS.get n (Strudel.saved (Strudel.mixedPatterns st)))
      /\ Strudel.presets (Strudel.mixedPatterns st')
         = Strudel.presets (Strudel.mixedPatterns st)
      /\ Strudel.tracks (Strudel.mixedPatterns st')
         = Strudel.tracks (Strudel.mixedPatterns st)
      /\ Strudel.sequencerState st' = Strudel.sequencerState st
      /\ Strudel.trackStates st' = Strudel.trackStates st
      /\ Strudel.editor st' = mixedText st'
  else StrudelOps.deletePattern name st
       = Monad.Done (StrudelOps.PatternNotFound name, error) st.
Proof.
  intros Hc Hd Hnd.
  destruct (JS.mapHas _ _) eqn:Hhas; [|by apply deletePattern_missing].
  destruct (deletePattern_run _ _ Hc Hhas) as (st' & Hrun & Hcore & He).
  exists st'. split; [done|].
  destruct (core_parts _ _ Hcore) as (H1 & H2 & _ & H4 & H5).
  rewrite H1, H2, H4, H5. unfold deleted. cbn. rewrite remove_set.
  split; [by apply mapHas_mapDelete|].
  split; [by apply get_remove_eq|].
  split; [|done].
  intros n Hn. split; [by apply mapGet_mapDelete_ne|by apply get_remove_ne].
Qed.

Lemma deletePattern_forgets_witness :
  let st := Strudel.setMixedPatterns
              (Strudel.Mix [] [] [("P", true); ("Q", true)])
              (Strudel.setSavedPatterns
                 [(JS.Str "P", JS.Obj [("code", JS.Str "s('bd*4')")]);
                  (JS.Str "Q", JS.Obj [("code", JS.Str "s('hh*8')")])]
                 Strudel.initial) in
  exists st',
    StrudelOps.deletePattern "P" st
    = Monad.Done (StrudelOps.PatternDeleted "P", success) st'
    /\ Strudel.savedPatterns st'
       = [(JS.Str "Q", JS.Obj [("code", JS.Str "s('hh*8')")])]
    /\ Strudel.saved (Strudel.mixedPatterns st') = [("Q", true)]
    /\ Strudel.editor st' = "setCps(120/60/4)" +:+ JS.nl +:+ "s('hh*8')".
Proof.
  intros st.
  assert (Hnd : NoDup (JS.keys (Strudel.saved (Strudel.mixedPatterns st))))
    by (apply (bool_decide_unpack _); vm_compute; exact I).
  destruct (deletePattern_forgets st "P" eq_refl eq_refl Hnd)
    as (st' & H1 & _).
  exists st'. split; [exact H1|].
  assert (E : Monad.final (StrudelOps.deletePattern "P" st) = st')
    by (by rewrite H1).
  rewrite <- E. by vm_compute.
Defined.

Section Insertion.

Context {A : Type}.

Implicit Types (o : JS.obj A) (k : string).

Lemma set_absent o k (v : A) :
  JS.get k o = None -> JS.set k v o = o ++ [(k, v)].
Proof.
  induction o as [|[k1 v1] o IH]; simpl; [done|].
  destruct (String.eqb_spec k k1); [done|]. intros H. by rewrite IH.
Qed.

Lemma keys_set o k (v : A) :
  JS.keys (JS.set k v o)
  = match JS.get k o with
    | Some _ => JS.keys o
    | None => JS.keys o ++ [k]
    end.
Proof.
  destruct (JS.get k o) eqn:E.
  - apply keys_set_present. by eexists.
  - rewrite (set_absent _ _ _ E). unfold JS.keys. by rewrite List.map_app.
Qed.

Lemma NoDup_keys_set o k (v : A) :
  NoDup (JS.keys o) -> NoDup (JS.keys (JS.set k v o)).
Proof.
  intros H. rewrite keys_set. destruct (JS.get k o) eqn:E; [done|].
  apply NoDup_app. split; [done|]. split; [|apply NoDup_singleton].
  intros x Hx Hk. apply list_elem_of_singleton in Hk as ->.
  apply list_elem_of_In, get_keys in Hx as [? Hx]. congruence.
Qed.

Lemma keys_remove_sublist o k : sublist (JS.keys (JS.remove k o)) (JS.keys o).
Proof.
  induction o as [|[k1 v1] o IH]; simpl; [done|].
  destruct (String.eqb k k1); simpl.
  - by apply sublist_cons.
  - by apply sublist_skip.
Qed.

Lemma NoDup_keys_remove o k :
  NoDup (JS.keys o) -> NoDup (JS.keys (JS.remove k o)).
Proof. intros H. eapply sublist_NoDup; [done|apply keys_remove_sublist]. Qed.

End Insertion.

Lemma flag_set_eq (o : JS.obj bool) k b : JS.flag k (JS.set k b o) = b.
Proof. unfold JS.flag. by rewrite get_set_eq. Qed.

Lemma flag_set_ne (o : JS.obj bool) k k' b :
  k <> k' -> JS.flag k' (JS.set k b o) = JS.flag k' o.
Proof. intros H. unfold JS.flag. by rewrite get_set_ne. Qed.

Lemma flag_remove_eq (o : JS.obj bool) k :
  NoDup (JS.keys o) -> JS.flag k (JS.remove k o) = false.
Proof. intros H. unfold JS.flag. by rewrite get_remove_eq. Qed.

Lemma flag_in_keys (o : JS.obj bool) k : JS.flag k o = true -> In k (JS.keys o).
Proof.
  unfold JS.flag. destruct (JS.get k o) eqn:E; [|done].
  intros _. apply get_keys. by eexists.
Qed.

Lemma same_sym (a b : JS.value) : JS.same a b = JS.same b a.
Proof.
  destruct a, b; simpl; try done.
  - by destruct b, b0.
  - apply String.eqb_sym.
  - apply String.eqb_sym.
Qed.

Lemma mapHas_mapSet (k1 k v : JS.value) (m : JS.Map) :
  JS.mapHas k1 (JS.mapSet k v m) = JS.mapHas k1 m || JS.same k1 k.
Proof.
  induction m as [|[k2 v2] m IH]; simpl; [by rewrite orb_false_r|].
  destruct (JS.same k k2) eqn:E; simpl.
  - apply same_eq in E as ->. by destruct (JS.same k1 k2), (JS.mapHas k1 m).
  - rewrite IH. by rewrite orb_assoc.
Qed.

Lemma distinct_mapSet (k v : JS.value) (m : JS.Map) :
  distinct m = true -> distinct (JS.mapSet k v m) = true.
Proof.
  induction m as [|[k2 v2] m IH]; simpl; [done|].
  intros H. apply andb_prop in H as [H1 H2].
  destruct (JS.same k k2) eqn:E; simpl.
  - by rewrite H1, H2.
  - rewrite mapHas_mapSet, IH by done.
    apply negb_true_iff in H1. by rewrite H1, same_sym, E.
Qed.

Lemma mapHas_mapDelete_le (k1 k : JS.value) (m : JS.Map) :
  JS.mapHas k1 (JS.mapDelete k m) = true -> JS.mapHas k1 m = true.
Proof.
  induction m as [|[k2 v2] m IH]; simpl; [done|].
  destruct (JS.same k k2); simpl.
  - intros ->. apply orb_true_r.
  - intros H. apply orb_prop in H as [->|H]; [done|].
    rewrite IH by done. apply orb_true_r.
Qed.

Lemma distinct_mapDelete (k : JS.value) (m : JS.Map) :
  distinct m = true -> distinct (JS.mapDelete k m) = true.
Proof.
  induction m as [|[k2 v2] m IH]; simpl; [done|].
  intros H. apply andb_prop in H as [H1 H2].
  destruct (JS.same k k2); simpl; [done|].
  rewrite IH by done. rewrite andb_true_r.
  apply negb_true_iff. apply negb_true_iff in H1.
  destruct (JS.mapHas k2 (JS.mapDelete k m)) eqn:E; [|done].
  apply mapHas_mapDelete_le in E. congruence.
Qed.

Lemma distinct_addEntries items m m' :
  distinct m = true -> addEntries items (Some m) = Some m' ->
  distinct m' = true.
Proof.
  revert m. induction items as [|e items IH]; intros m Hm; simpl.
  - by intros [= <-].
  - destruct (JS.isObject e).
    + apply IH. by apply distinct_mapSet.
    + intros H. exfalso. clear -H.
      induction items as [|e' items IH]; simpl in H; [done|by apply IH].
  Qed.

Lemma distinct_newMap data m :
  JS.newMap data = Some m -> distinct m = true.
Proof.
  destruct data; simpl; try done.
  - by intros [= <-].
  - by intros [= <-].
  - destruct (String.eqb s ""); [by intros [= <-]|done].
  - fold (addEntries items (Some [])). by apply distinct_addEntries.
Qed.

Section BankRuns.

Import Monad Strudel StrudelOps.

Lemma selectionValid_spec st :
  selectionValid st = true
  <-> (forall name, JS.flag name (saved (mixedPatterns st)) = true ->
                    usable (savedPatterns st) name = true).
Proof.
  unfold selectionValid. rewrite forallb_forall. split.
  - intros H name Hf. specialize (H name (flag_in_keys _ _ Hf)).
    by rewrite Hf in H.
  - intros H name _. destruct (JS.flag name _) eqn:E; [|done].
    by apply H.
Qed.

Lemma mixSavedPattern_rejects st name :
  usable (savedPatterns st) name = false ->
  mixSavedPattern name st = Done (SavedNotValid name, error) st.
Proof.
  unfold usable. intros H. unfold mixSavedPattern.
  rewrite (bind_run _ _ _ (JS.mapGet (JS.Str name) (savedPatterns st)) st)
    by done.
  by rewrite <- negb_andb, H.
Qed.

Lemma mixSavedPattern_run st name :
  configured st = true ->
  usable (savedPatterns st) name = true ->
  exists st',
    mixSavedPattern name st
    = Done (SavedMixed name (negb (JS.flag name (saved (mixedPatterns st)))),
            success) st'
    /\ core st' = core (savedToggled name st)
    /\ editor st' = mixedText st'.
Proof.
  unfold usable. intros Hc H. unfold mixSavedPattern.
  rewrite (bind_run _ _ _ (JS.mapGet (JS.Str name) (savedPatterns st)) st)
    by done.
  rewrite <- negb_andb, H. cbn [negb].
  unfold bind at 1. unfold modify at 1. fold (savedToggled name st).
  destruct (updateMixedCode_done (savedToggled name st))
    as (st2 & Hu & Hd & He); [done|].
  rewrite (bind_run _ _ _ _ _ Hu).
  assert (Hcore : core st2 = core (savedToggled name st))
    by (by apply data_core).
  destruct (core_parts _ _ Hcore) as (_ & _ & _ & H4 & _).
  eexists. split.
  { unfold bind, saveToHistory, saveToLocalStorage, emit, modify, gets, ret.
    cbn. rewrite H4. unfold savedToggled. cbn. by rewrite flag_set_eq. }
  split; [done|].
  match goal with |- editor ?s = _ => change (editor s) with (editor st2) end.
  rewrite He. symmetry. by apply mixedText_core.
Qed.

Lemma savePattern_run st input :
  JS.trim input <> "" -> JS.trim (editor st) <> "" ->
  savePattern input st
  = Done tt
      (setLog (log st ++ [Persist; Notify (PatternSaved (JS.trim input)) success])
         (setSavedPatterns
            (JS.mapSet (JS.Str (JS.trim input))
               (savedRecord (JS.trim (editor st)) st) (savedPatterns st)) st)).
Proof.
  intros Hn Hcode. apply String.eqb_neq in Hn, Hcode.
  unfold savePattern. cbv zeta. rewrite Hn.
  unfold bind, gets. rewrite Hcode. simpl.
  unfold showNotification, modify, setLog. simpl.
  by rewrite <- app_assoc.
Qed.

Lemma savePattern_blank st input :
  JS.trim input = "" \/ JS.trim (editor st) = "" ->
  core (final (savePattern input st)) = core st
  /\ editor (final (savePattern input st)) = editor st
  /\ hist (final (savePattern input st)) = hist st
  /\ exists m, savePattern input st
               = Done tt (setLog (log st ++ [Notify m error]) st).
Proof.
  intros H. unfold savePattern. cbv zeta.
  destruct (String.eqb_spec (JS.trim input) "") as [_|Hn].
  - repeat split; try done. by eexists.
  - destruct H as [H|H]; [done|].
    unfold bind, gets. rewrite H. simpl. repeat split; try done. by eexists.
Qed.

End BankRuns.



Lemma mapGet_mapSet_ne (n n' : string) (v : JS.value) (m : JS.Map) :
  n <> n' ->
  JS.mapGet (JS.Str n') (JS.mapSet (JS.Str n) v m) = JS.mapGet (JS.Str n') m.
Proof.
  intros Hne. induction m as [|[k v1] m IH].
  - cbn [JS.mapSet JS.mapGet]. by rewrite same_Str_ne by congruence.
  - cbn [JS.mapSet JS.mapGet].
    destruct (JS.same (JS.Str n) k) eqn:E.
    + apply same_eq in E as <-. cbn [JS.mapGet].
      by rewrite same_Str_ne by congruence.
    + cbn [JS.mapGet]. by rewrite IH.
Qed.

Section BankInvariant.

Import Monad Strudel StrudelOps.

Lemma selectionValid_core st st' :
  core st' = core st -> selectionValid st' = selectionValid st.
Proof.
  intros H. destruct (core_parts _ _ H) as (_ & _ & _ & H4 & H5).
  unfold selectionValid. by rewrite H4, H5.
Qed.

Lemma bankOk_core st st' : core st' = core st -> bankOk st -> bankOk st'.
Proof.
  intros H (Hc & Hd & Hn & Hv).
  destruct (core_parts _ _ H) as (_ & _ & _ & H4 & H5).
  unfold bankOk. rewrite (configured_core _ _ H), (selectionValid_core _ _ H).
  by rewrite H4, H5.
Qed.

Lemma usable_saved name code st bank :
  code <> "" ->
  usable (JS.mapSet (JS.Str name) (savedRecord code st) bank) name = true.
Proof.
  intros H. unfold usable. rewrite mapGet_mapSet by apply same_Str.
  cbn. apply negb_true_iff. by apply String.eqb_neq.
Qed.

Lemma usable_other name n v bank :
  name <> n -> usable (JS.mapSet (JS.Str name) v bank) n = usable bank n.
Proof. intros H. unfold usable. by rewrite mapGet_mapSet_ne. Qed.

Lemma bankOk_save st input : bankOk st -> bankOk (bankStep (Save input) st).
Proof.
  intros Hok. cbn [bankStep].
  destruct (String.eqb_spec (JS.trim input) "") as [Hn|Hn];
    [|destruct (String.eqb_spec (JS.trim (editor st)) "") as [Hcode|Hcode]].
  - destruct (savePattern_blank st input (or_introl Hn)) as (H & _).
    by apply (bankOk_core _ _ H).
  - destruct (savePattern_blank st input (or_intror Hcode)) as (H & _).
    by apply (bankOk_core _ _ H).
  - rewrite (savePattern_run _ _ Hn Hcode). cbn [final].
    destruct Hok as (Hc & Hd & Hnd & Hv).
    split; [done|]. split; [by apply distinct_mapSet|]. split; [done|].
    apply selectionValid_spec. intros n Hf. cbn.
    destruct (String.eqb_spec (JS.trim input) n) as [<-|Hne].
    + by apply usable_saved.
    + rewrite usable_other by done.
      by apply (proj1 (selectionValid_spec st) Hv).
Qed.

Lemma bankOk_delete st name : bankOk st -> bankOk (bankStep (Delete name) st).
Proof.
  intros Hok. cbn [bankStep].
  destruct (JS.mapHas (JS.Str name) (savedPatterns st)) eqn:Hhas.
  - destruct Hok as (Hc & Hd & Hnd & Hv).
    destruct (deletePattern_run _ _ Hc Hhas) as (st' & -> & Hcore & _).
    cbn [final]. apply (bankOk_core _ _ Hcore).
    split; [done|].
    split; [unfold deleted; cbn; by apply distinct_mapDelete|].
    split; [unfold deleted; cbn; rewrite remove_set;
            by apply NoDup_keys_remove|].
    apply selectionValid_spec. intros n. unfold deleted. cbn.
    rewrite remove_set.
    destruct (String.eqb_spec name n) as [<-|Hne].
    + by rewrite flag_remove_eq.
    + rewrite flag_remove_ne by done. intros Hf.
      unfold usable. rewrite mapGet_mapDelete_ne by done.
      by apply (proj1 (selectionValid_spec st) Hv).
  - by rewrite (deletePattern_missing _ _ Hhas).
Qed.

Lemma bankOk_mix st name : bankOk st -> bankOk (bankStep (MixSaved name) st).
Proof.
  intros Hok. cbn [bankStep].
  destruct (usable (savedPatterns st) name) eqn:Hu.
  - destruct Hok as (Hc & Hd & Hnd & Hv).
    destruct (mixSavedPattern_run _ _ Hc Hu) as (st' & -> & Hcore & _).
    cbn [final]. apply (bankOk_core _ _ Hcore).
    split; [done|]. split; [done|].
    split; [unfold savedToggled; cbn; by apply NoDup_keys_set|].
    apply selectionValid_spec. intros n. unfold savedToggled. cbn.
    destruct (String.eqb_spec name n) as [<-|Hne]; [done|].
    rewrite flag_set_ne by done.
    by apply (proj1 (selectionValid_spec st) Hv).
  - by rewrite (mixSavedPattern_rejects _ _ Hu).
Qed.

Lemma bankOk_import st file : bankOk st -> bankOk (bankStep (Import file) st).
Proof.
  intros Hok. cbn [bankStep]. destruct file as [text|]; [|done].
  unfold importPatterns, try.
  assert (Hrej : importData text st = Raised st ->
                 bankOk (final (match importData text st with
                                | Done a st' => Done a st'
                                | Raised st' =>
                                    showNotification InvalidPatternFile error st'
                                end))).
  { intros ->. done. }
  destruct text as [|d].
  { apply Hrej, importData_rejects. by left. }
  destruct (JS.newMap d) as [m|] eqn:Hm.
  - rewrite (importData_unfold _ _ _ Hm).
    destruct Hok as (Hc & Hd & Hnd & Hv).
    destruct (afterImport_run (imported m st)) as (st2 & Hdata & ->); [done|].
    cbn [final].
    assert (Hcore : core (setLog
                            (log st2 ++ [Persist; Notify PatternsImported success])
                            (setHist
                               (History.saveToHistory (snapshot st2) (hist st2))
                               st2))
                    = core (imported m st))
      by (rewrite <- (data_core _ _ Hdata); reflexivity).
    apply (bankOk_core _ _ Hcore).
    split; [done|]. split; [by apply (distinct_newMap d)|].
    split; [apply NoDup_nil_2|done].
  - apply Hrej, importData_rejects. right. by exists d.
Qed.

End BankInvariant.

(** X8.  Saving, deleting, mixing and importing saved patterns, in any
    order, keep the bank and its selection in order: what is selected is in
    the bank and has code.  The guard [pattern && pattern.code] of the mixer
    is then never the reason a selected pattern is left out. *)
Theorem bank_keeps_selection_usable (ops : list bankOp) (st : Strudel.state) :
  bankOk st ->
  let st' := fold_left (fun st op => bankStep op st) ops st in
  bankOk st'
  /\ forall name,
       JS.flag name (Strudel.saved (Strudel.mixedPatterns st')) = true ->
       savedPart st' name
       = [JS.field "code" (JS.mapGet (JS.Str name) (Strudel.savedPatterns st'))].
Proof.
  intros Hok st'.
  assert (H : bankOk st').
  { subst st'. revert st Hok. induction ops as [|op ops IH]; intros st Hok;
      [done|].
    simpl. apply IH.
    destruct op; [by apply bankOk_save|by apply bankOk_delete
                 |by apply bankOk_mix|by apply bankOk_import]. }
  split; [done|].
  intros name Hf. destruct H as (_ & _ & _ & Hv).
  pose proof (proj1 (selectionValid_spec st') Hv name Hf) as Hu.
  unfold savedPart. rewrite Hf. unfold usable in Hu. by rewrite Hu.
Qed.

Lemma bank_keeps_selection_usable_witness :
  let st := Strudel.setEditor "s('bd*4')" Strudel.initial in
  let st' := fold_left (fun st op => bankStep op st)
               [Save "P"; MixSaved "P"; Save " Q "; Delete "P"; MixSaved "Q"]
               st in
  bankOk st'
  /\ Strudel.saved (Strudel.mixedPatterns st') = [("Q", true)].
Proof.
  intros st.
  assert (Hok : bankOk st).
  { split; [reflexivity|]. split; [reflexivity|].
    split; [apply (bool_decide_unpack _); vm_compute; exact I|reflexivity]. }
  split; [exact (proj1 (bank_keeps_selection_usable _ st Hok))|].
  by vm_compute.
Defined.



(** ** Export and import *)

Lemma clone_json (v : JS.value) : isJSON v = true -> JS.clone v = v.
Proof.
  revert v. fix IH 1.
  intros [ | | b | t | s | items | fs]; cbn [isJSON JS.clone]; try done.
  - by intros ->.
  - intros H. f_equal.
    induction items as [|x items IHl]; [done|].
    cbn [forallb List.map] in *. apply andb_prop in H as [Hx H].
    rewrite IHl by done. f_equal.
    rewrite (IH x Hx). by destruct x.
  - intros H. f_equal.
    induction fs as [|[k x] fs IHl]; [done|].
    cbn [forallb] in H. apply andb_prop in H as [Hx H].
    rewrite IHl by done.
    rewrite (IH x Hx). by destruct x.
Qed.

Lemma distinct_app_absent (done_ l : JS.Map) (k v : JS.value) :
  distinct (done_ ++ (k, v) :: l) = true -> JS.mapHas k done_ = false.
Proof.
  induction done_ as [|[k1 v1] done_ IH]; [done|].
  cbn [app distinct JS.mapHas]. intros H. apply andb_prop in H as [H1 H2].
  rewrite (IH H2), orb_false_r. apply negb_true_iff in H1.
  rewrite same_sym. clear -H1.
  induction done_ as [|[k2 v2] done_ IH]; cbn [app JS.mapHas] in H1.
  - by apply orb_false_elim in H1 as [H1 _].
  - apply orb_false_elim in H1 as [_ H1]. by apply IH.
Qed.

Lemma addEntries_entries (l done_ : JS.Map) :
  distinct (done_ ++ l) = true ->
  addEntries (JS.entries l) (Some done_) = Some (done_ ++ l).
Proof.
  revert done_. induction l as [|[k v] l IH]; intros done_ Hd.
  - by rewrite app_nil_r.
  - cbn [JS.entries List.map addEntries fold_left JS.isObject JS.entryAt
         lookup list_lookup fst snd].
    rewrite mapSet_absent by (by apply distinct_app_absent in Hd).
    fold (addEntries (List.map (fun e => JS.Arr [e.1; e.2]) l)
            (Some (done_ ++ [(k, v)]))).
    fold (JS.entries l). rewrite IH; rewrite <- app_assoc; done.
Qed.

Lemma exported_bank (bank : JS.Map) :
  bankIsJSON bank = true ->
  StrudelOps.exported bank = JS.Arr (JS.entries bank).
Proof.
  intros H. unfold StrudelOps.exported. apply clone_json.
  cbn [isJSON]. unfold JS.entries. rewrite forallb_forall.
  intros e He. apply in_map_iff in He as ([k v] & <- & Hin).
  unfold bankIsJSON in H. rewrite forallb_forall in H.
  specialize (H _ Hin). cbn [isJSON forallb fst snd]. cbn beta iota in H.
  by rewrite andb_true_r.
Qed.

Lemma importPatterns_run st data m :
  JS.newMap data = Some m ->
  configured st = true ->
  exists st',
    Strudel.importPatterns (Some (Strudel.Parsed data)) st = Monad.Done tt st'
    /\ core st' = core (imported m st).
Proof.
  intros Hm Hc. unfold Strudel.importPatterns, Monad.try.
  rewrite (importData_unfold _ _ _ Hm).
  destruct (afterImport_run (imported m st)) as (st2 & Hdata & ->); [done|].
  eexists. split; [reflexivity|].
  rewrite <- (data_core _ _ Hdata). reflexivity.
Qed.

(** X10.  The file [exportPatterns] writes, handed to [importPatterns],
    brings the bank back entry for entry and in the same order, in whatever
    state the import happens, and empties the selection of saved patterns. *)
Theorem export_then_import (st st2 : Strudel.state) :
  distinct (Strudel.savedPatterns st) = true ->
  bankIsJSON (Strudel.savedPatterns st) = true ->
  configured st2 = true ->
  exists file st',
    StrudelOps.exportPatterns st
    = Monad.Done (file, (StrudelOps.PatternsExported, success)) st
    /\ Strudel.importPatterns (Some (Strudel.Parsed file)) st2
       = Monad.Done tt st'
    /\ Strudel.savedPatterns st' = Strudel.savedPatterns st
    /\ Strudel.saved (Strudel.mixedPatterns st') = [].
Proof.
  intros Hd Hj Hc.
  exists (StrudelOps.exported (Strudel.savedPatterns st)).
  assert (Hm : JS.newMap (StrudelOps.exported (Strudel.savedPatterns st))
               = Some (Strudel.savedPatterns st)).
  { rewrite (exported_bank _ Hj), newMap_Arr. by apply (addEntries_entries _ []). }
  destruct (importPatterns_run st2 _ _ Hm Hc) as (st' & Hrun & Hcore).
  exists st'. split; [done|]. split; [done|].
  destruct (core_parts _ _ Hcore) as (_ & _ & _ & H4 & H5).
  by rewrite H4, H5.
Qed.

Lemma export_then_import_witness :
  let st := Strudel.setSavedPatterns
              [(JS.Str "P", JS.Obj [("code", JS.Str "s('bd*4')")]);
               (JS.Str "Q", JS.Obj [("code", JS.Str "s('hh*8')")])]
              Strudel.initial in
  exists file st',
    StrudelOps.exportPatterns st
    = Monad.Done (file, (StrudelOps.PatternsExported, success)) st
    /\ Strudel.importPatterns (Some (Strudel.Parsed file)) Strudel.initial
       = Monad.Done tt st'
    /\ Strudel.savedPatterns st' = Strudel.savedPatterns st
    /\ Strudel.saved (Strudel.mixedPatterns st') = [].
Proof.
  intros st.
  apply (export_then_import st Strudel.initial); reflexivity.
Defined.

(** ** Adding and removing tracks *)

Section TrackRuns.

Import Monad Strudel StrudelOps.

Lemma configured_spec st :
  configured st = true
  <-> (forall t, In t (getTracks st) -> is_Some (JS.get t (trackStates st))).
Proof.
  unfold configured. rewrite forallb_forall. split.
  - intros H t Ht. specialize (H t Ht).
    by destruct (JS.get t (trackStates st)).
  - intros H t Ht. by destruct (H t Ht) as [c ->].
Qed.

Lemma configured_added st : configured st = true -> configured (added st) = true.
Proof.
  rewrite !configured_spec. intros H t. unfold added, getTracks. cbn.
  fold (getTracks st). set (newKey := trackName (length (getTracks st))).
  intros Ht. destruct (String.eqb_spec newKey t) as [<-|Hne].
  - rewrite get_set_eq. by eexists.
  - rewrite get_set_ne by done. apply H.
    apply get_keys. apply get_keys in Ht. by rewrite get_set_ne in Ht.
Qed.

Lemma adjustSequencerGrid_run st :
  configured st = true -> adjustSequencerGrid st = Done tt st.
Proof.
  intros Hc. unfold adjustSequencerGrid.
  rewrite (bind_run _ _ _ (getTracks st) st) by done.
  by apply redraw_run.
Qed.

Lemma addTrack_run st :
  configured st = true ->
  addTrack st
  = Done (TrackAdded (trackName (length (getTracks st))), success)
      (setLog (log st ++ [Persist]) (added st)).
Proof.
  intros Hc. unfold addTrack.
  unfold bind at 1. unfold saveToHistory at 1. unfold modify at 1.
  rewrite (bind_run _ _ _ (length (getTracks st)) _) by done.
  cbv zeta. fold (trackName (length (getTracks st))).
  unfold bind at 1. unfold modify at 1.
  unfold bind at 1. unfold modify at 1.
  fold (added st).
  assert (Hnew : JS.get (trackName (length (getTracks st)))
                   (trackStates (added st))
                 = Some (TrackState false false 8 "bd"))
    by (unfold added; cbn; apply get_set_eq).
  unfold createTrackHTML.
  rewrite (bind_run _ _ _ tt (added st))
    by (by rewrite (bind_run _ _ _ _ _ (config_run _ _ _ Hnew))).
  rewrite (bind_run _ _ _ _ _ (updateSequencerTrack_run _ _ _ Hnew)).
  rewrite (bind_run _ _ _ _ _
             (adjustSequencerGrid_run _ (configured_added _ Hc))).
  reflexivity.
Qed.

Lemma removeTrack_refuses st :
  length (getTracks st) <= 4 -> removeTrack st = Done (OriginalTracks, error) st.
Proof.
  intros H. unfold removeTrack.
  rewrite (bind_run _ _ _ (getTracks st) st) by done.
  by destruct (Nat.leb_spec (length (getTracks st)) 4); [|lia].
Qed.

Lemma removeTrack_run st :
  4 < length (getTracks st) ->
  configured (removed st) = true ->
  removeTrack st
  = Done (TrackRemoved (lastOf (getTracks st)), success)
      (setLog (log st ++ [Persist])
         (setHist
            (History.saveToHistory (snapshot (removed st)) (hist st))
            (removed st))).
Proof.
  intros H Hc. unfold removeTrack.
  rewrite (bind_run _ _ _ (getTracks st) st) by done.
  destruct (Nat.leb_spec (length (getTracks st)) 4); [lia|].
  cbv zeta.
  unfold bind at 1. unfold modify at 1.
  unfold bind at 1. unfold modify at 1.
  unfold bind at 1. unfold gets at 1.
  assert (E : forall (k : M state notice) st1,
             (let* _ := (if JS.flag (lastOf (getTracks st))
                              (tracks (mixedPatterns st1))
                         then modify (fun s =>
                                setTracks
                                  (JS.remove (lastOf (getTracks st))
                                     (tracks (mixedPatterns s))) s)
                         else ret tt) in k) st1
             = k (if JS.flag (lastOf (getTracks st)) (tracks (mixedPatterns st1))
                  then setTracks
                         (JS.remove (lastOf (getTracks st))
                            (tracks (mixedPatterns st1))) st1
                  else st1)).
  { intros k st1. unfold bind. by destruct (JS.flag _ _). }
  rewrite E. clear E. fold (removed st).
  unfold bind at 1. unfold saveToHistory at 1. unfold modify at 1.
  rewrite (bind_run _ _ _ tt
             (setHist (History.saveToHistory (snapshot (removed st))
                         (hist (removed st))) (removed st)))
    by (by apply adjustSequencerGrid_run).
  assert (Hh : hist (removed st) = hist st)
    by (unfold removed; cbv zeta; by destruct (JS.flag _ _)).
  assert (Hl : log (removed st) = log st)
    by (unfold removed; cbv zeta; by destruct (JS.flag _ _)).
  unfold bind, saveToLocalStorage, emit, modify, ret. cbn. by rewrite Hh, Hl.
Qed.

End TrackRuns.

Lemma remove_app_last {A} (o : JS.obj A) (k : string) (v : A) :
  JS.get k o = None -> JS.remove k (o ++ [(k, v)]) = o.
Proof.
  induction o as [|[k1 v1] o IH]; simpl.
  - by rewrite String.eqb_refl.
  - destruct (String.eqb_spec k k1); [done|]. intros H. by rewrite IH.
Qed.

Lemma lastOf_snoc (l : list string) (k : string) :
  StrudelOps.lastOf (l ++ [k]) = k.
Proof. apply last_last. Qed.

Section TrackRoundTrip.

Import Monad Strudel StrudelOps.

Lemma removed_parts st :
  sequencerState (removed st)
  = JS.remove (lastOf (getTracks st)) (sequencerState st)
  /\ trackStates (removed st)
     = JS.remove (lastOf (getTracks st)) (trackStates st)
  /\ editor (removed st) = editor st
  /\ savedPatterns (removed st) = savedPatterns st.
Proof. unfold removed. cbv zeta. by destruct (JS.flag _ _). Qed.

Lemma configured_parts st st' :
  sequencerState st' = sequencerState st ->
  trackStates st' = trackStates st ->
  configured st' = configured st.
Proof. intros H1 H2. unfold configured, getTracks. by rewrite H1, H2. Qed.

End TrackRoundTrip.

(** X11.  [addTrack] appends a track named after the number of tracks, with
    eight inactive steps and the sound "bd", and leaves the other tracks
    alone; a [removeTrack] right after it takes that track away again and
    the two dictionaries of tracks are as before. *)
Theorem removeTrack_undoes_addTrack (st : Strudel.state) :
  let newKey := trackName (length (Strudel.getTracks st)) in
  configured st = true ->
  4 <= length (Strudel.getTracks st) ->
  JS.get newKey (Strudel.sequencerState st) = None ->
  JS.get newKey (Strudel.trackStates st) = None ->
  exists st1 st2,
    StrudelOps.addTrack st
    = Monad.Done (StrudelOps.TrackAdded newKey, success) st1
    /\ Strudel.sequencerState st1
       = Strudel.sequencerState st ++ [(newKey, JS.filled 8)]
    /\ Strudel.trackStates st1
       = Strudel.trackStates st ++ [(newKey, TrackState false false 8 "bd")]
    /\ StrudelOps.removeTrack st1
       = Monad.Done (StrudelOps.TrackRemoved newKey, success) st2
    /\ Strudel.sequencerState st2 = Strudel.sequencerState st
    /\ Strudel.trackStates st2 = Strudel.trackStates st
    /\ Strudel.editor st2 = Strudel.editor st.
Proof.
  intros newKey Hc Hlen Hs Ht.
  rewrite (addTrack_run _ Hc). fold newKey.
  set (st1 := Strudel.setLog _ (added st)).
  assert (E1 : Strudel.sequencerState st1
               = Strudel.sequencerState st ++ [(newKey, JS.filled 8)])
    by (subst st1; unfold added; cbn; fold newKey; by apply set_absent).
  assert (E2 : Strudel.trackStates st1
               = Strudel.trackStates st
                 ++ [(newKey, TrackState false false 8 "bd")])
    by (subst st1; unfold added; cbn; fold newKey; by apply set_absent).
  assert (Ek : Strudel.getTracks st1 = Strudel.getTracks st ++ [newKey])
    by (unfold Strudel.getTracks, JS.keys; by rewrite E1, List.map_app).
  destruct (removed_parts st1) as (R1 & R2 & R3 & _).
  rewrite Ek, lastOf_snoc, E1, remove_app_last in R1 by done.
  rewrite Ek, lastOf_snoc, E2, remove_app_last in R2 by done.
  assert (Hc1 : configured (removed st1) = true)
    by (by rewrite (configured_parts _ _ R1 R2)).
  exists st1. eexists. split; [done|]. split; [done|]. split; [done|].
  split.
  { rewrite removeTrack_run; [|rewrite Ek, length_app; simpl; lia|done].
    by rewrite Ek, lastOf_snoc. }
  cbn. by rewrite R1, R2, R3.
Qed.

Lemma removeTrack_undoes_addTrack_witness :
  exists st1 st2,
    StrudelOps.addTrack Strudel.initial
    = Monad.Done (StrudelOps.TrackAdded "track4", success) st1
    /\ Strudel.getTracks st1 = ["bd"; "sd"; "hh"; "cp"; "track4"]
    /\ StrudelOps.removeTrack st1
       = Monad.Done (StrudelOps.TrackRemoved "track4", success) st2
    /\ Strudel.sequencerState st2 = Strudel.sequencerState Strudel.initial
    /\ Strudel.trackStates st2 = Strudel.trackStates Strudel.initial.
Proof.
  destruct (removeTrack_undoes_addTrack Strudel.initial
              eq_refl ltac:(simpl; lia) eq_refl eq_refl)
    as (st1 & st2 & H1 & H2 & _ & H4 & H5 & H6 & _).
  exists st1, st2. split; [exact H1|].
  split; [unfold Strudel.getTracks; rewrite H2; reflexivity|].
  split; [exact H4|]. split; [exact H5|exact H6].
Defined.

Section StandardTracks.

Import Monad Strudel StrudelOps.

Lemma trackName_inj i j : trackName i = trackName j -> i = j.
Proof.
  unfold trackName. intros H. simpl in H. injection H as H.
  by apply (inj pretty).
Qed.

Lemma trackName_fresh k : ~ In (trackName (4 + k)) (standardTracks k).
Proof.
  unfold standardTracks. intros H. apply in_app_or in H as [H|H].
  - unfold trackName in H. simpl in H.
    destruct H as [H|[H|[H|[H|[]]]]]; discriminate H.
  - apply in_map_iff in H as (j & Hj & Hin).
    apply trackName_inj in Hj as ->. apply in_seq in Hin. lia.
Qed.

Lemma standardTracks_S k :
  standardTracks (S k) = standardTracks k ++ [trackName (4 + k)].
Proof.
  unfold standardTracks. by rewrite seq_S, List.map_app, app_assoc.
Qed.

Lemma length_standardTracks k : length (standardTracks k) = 4 + k.
Proof.
  unfold standardTracks. rewrite length_app, length_map, length_seq. done.
Qed.

Lemma standard_configured st : standard st -> configured st = true.
Proof.
  intros (k & H1 & H2). apply configured_spec. intros t Ht.
  apply get_keys. by rewrite H2, <- H1.
Qed.

Lemma keys_remove_last {A} (o : JS.obj A) (l : list string) (k : string) :
  JS.keys o = l ++ [k] -> ~ In k l -> JS.keys (JS.remove k o) = l.
Proof.
  revert l. induction o as [|[k1 v1] o IH]; intros l Hk Hn.
  - by destruct l.
  - destruct l as [|k2 l]; simpl in Hk; injection Hk as -> Hk.
    + simpl. rewrite String.eqb_refl. by destruct o.
    + simpl. destruct (String.eqb_spec k k2) as [->|Hne].
      * exfalso. apply Hn. by left.
      * simpl. f_equal. apply IH; [done|]. intros Hin. apply Hn. by right.
Qed.

Lemma standard_add st : standard st -> standard (trackStep AddTrack st).
Proof.
  intros Hst. pose proof (standard_configured _ Hst) as Hc.
  destruct Hst as (k & H1 & H2).
  cbn [trackStep]. rewrite (addTrack_run _ Hc). cbn [final].
  exists (S k). split.
  - change (JS.keys (JS.set (trackName (length (getTracks st))) (JS.filled 8)
                       (sequencerState st)) = standardTracks (S k)).
    rewrite H1, length_standardTracks, keys_set, get_absent.
    + fold (getTracks st). by rewrite H1, standardTracks_S.
    + fold (getTracks st). rewrite H1. apply trackName_fresh.
  - change (JS.keys (JS.set (trackName (length (getTracks st)))
                       (TrackState false false 8 "bd") (trackStates st))
            = standardTracks (S k)).
    rewrite H1, length_standardTracks, keys_set, get_absent.
    + by rewrite H2, standardTracks_S.
    + rewrite H2. apply trackName_fresh.
Qed.

Lemma standard_remove st : standard st -> standard (trackStep RemoveTrack st).
Proof.
  intros Hst. pose proof Hst as (k & H1 & H2).
  cbn [trackStep]. destruct k as [|k].
  - rewrite removeTrack_refuses; [done|].
    rewrite H1, length_standardTracks. lia.
  - destruct (removed_parts st) as (R1 & R2 & _).
    rewrite H1, standardTracks_S, lastOf_snoc in R1, R2.
    assert (K1 : JS.keys (sequencerState (removed st)) = standardTracks k).
    { rewrite R1. apply keys_remove_last; [|apply trackName_fresh].
      fold (getTracks st). by rewrite H1, standardTracks_S. }
    assert (K2 : JS.keys (trackStates (removed st)) = standardTracks k).
    { rewrite R2. apply keys_remove_last; [|apply trackName_fresh].
      by rewrite H2, standardTracks_S. }
    assert (Hr : standard (removed st)) by (by exists k).
    rewrite removeTrack_run;
      [|rewrite H1, length_standardTracks; lia|by apply standard_configured].
    cbn [final]. by exists k.
Qed.

End StandardTracks.

(** X12.  From the four tracks of the constructor, any sequence of
    [addTrack] and [removeTrack] leaves the four original tracks in front,
    followed by "track4", "track5", ... without a gap; every track has its
    entry in [trackStates], and the key [addTrack] would take next is
    free. *)
Theorem tracks_stay_standard (ops : list trackOp) (st : Strudel.state) :
  standard st ->
  let st' := fold_left (fun st op => trackStep op st) ops st in
  exists k,
    Strudel.getTracks st' = standardTracks k
    /\ JS.keys (Strudel.trackStates st') = standardTracks k
    /\ take 4 (Strudel.getTracks st') = ["bd"; "sd"; "hh"; "cp"]
    /\ configured st' = true
    /\ JS.get (trackName (length (Strudel.getTracks st')))
         (Strudel.sequencerState st') = None.
Proof.
  intros Hst st'.
  assert (H : standard st').
  { subst st'. revert st Hst. induction ops as [|op ops IH]; intros st Hst;
      [done|].
    simpl. apply IH. destruct op; [by apply standard_add|by apply standard_remove]. }
  pose proof (standard_configured _ H) as Hc.
  destruct H as (k & H1 & H2). exists k.
  split; [done|]. split; [done|]. split; [by rewrite H1|]. split; [done|].
  apply get_absent. fold (Strudel.getTracks st').
  rewrite H1, length_standardTracks. apply trackName_fresh.
Qed.

Lemma tracks_stay_standard_witness :
  let st' := fold_left (fun st op => trackStep op st)
               [AddTrack; AddTrack; RemoveTrack; RemoveTrack; RemoveTrack;
                AddTrack] Strudel.initial in
  Strudel.getTracks st' = ["bd"; "sd"; "hh"; "cp"; "track4"]
  /\ exists k,
      Strudel.getTracks st' = standardTracks k
      /\ JS.keys (Strudel.trackStates st') = standardTracks k
      /\ take 4 (Strudel.getTracks st') = ["bd"; "sd"; "hh"; "cp"]
      /\ configured st' = true
      /\ JS.get (trackName (length (Strudel.getTracks st')))
           (Strudel.sequencerState st') = None.
Proof.
  split; [by vm_compute|].
  apply (tracks_stay_standard _ Strudel.initial).
  exists 0. split; reflexivity.
Defined.

(** ** Clearing the sequencer *)

Section Clearing.

Import Monad Strudel StrudelOps.

Lemma clearTrack_run st track c :
  JS.get track (trackStates st) = Some c ->
  clearTrack track st = Done tt (clearedTrack track st).
Proof.
  intros H. unfold clearTrack, clearedTrack. rewrite H.
  rewrite (bind_run _ _ _ _ _ (config_run _ _ _ H)).
  unfold bind at 1. unfold modify at 1.
  rewrite (bind_run _ _ _ tt _) by (by apply updateSequencerUI_run with c).
  reflexivity.
Qed.

Lemma clearedTrack_trackStates track st :
  trackStates (clearedTrack track st) = trackStates st.
Proof. unfold clearedTrack. by destruct (JS.get _ _). Qed.

Lemma cleared_trackStates ids st : trackStates (cleared ids st) = trackStates st.
Proof.
  revert st. induction ids as [|t ids IH]; intros st; [done|].
  simpl. change (trackStates (cleared ids (clearedTrack t st)) = trackStates st).
  by rewrite IH, clearedTrack_trackStates.
Qed.

Lemma clearLoop_run ids st :
  (forall t, In t ids -> is_Some (JS.get t (trackStates st))) ->
  forEach ids clearTrack st = Done tt (cleared ids st).
Proof.
  revert st. induction ids as [|t ids IH]; intros st H; [done|].
  destruct (H t (or_introl eq_refl)) as [c Hc].
  cbn [forEach]. rewrite (bind_run _ _ _ _ _ (clearTrack_run _ _ _ Hc)).
  apply IH. intros t' Ht'. rewrite clearedTrack_trackStates. apply H. by right.
Qed.

Lemma clearedTrack_untouched track st :
  untouched (clearedTrack track st) = untouched st.
Proof. unfold clearedTrack. by destruct (JS.get _ _). Qed.

Lemma cleared_untouched ids st : untouched (cleared ids st) = untouched st.
Proof.
  revert st. induction ids as [|t ids IH]; intros st; [done|].
  change (untouched (cleared ids (clearedTrack t st)) = untouched st).
  by rewrite IH, clearedTrack_untouched.
Qed.

Lemma cleared_grid_out ids st t :
  ~ In t ids ->
  JS.get t (sequencerState (cleared ids st)) = JS.get t (sequencerState st)
  /\ JS.flag t (tracks (mixedPatterns (cleared ids st)))
     = JS.flag t (tracks (mixedPatterns st)).
Proof.
  revert st. induction ids as [|x ids IH]; intros st Hn; [done|].
  change (cleared (x :: ids) st) with (cleared ids (clearedTrack x st)).
  destruct (IH (clearedTrack x st)) as [-> ->]; [intros ?; apply Hn; by right|].
  assert (Hx : x <> t) by (intros ->; apply Hn; by left).
  unfold clearedTrack. destruct (JS.get x (trackStates st)); [|done].
  cbn. by rewrite get_set_ne, flag_set_ne.
Qed.

Lemma cleared_grid_in ids st t c :
  In t ids -> JS.get t (trackStates st) = Some c ->
  JS.get t (sequencerState (cleared ids st)) = Some (JS.filled (steps c))
  /\ JS.flag t (tracks (mixedPatterns (cleared ids st))) = false.
Proof.
  revert st. induction ids as [|x ids IH]; intros st Hin Hc; [done|].
  change (cleared (x :: ids) st) with (cleared ids (clearedTrack x st)).
  destruct (in_dec string_dec t ids) as [Hi|Hni].
  - apply IH; [done|]. by rewrite clearedTrack_trackStates.
  - destruct Hin as [->|Hin]; [|done].
    destruct (cleared_grid_out ids (clearedTrack t st) t Hni) as [-> ->].
    unfold clearedTrack. rewrite Hc. cbn. by rewrite get_set_eq, flag_set_eq.
Qed.

Lemma cleared_keys ids st :
  (forall t, In t ids -> In t (getTracks st)) ->
  getTracks (cleared ids st) = getTracks st.
Proof.
  revert st. induction ids as [|x ids IH]; intros st H; [done|].
  change (cleared (x :: ids) st) with (cleared ids (clearedTrack x st)).
  assert (E : getTracks (clearedTrack x st) = getTracks st).
  { unfold clearedTrack. destruct (JS.get x (trackStates st)); [|done].
    unfold getTracks. cbn [sequencerState setTracks setMixedPatterns
                            setSequencerState].
    apply keys_set_present. apply get_keys. apply H. by left. }
  rewrite IH; [done|]. intros t Ht. rewrite E. apply H. by right.
Qed.

End Clearing.

Lemma flat_map_empty {A B} (f : A -> list B) (l : list A) :
  (forall x, In x l -> f x = []) -> flat_map f l = [].
Proof.
  induction l as [|x l IH]; intros H; [done|].
  simpl. rewrite (H x) by (by left). apply IH. intros; apply H; by right.
Qed.

(** X13.  [clearSequencer] gives every track as many steps as its step
    count says, all inactive, takes every track and every saved pattern out
    of the selection and keeps the selection of presets; the editor receives
    what the selected presets give. *)
Theorem clearSequencer_clears (st : Strudel.state) :
  configured st = true ->
  exists st',
    StrudelOps.clearSequencer st
    = Monad.Done (StrudelOps.SequencerCleared, success) st'
    /\ Strudel.getTracks st' = Strudel.getTracks st
    /\ Strudel.trackStates st' = Strudel.trackStates st
    /\ (forall t c,
          In t (Strudel.getTracks st) ->
          JS.get t (Strudel.trackStates st) = Some c ->
          JS.get t (Strudel.sequencerState st') = Some (JS.filled (steps c))
          /\ JS.flag t (Strudel.tracks (Strudel.mixedPatterns st')) = false)
    /\ Strudel.saved (Strudel.mixedPatterns st') = []
    /\ Strudel.presets (Strudel.mixedPatterns st')
       = Strudel.presets (Strudel.mixedPatterns st)
    /\ Strudel.savedPatterns st' = Strudel.savedPatterns st
    /\ patternsOf st'
       = flat_map (presetPart st)
           (JS.keys (Strudel.presets (Strudel.mixedPatterns st)))
    /\ Strudel.editor st' = mixedText st'.
Proof.
  intros Hc. unfold StrudelOps.clearSequencer.
  rewrite (bind_run _ _ _ (Strudel.getTracks st) st) by done.
  rewrite (bind_run _ _ _ _ _
             (clearLoop_run _ _ (proj1 (configured_spec st) Hc))).
  unfold Monad.bind at 1. unfold Monad.modify at 1.
  set (st1 := StrudelOps.setSaved [] (cleared (Strudel.getTracks st) st)).
  pose proof (cleared_untouched (Strudel.getTracks st) st) as Hun.
  unfold untouched in Hun. injection Hun as U1 U2 U3 U4 U5 U6 U7 U8 U9.
  assert (Hk : Strudel.getTracks st1 = Strudel.getTracks st)
    by (apply cleared_keys; auto).
  assert (Hc1 : configured st1 = true).
  { apply configured_spec. intros t Ht. rewrite Hk in Ht.
    change (Strudel.trackStates st1)
      with (Strudel.trackStates (cleared (Strudel.getTracks st) st)).
    rewrite U1. by apply configured_spec. }
  destruct (updateMixedCode_done st1 Hc1) as (st2 & Hu & Hd & He).
  rewrite (bind_run _ _ _ _ _ Hu).
  eexists. split; [reflexivity|].
  set (stF := Strudel.setLog _ st2).
  assert (Hcore : core stF = core st1) by (by apply data_core).
  destruct (core_parts _ _ Hcore) as (H1 & H2 & H3 & H4 & H5).
  assert (Hg : forall t c,
             In t (Strudel.getTracks st) ->
             JS.get t (Strudel.trackStates st) = Some c ->
             JS.get t (Strudel.sequencerState stF) = Some (JS.filled (steps c))
             /\ JS.flag t (Strudel.tracks (Strudel.mixedPatterns stF)) = false).
  { intros t c Ht Hcfg. rewrite H1, H4.
    by apply (cleared_grid_in (Strudel.getTracks st) st t c). }
  assert (Hp : patternsOf stF
               = flat_map (presetPart st)
                   (JS.keys (Strudel.presets (Strudel.mixedPatterns st)))).
  { unfold patternsOf.
    replace (flat_map (trackPart stF) (Strudel.getTracks stF)) with
      (@nil JS.value).
    - rewrite H4. cbn [Strudel.saved Strudel.presets Strudel.mixedPatterns
                       StrudelOps.setSaved Strudel.setMixedPatterns st1].
      cbn [flat_map JS.keys List.map]. rewrite app_nil_r. cbn [app].
      unfold presetPart. rewrite H4.
      cbn [Strudel.presets Strudel.mixedPatterns StrudelOps.setSaved
           Strudel.setMixedPatterns st1]. by rewrite U3.
    - symmetry. apply flat_map_empty. intros t Ht.
      unfold Strudel.getTracks in Ht. rewrite H1 in Ht.
      fold (Strudel.getTracks st1) in Ht. rewrite Hk in Ht.
      destruct (proj1 (configured_spec st) Hc t Ht) as [c Hcfg].
      destruct (Hg t c Ht Hcfg) as [_ Hf].
      unfold trackPart. by rewrite Hf. }
  split; [unfold Strudel.getTracks; by rewrite H1|].
  split; [by rewrite H2|]. split; [done|].
  split; [by rewrite H4|]. split; [rewrite H4; exact U3|].
  split; [rewrite H5; exact U5|]. split; [done|].
  change (Strudel.editor stF) with (Strudel.editor st2).
  rewrite He. symmetry. by apply mixedText_core.
Qed.

Lemma clearSequencer_clears_witness :
  let st := Strudel.setMixedPatterns
              (Strudel.Mix [("a", true)] [("bd", true)] [])
              (Strudel.setSequencerState
                 [("bd", List.map JS.Step [true; false; true; false]);
                  ("sd", JS.filled 8); ("hh", JS.filled 8); ("cp", JS.filled 8)]
                 Strudel.initial) in
  exists st',
    StrudelOps.clearSequencer st
    = Monad.Done (StrudelOps.SequencerCleared, success) st'
    /\ JS.get "bd" (Strudel.sequencerState st') = Some (JS.filled 8)
    /\ Strudel.editor st'
       = "setCps(120/60/4)" +:+ JS.nl +:+ "s('bd,bass(4,8)').jux(rev).gain(0.8)".
Proof.
  intros st.
  destruct (clearSequencer_clears st eq_refl) as (st' & H1 & _).
  exists st'. split; [exact H1|].
  assert (E : Monad.final (StrudelOps.clearSequencer st) = st')
    by (by rewrite H1).
  rewrite <- E. by vm_compute.
Defined.

(** ** The mix buttons of tracks and presets *)

Section MixButtons.

Import Monad Strudel StrudelOps.

(** The common end of [mixTrack] and [mixPreset]: recompose, push, and
    report what the selection entry [read] has become. *)
Lemma remix_run (read : state -> bool) (say : bool -> message) st :
  configured st = true ->
  (forall st', core st' = core st -> read st' = read st) ->
  exists st',
    (let* _ := updateMixedCode in
     let* _ := saveToHistory in
     let* on := gets read in
     ret (say on, success)) st
    = Done (say (read st), success) st'
    /\ core st' = core st
    /\ editor st' = mixedText st'
    /\ hist st' = History.saveToHistory (snapshot st') (hist st).
Proof.
  intros Hc Hread.
  destruct (updateMixedCode_done st Hc) as (st2 & Hu & Hd & He).
  rewrite (bind_run _ _ _ _ _ Hu).
  pose proof (data_core _ _ Hd) as Hcore.
  destruct (data_parts _ _ Hd) as (_ & _ & _ & _ & _ & Hh).
  exists (setHist (History.saveToHistory (snapshot st2) (hist st2)) st2).
  split.
  { unfold bind, saveToHistory, modify, gets, ret.
    by rewrite (Hread (setHist (History.saveToHistory (snapshot st2) (hist st2))
                         st2) Hcore). }
  split; [done|].
  split.
  - change (editor st2 = mixedText
              (setHist (History.saveToHistory (snapshot st2) (hist st2)) st2)).
    rewrite He. symmetry. by apply mixedText_core.
  - cbn [hist setHist]. by rewrite Hh.
Qed.

Lemma mixTrack_unfold st track c arr :
  JS.get track (trackStates st) = Some c ->
  JS.get track (sequencerState st) = Some arr ->
  silenced (trackStates st) c = false ->
  existsb JS.active (JS.slice0 (steps c) arr) = true ->
  mixTrack track st
  = (let* _ := updateMixedCode in
     let* _ := saveToHistory in
     let* on := gets (fun st => JS.flag track (tracks (mixedPatterns st))) in
     ret (TrackMixed track on, success)) (trackToggled track st).
Proof.
  intros Hc Ha Hs Hx. unfold mixTrack.
  unfold bind at 1. unfold gets at 1.
  rewrite (bind_run _ _ _ _ _ (config_run _ _ _ Hc)). rewrite Hs.
  rewrite (bind_run _ _ _ _ _ (grid_run _ _ _ Ha)). cbv zeta.
  rewrite includes_stepMask, Hx. reflexivity.
Qed.

Lemma mixTrack_silent st track c :
  JS.get track (trackStates st) = Some c ->
  silenced (trackStates st) c = true ->
  mixTrack track st = Done (TrackSilent track, error) st.
Proof.
  intros Hc Hs. unfold mixTrack. unfold bind at 1. unfold gets at 1.
  rewrite (bind_run _ _ _ _ _ (config_run _ _ _ Hc)). by rewrite Hs.
Qed.

Lemma mixTrack_empty st track c arr :
  JS.get track (trackStates st) = Some c ->
  JS.get track (sequencerState st) = Some arr ->
  silenced (trackStates st) c = false ->
  existsb JS.active (JS.slice0 (steps c) arr) = false ->
  mixTrack track st = Done (TrackEmpty track, error) st.
Proof.
  intros Hc Ha Hs Hx. unfold mixTrack. unfold bind at 1. unfold gets at 1.
  rewrite (bind_run _ _ _ _ _ (config_run _ _ _ Hc)). rewrite Hs.
  rewrite (bind_run _ _ _ _ _ (grid_run _ _ _ Ha)). cbv zeta.
  by rewrite includes_stepMask, Hx.
Qed.




End MixButtons.

(** X14.  [mixTrack(track)] refuses a track that is muted, or not soloed
    while another is, and a track without an active step among its first
    [steps] entries; it then changes nothing.  Otherwise it negates the
    selection entry of the track and of no other, recomposes the editor and
    pushes the result on the undo stack; a track it has just selected
    contributes its code to the mix. *)
Theorem mixTrack_checks (st : Strudel.state) (track : string)
    (c : trackState) (arr : list JS.slot) :
  configured st = true ->
  JS.get track (Strudel.trackStates st) = Some c ->
  JS.get track (Strudel.sequencerState st) = Some arr ->
  if Strudel.silenced (Strudel.trackStates st) c
  then StrudelOps.mixTrack track st
       = Monad.Done (StrudelOps.TrackSilent track, error) st
  else if negb (existsb JS.active (take (steps c) arr))
  then StrudelOps.mixTrack track st
       = Monad.Done (StrudelOps.TrackEmpty track, error) st
  else exists st',
      let was := JS.flag track (Strudel.tracks (Strudel.mixedPatterns st)) in
      StrudelOps.mixTrack track st
      = Monad.Done (StrudelOps.TrackMixed track (negb was), success) st'
      /\ JS.flag track (Strudel.tracks (Strudel.mixedPatterns st')) = negb was
      /\ (forall t, t <> track ->
            JS.get t (Strudel.tracks (Strudel.mixedPatterns st'))
            = JS.get t (Strudel.tracks (Strudel.mixedPatterns st)))
      /\ Strudel.sequencerState st' = Strudel.sequencerState st
      /\ Strudel.trackStates st' = Strudel.trackStates st
      /\ trackPart st' track
         = (if was then []
            else [JS.Str (Strudel.trackCode (sound c) (steps c)
                            (Strudel.stepMask (steps c) arr))])
      /\ Strudel.editor st' = mixedText st'
      /\ Strudel.hist st'
         = History.saveToHistory (Strudel.snapshot st') (Strudel.hist st).
Proof.
  intros Hc Hcfg Harr.
  destruct (Strudel.silenced _ _) eqn:Hs; [by apply mixTrack_silent with c|].
  destruct (existsb JS.active (take (steps c) arr)) eqn:Hx; cbn [negb];
    [|by apply mixTrack_empty with c arr].
  rewrite (mixTrack_unfold _ _ _ _ Hcfg Harr Hs Hx).
  destruct (remix_run
              (fun st => JS.flag track (Strudel.tracks (Strudel.mixedPatterns st)))
              (StrudelOps.TrackMixed track) (trackToggled track st))
    as (st' & Hrun & Hcore & He & Hh); [done| |].
  { intros s Hs'. destruct (core_parts _ _ Hs') as (_ & _ & _ & H4 & _).
    by rewrite H4. }
  exists st'. cbv zeta.
  destruct (core_parts _ _ Hcore) as (H1 & H2 & H3 & H4 & H5).
  assert (Hf : JS.flag track (Strudel.tracks (Strudel.mixedPatterns st'))
               = negb (JS.flag track
                         (Strudel.tracks (Strudel.mixedPatterns st))))
    by (rewrite H4; unfold trackToggled; cbn; apply flag_set_eq).
  split.
  { rewrite Hrun. do 3 f_equal. unfold trackToggled. cbn. apply flag_set_eq. }
  split; [done|].
  split.
  { intros t Ht. rewrite H4. unfold trackToggled. cbn. by apply get_set_ne. }
  split; [by rewrite H1|]. split; [by rewrite H2|].
  split; [|done].
  unfold trackPart. rewrite Hf, H1, H2.
  change (Strudel.sequencerState (trackToggled track st))
    with (Strudel.sequencerState st).
  change (Strudel.trackStates (trackToggled track st))
    with (Strudel.trackStates st).
  rewrite Hcfg, Harr, Hs, includes_stepMask. unfold JS.slice0. rewrite Hx.
  clear. by destruct (JS.flag track _).
Qed.

Lemma mixTrack_checks_witness :
  let st := Strudel.setSequencerState
              [("bd", List.map JS.Step [true; false; false; false;
                                        true; false; false; false]);
               ("sd", JS.filled 8); ("hh", JS.filled 8); ("cp", JS.filled 8)]
              Strudel.initial in
  StrudelOps.mixTrack "sd" st
  = Monad.Done (StrudelOps.TrackEmpty "sd", error) st
  /\ exists st',
      StrudelOps.mixTrack "bd" st
      = Monad.Done (StrudelOps.TrackMixed "bd" true, success) st'
      /\ Strudel.editor st'
         = "setCps(120/60/4)" +:+ JS.nl +:+ "s(" +:+ JS.dq +:+ "bd*8" +:+ JS.dq
           +:+ ").struct(" +:+ JS.dq +:+ "x ~ ~ ~ x ~ ~ ~" +:+ JS.dq
           +:+ ").gain(0.8)".
Proof.
  intros st. split.
  - exact (mixTrack_checks st "sd" (TrackState false false 8 "sd") (JS.filled 8)
             eq_refl eq_refl eq_refl).
  - destruct (mixTrack_checks st "bd" (TrackState false false 8 "bd")
                (List.map JS.Step [true; false; false; false;
                                   true; false; false; false])
                eq_refl eq_refl eq_refl) as (st' & H1 & _).
    exists st'. split; [exact H1|].
    assert (E : Monad.final (StrudelOps.mixTrack "bd" st) = st')
      by (by rewrite H1).
    rewrite <- E. by vm_compute.
Defined.



(** ** The generators and the mixer *)

Lemma flat_map_single {A B} (f : A -> list B) (l : list A) (x : A) :
  NoDup l -> In x l -> (forall y, In y l -> y <> x -> f y = []) ->
  flat_map f l = f x.
Proof.
  induction l as [|y l IH]; intros Hnd Hin H; [done|].
  apply NoDup_cons in Hnd as [Hy Hnd]. simpl.
  destruct Hin as [->|Hin].
  - rewrite (flat_map_empty f l); [by rewrite app_nil_r|].
    intros z Hz. apply H; [by right|].
    intros ->. apply Hy. by apply list_elem_of_In.
  - rewrite (H y); [|by left|intros ->; apply Hy; by apply list_elem_of_In].
    apply IH; [done|done|]. intros z Hz. apply H. by right.
Qed.

Section GeneratorFacts.

Import Monad Strudel.

Lemma patternsOf_core st st' :
  core st' = core st -> patternsOf st' = patternsOf st.
Proof.
  intros H. destruct (core_parts _ _ H) as (H1 & H2 & H3 & H4 & H5).
  unfold patternsOf, getTracks, trackPart, presetPart, savedPart.
  by rewrite H1, H2, H4, H5.
Qed.

Lemma afterGenerate_keeps_core track sound :
  keeps core (afterGenerate track sound).
Proof. keeps_auto. Qed.

Lemma generateTrackCode_silent st track c :
  JS.get track (trackStates st) = Some c ->
  silenced (trackStates st) c = true ->
  generateTrackCode track st
  = Done tt (setLog (log st ++ [Notify (MutedOrNotSoloed track) error]) st).
Proof.
  intros Hc Hs. unfold generateTrackCode. unfold bind at 1. unfold gets at 1.
  rewrite (bind_run _ _ _ _ _ (config_run _ _ _ Hc)). by rewrite Hs.
Qed.

Lemma generateTrackCode_empty st track c arr :
  JS.get track (trackStates st) = Some c ->
  JS.get track (sequencerState st) = Some arr ->
  silenced (trackStates st) c = false ->
  existsb JS.active (JS.slice0 (steps c) arr) = false ->
  generateTrackCode track st
  = Done tt (setLog (log st ++ [Notify (NoActiveSteps track) error]) st).
Proof.
  intros Hc Ha Hs Hx. unfold generateTrackCode.
  unfold bind at 1. unfold gets at 1.
  rewrite (bind_run _ _ _ _ _ (config_run _ _ _ Hc)). rewrite Hs.
  rewrite (bind_run _ _ _ _ _ (grid_run _ _ _ Ha)). cbv zeta.
  by rewrite includes_stepMask, Hx.
Qed.

End GeneratorFacts.

(** X16.  [generateTrackCode(track)] refuses a track that is muted, or not
    soloed while another is, and a track without an active step; it then
    only reports.  Otherwise the selection is reset to that one track, and
    the code written to the editor is what the mixer composes for the new
    selection: a later [updateMixedCode] finds the same patterns. *)
Theorem generateTrackCode_selects_alone (st : Strudel.state) (track : string)
    (c : trackState) (arr : list JS.slot) :
  NoDup (Strudel.getTracks st) ->
  JS.get track (Strudel.trackStates st) = Some c ->
  JS.get track (Strudel.sequencerState st) = Some arr ->
  let st' := Monad.final (Strudel.generateTrackCode track st) in
  let code := Strudel.trackCode (sound c) (steps c)
                (Strudel.stepMask (steps c) arr) in
  if Strudel.silenced (Strudel.trackStates st) c
  then Strudel.generateTrackCode track st
       = Monad.Done tt
           (Strudel.setLog
              (Strudel.log st ++ [Notify (Strudel.MutedOrNotSoloed track) error])
              st)
  else if negb (existsb JS.active (take (steps c) arr))
  then Strudel.generateTrackCode track st
       = Monad.Done tt
           (Strudel.setLog
              (Strudel.log st ++ [Notify (Strudel.NoActiveSteps track) error])
              st)
  else Monad.returned (Strudel.generateTrackCode track st) = true
       /\ Strudel.mixedPatterns st' = Strudel.Mix [] [(track, true)] []
       /\ patternsOf st' = [JS.Str code]
       /\ Strudel.editor st' = mixedText st'.
Proof.
  intros Hnd Hcfg Harr st' code. subst st'.
  destruct (Strudel.silenced _ _) eqn:Hs;
    [by apply generateTrackCode_silent with c|].
  destruct (existsb JS.active (take (steps c) arr)) eqn:Hx; cbn [negb];
    [|by apply generateTrackCode_empty with c arr].
  rewrite (generateTrackCode_unfold _ _ _ _ Hcfg Harr Hs Hx).
  set (st1 := Strudel.setMixedPatterns _ _).
  pose proof (afterGenerate_keeps_core track (sound c) st1) as Hcore.
  pose proof (afterGenerate_keeps_editor track (sound c) st1) as He.
  destruct (core_parts _ _ Hcore) as (_ & _ & H3 & H4 & _).
  assert (Hp : patternsOf st1 = [JS.Str code]).
  { unfold patternsOf. cbn [flat_map JS.keys List.map app Strudel.presets
                            Strudel.saved Strudel.mixedPatterns st1
                            Strudel.setMixedPatterns].
    rewrite app_nil_r.
    rewrite (flat_map_single _ _ track); [| done | |].
    - unfold trackPart.
      change (Strudel.trackStates st1) with (Strudel.trackStates st).
      change (Strudel.sequencerState st1) with (Strudel.sequencerState st).
      change (JS.flag track (Strudel.tracks (Strudel.mixedPatterns st1)))
        with (JS.flag track [(track, true)]).
      unfold JS.flag. cbn [JS.get]. rewrite String.eqb_refl.
      rewrite Hcfg, Harr, Hs, includes_stepMask. unfold JS.slice0.
      by rewrite Hx.
    - apply get_keys. by eexists.
    - intros t _ Ht. unfold trackPart.
      change (JS.flag t (Strudel.tracks (Strudel.mixedPatterns st1)))
        with (JS.flag t [(track, true)]).
      unfold JS.flag. cbn [JS.get].
      by destruct (String.eqb_spec t track). }
  split; [apply afterGenerate_total|].
  split; [by rewrite H4|].
  split; [by rewrite (patternsOf_core _ _ Hcore)|].
  rewrite He. unfold mixedText. rewrite (patternsOf_core _ _ Hcore), Hp, H3.
  change (Strudel.synthParams st1) with (Strudel.synthParams st).
  change (Strudel.editor st1)
    with (generatedCode (Strudel.synthParams st) c arr).
  unfold generatedCode, Strudel.withTempo. fold code.
  by destruct (Strudel.bpmEnabled _).
Qed.

Lemma generateTrackCode_selects_alone_witness :
  let grid := List.map JS.Step [true; false; true; false] in
  let st := Strudel.setMixedPatterns
              (Strudel.Mix [("a", true)] [("sd", true)] [])
              (Strudel.setTrackStates
                 [("bd", TrackState false false 4 "bd");
                  ("sd", TrackState true false 8 "sd")]
                 (Strudel.setSequencerState
                    [("bd", grid); ("sd", JS.filled 8)] Strudel.initial)) in
  let st' := Monad.final (Strudel.generateTrackCode "bd" st) in
  Strudel.mixedPatterns st' = Strudel.Mix [] [("bd", true)] []
  /\ Strudel.editor st' = mixedText st'
  /\ Strudel.generateTrackCode "sd" st
     = Monad.Done tt
         (Strudel.setLog
            (Strudel.log st ++ [Notify (Strudel.MutedOrNotSoloed "sd") error])
            st).
Proof.
  intros grid st st'.
  assert (Hnd : NoDup (Strudel.getTracks st))
    by (apply (bool_decide_unpack _); vm_compute; exact I).
  destruct (generateTrackCode_selects_alone st "bd"
              (TrackState false false 4 "bd") grid Hnd eq_refl eq_refl)
    as (_ & H2 & _ & H4).
  split; [exact H2|]. split; [exact H4|].
  exact (generateTrackCode_selects_alone st "sd"
           (TrackState true false 8 "sd") (JS.filled 8) Hnd eq_refl eq_refl).
Defined.

Lemma forEach_modify {S A} (l : list A) (g : A -> S -> S) (st : S) :
  Monad.forEach l (fun x => Monad.modify (g x)) st
  = Monad.Done tt (fold_left (fun st x => g x st) l st).
Proof.
  revert st. induction l as [|x l IH]; intros st; [done|].
  cbn [Monad.forEach fold_left]. unfold Monad.bind, Monad.modify at 1.
  apply IH.
Qed.

Lemma length_append (a b : string) :
  String.length (a +:+ b) = String.length a + String.length b.
Proof. induction a as [|c a IH]; simpl; [done|by rewrite IH]. Qed.

Lemma append_inj_r (p a b : string) : p +:+ a = p +:+ b -> a = b.
Proof. induction p as [|c p IH]; simpl; [done|]. intros [= H]. by apply IH. Qed.

Section SequencerCode.

Import Monad Strudel.

Lemma generateSequencerCode_none st :
  configured st = true ->
  flat_map (sequencerPart st) (getTracks st) = [] ->
  generateSequencerCode st
  = Done tt (setLog (log st ++ [Notify NothingToGenerate error]) st).
Proof.
  intros Hc Hp. unfold generateSequencerCode.
  rewrite (bind_run _ _ _ (isSoloActive (trackStates st)) st) by done.
  rewrite (bind_run _ _ _ (getTracks st) st) by done.
  rewrite (bind_run _ _ _ _ _
             (collect_run _ _ (sequencerPart st) st
                (fun acc x Hin => sequencerPattern_run st acc x Hc Hin) [])).
  cbn [app]. by rewrite Hp.
Qed.

Lemma generateSequencerCode_unfold st :
  configured st = true ->
  flat_map (sequencerPart st) (getTracks st) <> [] ->
  generateSequencerCode st
  = (let* _ := evaluateCode in
     let* _ := saveToHistory in
     showNotification SequencerCodeGenerated success)
      (sequenced (flat_map (sequencerPart st) (getTracks st)) st).
Proof.
  intros Hc Hp. unfold generateSequencerCode.
  rewrite (bind_run _ _ _ (isSoloActive (trackStates st)) st) by done.
  rewrite (bind_run _ _ _ (getTracks st) st) by done.
  rewrite (bind_run _ _ _ _ _
             (collect_run _ _ (sequencerPart st) st
                (fun acc x Hin => sequencerPattern_run st acc x Hc Hin) [])).
  cbn [app].
  destruct (flat_map (sequencerPart st) (getTracks st)) as [|f fs]; [done|].
  change (length (f :: fs) =? 0)%nat with false. cbv iota zeta.
  rewrite (bind_run _ _ _ (synthParams st) st) by done.
  unfold bind at 1. unfold modify at 1.
  unfold bind at 1. unfold modify at 1.
  rewrite (bind_run _ _ _ (getTracks st) _) by done.
  rewrite (bind_run _ _ _ _ _ (forEach_modify _ _ _)).
  reflexivity.
Qed.

Lemma selectedAll_parts ids st :
  sequencerState (selectedAll ids st) = sequencerState st
  /\ trackStates (selectedAll ids st) = trackStates st
  /\ synthParams (selectedAll ids st) = synthParams st
  /\ savedPatterns (selectedAll ids st) = savedPatterns st
  /\ editor (selectedAll ids st) = editor st
  /\ presets (mixedPatterns (selectedAll ids st)) = presets (mixedPatterns st)
  /\ saved (mixedPatterns (selectedAll ids st)) = saved (mixedPatterns st).
Proof.
  revert st. induction ids as [|t ids IH]; intros st; [done|].
  change (selectedAll (t :: ids) st)
    with (selectedAll ids
            (setMixedPatterns
               (Mix (presets (mixedPatterns st))
                  (JS.set t true (tracks (mixedPatterns st)))
                  (saved (mixedPatterns st))) st)).
  destruct (IH (setMixedPatterns
                  (Mix (presets (mixedPatterns st))
                     (JS.set t true (tracks (mixedPatterns st)))
                     (saved (mixedPatterns st))) st))
    as (-> & -> & -> & -> & -> & -> & ->).
  done.
Qed.

Lemma selectedAll_keeps_flag ids st t :
  JS.flag t (tracks (mixedPatterns st)) = true ->
  JS.flag t (tracks (mixedPatterns (selectedAll ids st))) = true.
Proof.
  revert st. induction ids as [|x ids IH]; intros st H; [done|].
  change (selectedAll (x :: ids) st)
    with (selectedAll ids
            (setMixedPatterns
               (Mix (presets (mixedPatterns st))
                  (JS.set x true (tracks (mixedPatterns st)))
                  (saved (mixedPatterns st))) st)).
  apply IH. cbn [tracks mixedPatterns setMixedPatterns].
  destruct (String.eqb_spec x t) as [->|Hne];
    [apply flag_set_eq|by rewrite flag_set_ne].
Qed.

Lemma selectedAll_flag ids st t :
  In t ids -> JS.flag t (tracks (mixedPatterns (selectedAll ids st))) = true.
Proof.
  revert st. induction ids as [|x ids IH]; intros st Hin; [done|].
  change (selectedAll (x :: ids) st)
    with (selectedAll ids
            (setMixedPatterns
               (Mix (presets (mixedPatterns st))
                  (JS.set x true (tracks (mixedPatterns st)))
                  (saved (mixedPatterns st))) st)).
  destruct Hin as [->|Hin]; [|by apply IH].
  apply selectedAll_keeps_flag. cbn [tracks mixedPatterns setMixedPatterns].
  apply flag_set_eq.
Qed.

End SequencerCode.

(** X17.  [generateSequencerCode] reports and changes nothing when no
    audible track has an active step.  Otherwise it selects every track,
    drops the presets and saved patterns from the selection, and writes the
    stack of the audible tracks that have an active step.  With two or more
    such tracks that is the text the mixer composes for the new selection;
    with one, the generator writes [stack(code)] where the mixer would write
    the bare [code]. *)
Theorem generateSequencerCode_selects_all (st : Strudel.state) :
  configured st = true ->
  let parts := flat_map (sequencerPart st) (Strudel.getTracks st) in
  let st' := Monad.final (Strudel.generateSequencerCode st) in
  match parts with
  | [] =>
      Strudel.generateSequencerCode st
      = Monad.Done tt
          (Strudel.setLog
             (Strudel.log st ++ [Notify Strudel.NothingToGenerate error]) st)
  | _ :: _ =>
      Monad.returned (Strudel.generateSequencerCode st) = true
      /\ (forall t, In t (Strudel.getTracks st) ->
            JS.flag t (Strudel.tracks (Strudel.mixedPatterns st')) = true)
      /\ Strudel.presets (Strudel.mixedPatterns st') = []
      /\ Strudel.saved (Strudel.mixedPatterns st') = []
      /\ patternsOf st' = List.map JS.Str parts
      /\ Strudel.editor st' = stacked (Strudel.synthParams st) parts
      /\ (2 <= length parts -> Strudel.editor st' = mixedText st')
      /\ (length parts = 1 -> Strudel.editor st' <> mixedText st')
  end.
Proof.
  intros Hc parts st'.
  destruct parts as [|f fs] eqn:Hp; [by apply generateSequencerCode_none|].
  assert (Hne : flat_map (sequencerPart st) (Strudel.getTracks st) <> [])
    by (fold parts; by rewrite Hp).
  subst st'. rewrite (generateSequencerCode_unfold _ Hc Hne).
  fold parts. rewrite Hp. set (st1 := sequenced (f :: fs) st).
  set (rest := (let* _ := Strudel.evaluateCode in
                let* _ := Strudel.saveToHistory in
                Strudel.showNotification Strudel.SequencerCodeGenerated
                  success)).
  assert (K1 : keeps core rest) by (subst rest; keeps_auto).
  assert (K2 : keeps Strudel.editor rest) by (subst rest; keeps_auto).
  assert (T : total rest) by (subst rest; total_auto).
  specialize (K1 st1). specialize (K2 st1).
  destruct (selectedAll_parts (Strudel.getTracks st)
              (Strudel.setMixedPatterns (Strudel.Mix [] [] [])
                 (Strudel.setEditor
                    (stacked (Strudel.synthParams st) (f :: fs)) st)))
    as (S1 & S2 & S3 & S4 & S5 & S6 & S7).
  fold (sequenced (f :: fs) st) in S1, S2, S3, S4, S5, S6, S7.
  fold st1 in S1, S2, S3, S4, S5, S6, S7.
  cbn in S1, S2, S3, S4, S5, S6, S7.
  destruct (core_parts _ _ K1) as (H1 & H2 & H3 & H4 & H5).
  assert (Hflag : forall t, In t (Strudel.getTracks st) ->
                            JS.flag t (Strudel.tracks (Strudel.mixedPatterns st1))
                            = true)
    by (intros t Ht; by apply selectedAll_flag).
  assert (Hpat : patternsOf st1 = List.map JS.Str (f :: fs)).
  { rewrite <- Hp. unfold patternsOf. rewrite S6, S7.
    change (flat_map (presetPart st1) (JS.keys [])) with (@nil JS.value).
    change (flat_map (savedPart st1) (JS.keys [])) with (@nil JS.value).
    rewrite !app_nil_r. unfold Strudel.getTracks. rewrite S1.
    fold (Strudel.getTracks st).
    apply flat_map_map_ext. intros t Ht.
    unfold trackPart, sequencerPart. rewrite (Hflag t Ht), S1, S2.
    destruct (JS.get t (Strudel.trackStates st)) as [c|]; [|done].
    destruct (JS.get t (Strudel.sequencerState st)) as [arr|]; [|done].
    destruct (Strudel.silenced _ _); [done|]. cbv zeta.
    by destruct (JS.includes _ _). }
  split; [apply T|]. split; [intros t Ht; rewrite H4; by apply Hflag|].
  split; [by rewrite H4|]. split; [by rewrite H4|].
  split; [by rewrite (patternsOf_core _ _ K1)|].
  split; [by rewrite K2, S5|].
  assert (Hm : mixedText (Monad.final (rest st1))
               = JS.domString
                   (Strudel.withTempo (Strudel.synthParams st)
                      (List.map JS.Str (f :: fs))
                      (JS.Str (program (f :: fs))))).
  { unfold mixedText. rewrite (patternsOf_core _ _ K1), Hpat, H3, S3.
    by rewrite combine_text. }
  rewrite Hm, K2, S5. unfold stacked, Strudel.withTempo.
  rewrite length_map. cbn [length Nat.ltb Nat.leb andb].
  rewrite andb_true_r.
  split.
  - intros Hl. destruct fs as [|g fs]; [simpl in Hl; lia|].
    by destruct (Strudel.bpmEnabled _).
  - intros Hl. destruct fs as [|g fs]; [|simpl in Hl; lia].
    cbn [program String.concat].
    assert (Hs : "stack(" +:+ f +:+ ")" <> f).
    { intros E. apply (f_equal String.length) in E.
      rewrite !length_append in E. simpl in E. lia. }
    destruct (Strudel.bpmEnabled _); cbn [JS.domString JS.toString];
      [|done].
    unfold Strudel.tempo. intros E. apply Hs.
    by repeat apply append_inj_r in E.
Qed.

Lemma generateSequencerCode_selects_all_witness :
  let st := Strudel.setSequencerState
              [("bd", List.map JS.Step [true; false; false; false;
                                        true; false; false; false]);
               ("sd", JS.filled 8); ("hh", JS.filled 8); ("cp", JS.filled 8)]
              Strudel.initial in
  let st' := Monad.final (Strudel.generateSequencerCode st) in
  Strudel.tracks (Strudel.mixedPatterns st')
  = [("bd", true); ("sd", true); ("hh", true); ("cp", true)]
  /\ Strudel.editor st'
     = "setCps(120/60/4)" +:+ JS.nl +:+ "stack(s(" +:+ JS.dq +:+ "bd*8"
       +:+ JS.dq +:+ ").struct(" +:+ JS.dq +:+ "x ~ ~ ~ x ~ ~ ~" +:+ JS.dq
       +:+ ").gain(0.8))"
  /\ Strudel.editor st' <> mixedText st'.
Proof.
  intros st st'.
  pose proof (generateSequencerCode_selects_all st eq_refl) as H.
  destruct H as (_ & _ & _ & _ & _ & _ & _ & H8).
  split; [by vm_compute|]. split; [by vm_compute|].
  apply H8. reflexivity.
Defined.

(** ** The visualizers *)

Section Suffixes.














End Suffixes.

Section Visualizers.

Import Monad Strudel StrudelOps.









End Visualizers.



(** ** MIDI note numbers in [CyberMidi] *)

Section Notes.

Import Midi.

Lemma noteHere_spec s name d :
  noteHere s = Some (name, d) ->
  isDigit d = true
  /\ exists c, isNoteLetter c = true /\ (name = String c "" \/ name = String c "#").
Proof.
  destruct s as [|c rest]; [done|]. cbn [noteHere].
  destruct (isNoteLetter c) eqn:Hc; [|done].
  intros H.
  assert (G : forall x, (if isDigit x then Some (String c "", x) else None)
                        = Some (name, d) ->
                        isDigit d = true
                        /\ exists c, isNoteLetter c = true
                                     /\ (name = String c "" \/ name = String c "#")).
  { intros x Hx. destruct (isDigit x) eqn:E; [|done].
    injection Hx as <- <-. split; [done|]. exists c. by split; [|left]. }
  destruct rest as [|a rest]; [done|].
  destruct (Ascii.eqb_spec a "#") as [->|Hne].
  - destruct rest as [|x rest]; [by apply (G "#"%char)|].
    destruct (isDigit x) eqn:E; [|done].
    injection H as <- <-. split; [done|]. exists c. by split; [|right].
  - apply (G a). revert H.
    destruct a as [[] [] [] [] [] [] [] []]; try done.
Qed.

Lemma noteMatch_spec note name d :
  noteMatch note = Some (name, d) ->
  isDigit d = true
  /\ exists c, isNoteLetter c = true /\ (name = String c "" \/ name = String c "#").
Proof.
  induction note as [|c rest IH].
  - done.
  - cbn [noteMatch]. destruct (noteHere (String c rest)) as [[n x]|] eqn:E.
    + intros [= <- <-]. by apply noteHere_spec with (String c rest).
    + apply IH.
Qed.

Lemma noteLetter_semitone c :
  isNoteLetter c = true ->
  (exists n, JS.get (String c "") noteMap = Some n /\ n <= 11)
  /\ match JS.get (String c "#") noteMap with
     | Some n => n <= 10
     | None => c = "E"%char \/ c = "B"%char
     end.
Proof.
  destruct c as [[] [] [] [] [] [] [] []]; try done; intros _;
    (split; [eexists; split; [reflexivity|lia]|]); cbn; try lia; auto.
Qed.

Lemma digit_range d : isDigit d = true -> digit d <= 9.
Proof.
  unfold isDigit, digit. intros H. apply andb_prop in H as [H1 H2].
  apply Nat.leb_le in H1, H2. lia.
Qed.

End Notes.

(** X19.  [noteToMidiNumber] answers 60 for a text in which no letter from
    A to G is followed by a digit, with or without a sharp between them.
    Otherwise the number is the semitone of the first such note plus twelve
    times its octave digit plus one: never less than 12 and never more than
    131, which is past the 127 a MIDI note can be.  For E sharp and B sharp,
    which [noteMap] lacks, the answer is [NaN]. *)
Theorem noteToMidiNumber_range (note : string) :
  (Midi.noteMatch note = None -> Midi.noteToMidiNumber note = Some 60)
  /\ (forall name octave semitone,
        Midi.noteMatch note = Some (name, octave) ->
        JS.get name Midi.noteMap = Some semitone ->
        Midi.noteToMidiNumber note
        = Some (semitone + (Midi.digit octave + 1) * 12)
        /\ semitone <= 11 /\ Midi.digit octave <= 9)
  /\ (forall n, Midi.noteToMidiNumber note = Some n -> 12 <= n <= 131)
  /\ (Midi.noteToMidiNumber note = None ->
      exists octave, Midi.noteMatch note = Some ("E#", octave)
                     \/ Midi.noteMatch note = Some ("B#", octave))
  /\ Midi.noteToMidiNumber "G#9" = Some 128.
Proof.
  unfold Midi.noteToMidiNumber.
  destruct (Midi.noteMatch note) as [[name d]|] eqn:E.
  - destruct (noteMatch_spec _ _ _ E) as (Hd & c & Hc & Hname).
    pose proof (digit_range _ Hd) as Hdig.
    destruct (noteLetter_semitone c Hc) as ((n1 & H1 & Hn1) & H2).
    split; [done|]. split.
    { intros name' octave semitone [= <- <-] Hs. rewrite Hs.
      split; [done|]. split; [|done].
      destruct Hname as [-> | ->]; [congruence|].
      rewrite Hs in H2. lia. }
    split.
    { intros n. destruct Hname as [-> | ->].
      - rewrite H1. intros [= <-]. lia.
      - destruct (JS.get (String c "#") Midi.noteMap); [|done].
        intros [= <-]. lia. }
    split; [|done].
    destruct Hname as [-> | ->]; [by rewrite H1|].
    destruct (JS.get (String c "#") Midi.noteMap); [done|].
    intros _. exists d. destruct H2 as [Hx|Hx]; rewrite Hx; [by left|by right].
  - split; [done|]. split; [done|]. split; [intros n [= <-]; lia|].
    split; [done|done].
Qed.

(** The notes the track selector offers, and one past the MIDI range. *)
Lemma noteToMidiNumber_range_witness :
  Midi.noteToMidiNumber "C4" = Some 60
  /\ Midi.noteToMidiNumber "B4" = Some 71
  /\ Midi.noteToMidiNumber "rest" = Some 60
  /\ Midi.noteToMidiNumber "E#3" = None
  /\ 12 <= 131 <= 131.
Proof.
  destruct (noteToMidiNumber_range "B9") as (_ & _ & H & _).
  split; [reflexivity|]. split; [reflexivity|]. split; [reflexivity|].
  split; [reflexivity|]. apply H. reflexivity.
Defined.

(** ** Arrays and step counts *)

Section Grids.

Import Monad Strudel StrudelOps.

Lemma gridsOk_spec st :
  gridsOk st = true
  <-> (forall t, In t (getTracks st) ->
         exists c arr, JS.get t (trackStates st) = Some c
                       /\ JS.get t (sequencerState st) = Some arr
                       /\ gridOk c arr = true).
Proof.
  unfold gridsOk. rewrite forallb_forall. split.
  - intros H t Ht. specialize (H t Ht).
    destruct (JS.get t (trackStates st)) as [c|]; [|done].
    destruct (JS.get t (sequencerState st)) as [arr|]; [|done].
    by exists c, arr.
  - intros H t Ht. by destruct (H t Ht) as (c & arr & -> & -> & ?).
Qed.

Lemma gridsOk_configured st : gridsOk st = true -> configured st = true.
Proof.
  rewrite gridsOk_spec, configured_spec. intros H t Ht.
  destruct (H t Ht) as (c & _ & -> & _). by eexists.
Qed.

Lemma hasTrack_In track st : hasTrack track st = true -> In track (getTracks st).
Proof.
  unfold hasTrack. rewrite existsb_exists. intros (t & Ht & E).
  by apply String.eqb_eq in E as ->.
Qed.

(** The state differs from one with sound grids in the entries of one
    track, whose new entries agree. *)
Lemma gridsOk_one st st' track c' arr' :
  gridsOk st = true ->
  getTracks st' = getTracks st ->
  (forall t, t <> track ->
     JS.get t (trackStates st') = JS.get t (trackStates st)
     /\ JS.get t (sequencerState st') = JS.get t (sequencerState st)) ->
  JS.get track (trackStates st') = Some c' ->
  JS.get track (sequencerState st') = Some arr' ->
  gridOk c' arr' = true ->
  gridsOk st' = true.
Proof.
  rewrite !gridsOk_spec. intros H Hk Ho Hc Ha Hg t Ht. rewrite Hk in Ht.
  destruct (String.eqb_spec t track) as [->|Hne].
  - by exists c', arr'.
  - destruct (Ho t Hne) as [-> ->]. by apply H.
Qed.

Lemma gridOk_flip c arr i b :
  gridOk c arr = true -> i < length arr ->
  gridOk c (JS.store arr i (JS.Step b)) = true.
Proof.
  unfold gridOk. intros H Hi. apply andb_prop in H as [H1 H2].
  rewrite store_length_in by done. rewrite length_insert, H1. cbn [andb].
  rewrite forallb_forall in *. intros s Hs.
  apply list_elem_of_In, list_elem_of_lookup in Hs as [j Hj].
  destruct (decide (j = i)) as [->|Hne].
  - rewrite list_lookup_insert_eq in Hj by done. by injection Hj as <-.
  - rewrite list_lookup_insert_ne in Hj by done.
    apply H2, list_elem_of_In, list_elem_of_lookup. by exists j.
Qed.

Lemma gridOk_resized c arr count :
  forallb isStep arr = true ->
  gridOk (setSteps count c)
    (copySteps (JS.slice0 count arr) count (JS.filled count)) = true.
Proof.
  intros H. rewrite copySteps_resized. cbv zeta. unfold gridOk.
  rewrite length_app, length_map, length_seq, length_replicate.
  cbn [steps setSteps].
  replace (Nat.min (length arr) count + (count - Nat.min (length arr) count))
    with count by lia.
  rewrite Nat.eqb_refl. cbn [andb].
  rewrite forallb_app. apply andb_true_intro. split.
  - rewrite forallb_forall in *. intros s Hs.
    apply in_map_iff in Hs as (i & <- & Hi). apply in_seq in Hi.
    unfold JS.load. destruct (arr !! i) as [x|] eqn:E.
    + assert (Hx : isStep x = true)
        by (apply H, list_elem_of_In, list_elem_of_lookup; by exists i).
      by destruct x.
    + apply lookup_ge_None in E. lia.
  - rewrite forallb_forall. intros s Hs.
    apply list_elem_of_In, elem_of_replicate in Hs as [-> _]. done.
Qed.

Lemma gridOk_filled c : gridOk c (JS.filled (steps c)) = true.
Proof.
  unfold gridOk, JS.filled. rewrite length_replicate, Nat.eqb_refl.
  cbn [andb]. rewrite forallb_forall. intros s Hs.
  by apply list_elem_of_In, elem_of_replicate in Hs as [-> _].
Qed.

End Grids.

Section GridsKept.

Import Monad Strudel StrudelOps.

Lemma gridOk_steps c c' arr :
  steps c' = steps c -> gridOk c' arr = gridOk c arr.
Proof. intros H. unfold gridOk. by rewrite H. Qed.

(** The state has the arrays of one with sound grids, and track entries
    with the same step counts. *)
Lemma gridsOk_same_steps st st' :
  gridsOk st = true ->
  sequencerState st' = sequencerState st ->
  (forall t c, JS.get t (trackStates st) = Some c ->
     exists c', JS.get t (trackStates st') = Some c' /\ steps c' = steps c) ->
  gridsOk st' = true.
Proof.
  rewrite !gridsOk_spec. intros H Hs Ht t Hin.
  unfold getTracks in Hin. rewrite Hs in Hin.
  destruct (H t Hin) as (c & arr & Hc & Ha & Hg).
  destruct (Ht t c Hc) as (c' & Hc' & Hsteps).
  exists c', arr. rewrite Hs. by rewrite (gridOk_steps c c').
Qed.

Lemma toggleStep_keeps_trackStates track index :
  keeps trackStates (toggleStep track index).
Proof. keeps_auto. Qed.

Lemma toggleMute_keeps_sequencerState track :
  keeps sequencerState (toggleMute track).
Proof. keeps_auto. Qed.

Lemma toggleSolo_keeps_sequencerState track :
  keeps sequencerState (toggleSolo track).
Proof. keeps_auto. Qed.

Lemma gridsOk_click st track index :
  gridsOk st = true -> onPage (ClickStep track index) st = true ->
  gridsOk (controlStep (ClickStep track index) st) = true.
Proof.
  intros Hg Hp. cbn [onPage controlStep] in *.
  apply andb_prop in Hp as [Hin Hp]. apply hasTrack_In in Hin.
  destruct (proj1 (gridsOk_spec st) Hg track Hin) as (c & arr & Hc & Ha & Hok).
  rewrite Hc in Hp. apply Nat.ltb_lt in Hp.
  assert (Hlen : length arr = steps c).
  { unfold gridOk in Hok. apply andb_prop in Hok as [Hok _].
    by apply Nat.eqb_eq in Hok. }
  apply (gridsOk_one st _ track c
           (JS.store arr index (JS.Step (negb (JS.activeAt arr index)))));
    [done| | | | |].
  - unfold getTracks. rewrite (toggleStep_grid _ _ _ _ Ha).
    apply keys_set_present. by eexists.
  - intros t Hne. rewrite toggleStep_keeps_trackStates.
    rewrite (toggleStep_grid _ _ _ _ Ha). split; [done|].
    by apply get_set_ne.
  - by rewrite toggleStep_keeps_trackStates.
  - rewrite (toggleStep_grid _ _ _ _ Ha). apply get_set_eq.
  - apply gridOk_flip; [done|lia].
Qed.

Lemma gridsOk_resize st track count :
  gridsOk st = true -> onPage (SelectSteps track count) st = true ->
  gridsOk (controlStep (SelectSteps track count) st) = true.
Proof.
  intros Hg Hp. cbn [onPage controlStep] in *. apply hasTrack_In in Hp.
  destruct (proj1 (gridsOk_spec st) Hg track Hp) as (c & arr & Hc & Ha & Hok).
  unfold onSteps.
  rewrite (final_bind _ _ _ tt
             (setHist (History.saveToHistory (snapshot st) (hist st)) st))
    by done.
  set (st1 := setHist _ st).
  rewrite (changeStepCount_unfold st1 track c arr count) by done.
  pose proof (afterResize_keeps_data track count (resized track count arr st1))
    as Hd.
  destruct (data_parts _ _ Hd) as (H1 & H2 & _).
  apply (gridsOk_one st _ track (setSteps count c)
           (copySteps (JS.slice0 count arr) count (JS.filled count)));
    [done| | | | |].
  - unfold getTracks. rewrite H1. unfold resized. cbn.
    apply keys_set_present. by eexists.
  - intros t Hne. rewrite H1, H2. unfold resized. cbn.
    by rewrite get_alter_ne, get_set_ne.
  - rewrite H2. unfold resized. cbn. by rewrite get_alter_eq, Hc.
  - rewrite H1. unfold resized. cbn. apply get_set_eq.
  - apply gridOk_resized. unfold gridOk in Hok.
    by apply andb_prop in Hok as [_ Hok].
Qed.

Lemma gridsOk_mute st track :
  gridsOk st = true -> onPage (ClickMute track) st = true ->
  gridsOk (controlStep (ClickMute track) st) = true.
Proof.
  intros Hg Hp. cbn [onPage controlStep] in *. apply hasTrack_In in Hp.
  destruct (proj1 (gridsOk_spec st) Hg track Hp) as (c & arr & Hc & Ha & Hok).
  unfold onMute.
  rewrite (final_bind _ _ _ tt
             (setHist (History.saveToHistory (snapshot st) (hist st)) st))
    by done.
  set (st1 := setHist _ st).
  apply (gridsOk_same_steps st); [done| |].
  - by rewrite toggleMute_keeps_sequencerState.
  - intros t c0 Hc0. rewrite (toggleMute_trackStates st1 track c) by done.
    change (trackStates st1) with (trackStates st).
    destruct (String.eqb_spec t track) as [->|Hne].
    + rewrite (get_muteToggled_eq _ _ _ Hc). eexists. split; [done|].
      by replace c0 with c by congruence.
    + rewrite get_muteToggled_ne by done. by exists c0.
Qed.

Lemma gridsOk_solo st track :
  gridsOk st = true -> onPage (ClickSolo track) st = true ->
  gridsOk (controlStep (ClickSolo track) st) = true.
Proof.
  intros Hg Hp. cbn [onPage controlStep] in *. apply hasTrack_In in Hp.
  destruct (proj1 (gridsOk_spec st) Hg track Hp) as (c & arr & Hc & Ha & Hok).
  unfold onSolo.
  rewrite (final_bind _ _ _ tt
             (setHist (History.saveToHistory (snapshot st) (hist st)) st))
    by done.
  set (st1 := setHist _ st).
  apply (gridsOk_same_steps st); [done| |].
  - by rewrite toggleSolo_keeps_sequencerState.
  - intros t c0 Hc0. rewrite (toggleSolo_trackStates st1 track c) by done.
    change (trackStates st1) with (trackStates st).
    rewrite get_soloOnly, Hc0. eexists. split; [done|].
    unfold soloOnly. cbn. by destruct (negb _).
Qed.

Lemma changeTrackSound_tracks track sound st c :
  JS.get track (trackStates st) = Some c ->
  sequencerState (final (changeTrackSound track sound st)) = sequencerState st
  /\ trackStates (final (changeTrackSound track sound st))
     = JS.alter track (setSound sound) (trackStates st).
Proof.
  intros Hc.
  set (rest := (let* mixed := gets (fun st =>
                    JS.flag track (tracks (mixedPatterns st))) in
                let* _ := (if mixed then updateMixedCode else ret tt) in
                let* _ := saveToLocalStorage in
                ret (SoundSet track sound, success))).
  assert (E : changeTrackSound track sound st
              = rest (setTrackStates
                        (JS.alter track (setSound sound) (trackStates st)) st)).
  { unfold changeTrackSound.
    by rewrite (bind_run _ _ _ _ _ (config_run _ _ _ Hc)). }
  assert (K : keeps (fun st => (sequencerState st, trackStates st)) rest)
    by (subst rest; keeps_auto).
  rewrite E.
  specialize (K (setTrackStates
                   (JS.alter track (setSound sound) (trackStates st)) st)).
  injection K as K1 K2. split; [exact K1|exact K2].
Qed.

Lemma gridsOk_sound st track sound :
  gridsOk st = true -> onPage (SelectSound track sound) st = true ->
  gridsOk (controlStep (SelectSound track sound) st) = true.
Proof.
  intros Hg Hp. cbn [onPage controlStep] in *. apply hasTrack_In in Hp.
  destruct (proj1 (gridsOk_spec st) Hg track Hp) as (c & arr & Hc & Ha & Hok).
  unfold onSound.
  rewrite (final_bind _ _ _ tt
             (setHist (History.saveToHistory (snapshot st) (hist st)) st))
    by done.
  set (st1 := setHist _ st).
  destruct (changeTrackSound_tracks track sound st1 c Hc) as [H1 H2].
  apply (gridsOk_same_steps st); [done|by rewrite H1|].
  intros t c0 Hc0. rewrite H2. change (trackStates st1) with (trackStates st).
  destruct (String.eqb_spec track t) as [<-|Hne].
  - rewrite get_alter_eq, Hc0. by eexists.
  - rewrite get_alter_ne by done. by exists c0.
Qed.

Lemma gridsOk_add st :
  gridsOk st = true -> gridsOk (controlStep ClickAdd st) = true.
Proof.
  intros Hg. cbn [controlStep].
  rewrite (addTrack_run _ (gridsOk_configured _ Hg)). cbn [final].
  set (newKey := trackName (length (getTracks st))).
  apply gridsOk_spec. intros t Ht.
  unfold getTracks, added in Ht. cbn in Ht. fold (getTracks st) in Ht.
  fold newKey in Ht.
  change (sequencerState (setLog (log st ++ [Persist]) (added st)))
    with (JS.set newKey (JS.filled 8) (sequencerState st)).
  change (trackStates (setLog (log st ++ [Persist]) (added st)))
    with (JS.set newKey (TrackState false false 8 "bd") (trackStates st)).
  destruct (String.eqb_spec newKey t) as [<-|Hne].
  - rewrite !get_set_eq. by eexists _, _.
  - rewrite !get_set_ne by done.
    apply (proj1 (gridsOk_spec st) Hg).
    apply get_keys. apply (proj2 (get_keys _ _)) in Ht.
    by rewrite get_set_ne in Ht.
Qed.

End GridsKept.

Section GridsCleared.

Import Monad Strudel StrudelOps.

Lemma clearSequencer_run st :
  configured st = true ->
  exists st',
    clearSequencer st = Done (SequencerCleared, success) st'
    /\ core st' = core (setSaved [] (cleared (getTracks st) st)).
Proof.
  intros Hc. unfold clearSequencer.
  rewrite (bind_run _ _ _ (getTracks st) st) by done.
  rewrite (bind_run _ _ _ _ _
             (clearLoop_run _ _ (proj1 (configured_spec st) Hc))).
  unfold bind at 1. unfold modify at 1.
  set (st1 := setSaved [] (cleared (getTracks st) st)).
  assert (Hc1 : configured st1 = true).
  { apply configured_spec. intros t Ht.
    assert (Hk : getTracks st1 = getTracks st) by (apply cleared_keys; auto).
    rewrite Hk in Ht.
    change (trackStates st1) with (trackStates (cleared (getTracks st) st)).
    rewrite cleared_trackStates. by apply configured_spec. }
  destruct (updateMixedCode_done st1 Hc1) as (st2 & Hu & Hd & _).
  rewrite (bind_run _ _ _ _ _ Hu).
  eexists. split; [reflexivity|].
  rewrite <- (data_core _ _ Hd). reflexivity.
Qed.

Lemma gridsOk_clear st :
  gridsOk st = true -> gridsOk (controlStep ClickClear st) = true.
Proof.
  intros Hg. cbn [controlStep]. unfold onClear.
  rewrite (final_bind _ _ _ tt
             (setHist (History.saveToHistory (snapshot st) (hist st)) st))
    by done.
  set (st1 := setHist _ st).
  assert (Hg1 : gridsOk st1 = true) by done.
  destruct (clearSequencer_run st1 (gridsOk_configured _ Hg1))
    as (st' & -> & Hcore).
  cbn [final]. destruct (core_parts _ _ Hcore) as (H1 & H2 & _).
  apply gridsOk_spec. intros t Ht.
  unfold getTracks in Ht. rewrite H1 in Ht.
  change (sequencerState (setSaved [] (cleared (getTracks st1) st1)))
    with (sequencerState (cleared (getTracks st1) st1)) in Ht, H1.
  fold (getTracks (cleared (getTracks st1) st1)) in Ht.
  rewrite cleared_keys in Ht by auto.
  destruct (proj1 (gridsOk_spec st1) Hg1 t Ht) as (c & arr & Hc & _).
  destruct (cleared_grid_in (getTracks st1) st1 t c Ht Hc) as [Hgrid _].
  exists c, (JS.filled (steps c)).
  rewrite H1, H2, Hgrid.
  change (trackStates (setSaved [] (cleared (getTracks st1) st1)))
    with (trackStates (cleared (getTracks st1) st1)).
  rewrite cleared_trackStates. split; [done|]. split; [done|].
  apply gridOk_filled.
Qed.

Lemma gridsOk_control k st :
  gridsOk st = true -> onPage k st = true -> gridsOk (controlStep k st) = true.
Proof.
  destruct k; intros Hg Hp;
    [by apply gridsOk_click|by apply gridsOk_resize|by apply gridsOk_sound
    |by apply gridsOk_mute|by apply gridsOk_solo|by apply gridsOk_clear
    |by apply gridsOk_add].
Qed.

End GridsCleared.

(** X20.  Through the controls of the sequencer the array of every track
    keeps as many entries as the step count of the track says, all of them
    booleans: clicks on the steps the grid shows, changes of the step count
    or of the sound, mute, solo, "clear" and "add track" preserve this, and
    the state the constructor builds has it. *)
Theorem controls_keep_grids (ks : list control) (st : Strudel.state) :
  gridsOk st = true ->
  session ks st = true ->
  let st' := fold_left (fun st k => controlStep k st) ks st in
  gridsOk st' = true
  /\ forall t c arr,
       JS.get t (Strudel.trackStates st') = Some c ->
       JS.get t (Strudel.sequencerState st') = Some arr ->
       length arr = steps c
       /\ Strudel.stepMask (steps c) arr
          = String.concat " " (List.map JS.marker arr).
Proof.
  intros Hg Hs st'.
  assert (H : gridsOk st' = true).
  { subst st'. revert st Hg Hs. induction ks as [|k ks IH]; intros st Hg Hs;
      [done|].
    cbn [session] in Hs. apply andb_prop in Hs as [Hp Hs].
    cbn [fold_left]. apply IH; [by apply gridsOk_control|done]. }
  split; [done|]. intros t c arr Hc Ha.
  assert (Hin : In t (Strudel.getTracks st')) by (apply get_keys; by eexists).
  destruct (proj1 (gridsOk_spec st') H t Hin) as (c' & arr' & Hc' & Ha' & Hok).
  replace c' with c in Hok by congruence.
  replace arr' with arr in Hok by congruence.
  unfold gridOk in Hok. apply andb_prop in Hok as [Hlen _].
  apply Nat.eqb_eq in Hlen. split; [done|].
  unfold Strudel.stepMask, JS.slice0. by rewrite <- Hlen, firstn_all.
Qed.

Lemma controls_keep_grids_witness :
  let ks := [ClickStep "bd" 0; SelectSteps "bd" 4; ClickStep "bd" 3;
             SelectSteps "bd" 16; SelectSound "sd" "sine"; ClickSolo "hh";
             ClickAdd;
             ClickStep "track4" 7; ClickMute "bd"; ClickClear] in
  let st' := fold_left (fun st k => controlStep k st) ks Strudel.initial in
  gridsOk st' = true
  /\ JS.get "bd" (Strudel.sequencerState st') = Some (JS.filled 16).
Proof.
  intros ks st'.
  split; [|by vm_compute].
  apply (controls_keep_grids ks Strudel.initial); by vm_compute.
Defined.

(** ** Editing a track twice *)

Lemma load_dense (arr : list JS.slot) (k : nat) :
  forallb isStep arr = true -> k <= length arr ->
  List.map (JS.load arr) (seq 0 k) = take k arr.
Proof.
  intros H Hk. apply list_eq. intros i.
  destruct (decide (i < k)) as [Hi|Hi].
  - rewrite lookup_take_lt by done.
    change (List.map (JS.load arr) (seq 0 k)) with (JS.load arr <$> seq 0 k).
    rewrite list_lookup_fmap, lookup_seq_lt by done. cbn.
    unfold JS.load. destruct (arr !! i) as [x|] eqn:E.
    + rewrite forallb_forall in H.
      assert (Hx : isStep x = true)
        by (apply H, list_elem_of_In, list_elem_of_lookup; by exists i).
      by destruct x.
    + apply lookup_ge_None in E. lia.
  - rewrite lookup_take_ge by lia.
    apply lookup_ge_None. rewrite length_map, length_seq. lia.
Qed.

Lemma copySteps_resize (arr : list JS.slot) (count : nat) :
  forallb isStep arr = true ->
  Strudel.copySteps (JS.slice0 count arr) count (JS.filled count)
  = resize count (JS.Step false) arr.
Proof.
  intros H. rewrite copySteps_resized. cbv zeta.
  rewrite load_dense by (done || lia). rewrite resize_spec.
  destruct (decide (length arr <= count)) as [Hl|Hl].
  - rewrite Nat.min_l by done. by rewrite !take_ge by lia.
  - rewrite Nat.min_r by lia. f_equal. f_equal. lia.
Qed.

Lemma dense_resize (arr : list JS.slot) (count : nat) :
  forallb isStep arr = true ->
  forallb isStep (resize count (JS.Step false) arr) = true.
Proof.
  intros H. rewrite resize_spec, forallb_app.
  apply andb_true_intro. split.
  - rewrite forallb_forall in *. intros s Hs. apply H.
    apply list_elem_of_In. apply list_elem_of_In in Hs.
    by apply (subseteq_take count arr).
  - rewrite forallb_forall. intros s Hs.
    by apply list_elem_of_In, elem_of_replicate in Hs as [-> _].
Qed.

Section Twice.

Import Monad Strudel.

Lemma changeStepCount_grid st track c arr count :
  JS.get track (trackStates st) = Some c ->
  JS.get track (sequencerState st) = Some arr ->
  forallb isStep arr = true ->
  let st' := final (changeStepCount track count st) in
  JS.get track (sequencerState st')
  = Some (resize count (JS.Step false) arr)
  /\ JS.get track (trackStates st') = Some (setSteps count c).
Proof.
  intros Hc Ha Hd st'. subst st'.
  rewrite (changeStepCount_unfold _ _ _ _ _ Hc Ha).
  pose proof (afterResize_keeps_data track count (resized track count arr st))
    as H.
  destruct (data_parts _ _ H) as (H1 & H2 & _). rewrite H1, H2.
  unfold resized. cbn. rewrite get_set_eq, get_alter_eq, Hc.
  by rewrite copySteps_resize.
Qed.

Lemma set_set {A} (o : JS.obj A) k (v w : A) :
  JS.set k w (JS.set k v o) = JS.set k w o.
Proof.
  induction o as [|[k1 v1] o IH]; simpl.
  - by rewrite String.eqb_refl.
  - destruct (String.eqb_spec k k1) as [->|Hne]; simpl.
    + by rewrite String.eqb_refl.
    + destruct (String.eqb_spec k k1); [done|]. by rewrite IH.
Qed.

Lemma set_same {A} (o : JS.obj A) k (v : A) :
  JS.get k o = Some v -> JS.set k v o = o.
Proof.
  induction o as [|[k1 v1] o IH]; simpl; [done|].
  destruct (String.eqb_spec k k1) as [->|Hne].
  - by intros [= ->].
  - intros H. by rewrite IH.
Qed.

End Twice.

(** X21.  Two changes of the step count in a row, on a track whose array
    holds booleans: shrinking afterwards gives what shrinking at once would
    have given, and growing and then coming back to the old length gives the
    old array; but growing after shrinking does not bring back the steps
    that were cut, they come back inactive. *)
Theorem changeStepCount_twice (st : Strudel.state) (track : string)
    (c : trackState) (arr : list JS.slot) (n1 n2 : nat) :
  JS.get track (Strudel.trackStates st) = Some c ->
  JS.get track (Strudel.sequencerState st) = Some arr ->
  forallb isStep arr = true ->
  let st1 := Monad.final (Strudel.changeStepCount track n1 st) in
  let st2 := Monad.final (Strudel.changeStepCount track n2 st1) in
  let once := Monad.final (Strudel.changeStepCount track n2 st) in
  exists arr2,
    JS.get track (Strudel.sequencerState st2) = Some arr2
    /\ length arr2 = n2
    /\ (n2 <= n1 -> JS.get track (Strudel.sequencerState once) = Some arr2)
    /\ (length arr <= n1 -> n2 = length arr -> arr2 = arr)
    /\ (n1 <= length arr -> n1 <= n2 ->
        arr2 = take n1 arr ++ replicate (n2 - n1) (JS.Step false)).
Proof.
  intros Hc Ha Hd st1 st2 once.
  destruct (changeStepCount_grid st track c arr n1 Hc Ha Hd) as [Ha1 Hc1].
  fold st1 in Ha1, Hc1.
  destruct (changeStepCount_grid st1 track _ _ n2 Hc1 Ha1 (dense_resize _ n1 Hd))
    as [Ha2 _].
  fold st2 in Ha2.
  destruct (changeStepCount_grid st track c arr n2 Hc Ha Hd) as [Ho _].
  fold once in Ho.
  eexists. split; [exact Ha2|].
  split; [apply length_resize|].
  split; [intros H; by rewrite Ho, resize_resize|].
  split.
  - intros H1 ->. rewrite resize_resize by done. apply resize_all.
  - intros H1 H2. rewrite (resize_le arr n1) by done.
    rewrite resize_spec, length_take, take_take.
    by rewrite (Nat.min_r n2 n1), (Nat.min_l n1 (length arr)) by lia.
Qed.

Lemma changeStepCount_twice_witness :
  let arr := List.map JS.Step [true; true; true; true;
                               true; true; true; true] in
  let st := Strudel.setSequencerState
              [("bd", arr); ("sd", JS.filled 8); ("hh", JS.filled 8);
               ("cp", JS.filled 8)] Strudel.initial in
  let st2 := Monad.final (Strudel.changeStepCount "bd" 8
                            (Monad.final (Strudel.changeStepCount "bd" 4 st))) in
  JS.get "bd" (Strudel.sequencerState st2)
  = Some (List.map JS.Step [true; true; true; true;
                            false; false; false; false]).
Proof.
  intros arr st st2.
  destruct (changeStepCount_twice st "bd" (TrackState false false 8 "bd") arr
              4 8 eq_refl eq_refl eq_refl) as (arr2 & H1 & _ & _ & _ & H5).
  fold st2 in H1. rewrite H1. f_equal.
  apply H5; simpl; lia.
Defined.

Section ToggleTwice.

Import Monad Strudel.

Lemma toggleStep_hist st track arr index :
  JS.get track (sequencerState st) = Some arr ->
  hist (final (toggleStep track index st))
  = History.saveToHistory (snapshot st) (hist st).
Proof.
  intros Ha. rewrite (toggleStep_unfold _ _ _ _ Ha).
  pose proof (afterToggle_keeps_data track (toggled track index arr st)) as H.
  by destruct (data_parts _ _ H) as (_ & _ & _ & _ & _ & ->).
Qed.

Lemma flip_back (arr : list JS.slot) (index : nat) (b : bool) :
  arr !! index = Some (JS.Step b) ->
  let arr1 := JS.store arr index (JS.Step (negb (JS.activeAt arr index))) in
  JS.store arr1 index (JS.Step (negb (JS.activeAt arr1 index))) = arr.
Proof.
  intros H arr1.
  assert (Hi : index < length arr) by (apply lookup_lt_is_Some; by eexists).
  assert (E1 : arr1 = <[index:=JS.Step (negb b)]> arr).
  { subst arr1. rewrite store_length_in by done.
    unfold JS.activeAt. by rewrite H. }
  rewrite store_length_in by (rewrite E1, length_insert; done).
  unfold JS.activeAt. rewrite E1, list_lookup_insert_eq by done.
  cbn [JS.active]. rewrite negb_involutive, list_insert_insert_eq.
  by apply list_insert_id.
Qed.

End ToggleTwice.

(** X22.  Two clicks on the same step, when the entry is a boolean, leave
    the arrays of all tracks exactly as they were; the undo stack has
    received a snapshot at each click. *)
Theorem toggleStep_twice (st : Strudel.state) (track : string)
    (arr : list JS.slot) (index : nat) (b : bool) :
  JS.get track (Strudel.sequencerState st) = Some arr ->
  arr !! index = Some (JS.Step b) ->
  let st1 := Monad.final (Strudel.toggleStep track index st) in
  let st2 := Monad.final (Strudel.toggleStep track index st1) in
  JS.activeAt arr index = b
  /\ (exists arr1, JS.get track (Strudel.sequencerState st1) = Some arr1
                   /\ JS.activeAt arr1 index = negb b)
  /\ Strudel.sequencerState st2 = Strudel.sequencerState st
  /\ Strudel.hist st2
     = History.saveToHistory (Strudel.snapshot st1)
         (History.saveToHistory (Strudel.snapshot st) (Strudel.hist st)).
Proof.
  intros Ha Hb st1 st2.
  assert (Hi : index < length arr) by (apply lookup_lt_is_Some; by eexists).
  pose proof (toggleStep_grid st track arr index Ha) as H1. fold st1 in H1.
  set (arr1 := JS.store arr index (JS.Step (negb (JS.activeAt arr index))))
    in H1.
  assert (Ha1 : JS.get track (Strudel.sequencerState st1) = Some arr1)
    by (rewrite H1; apply get_set_eq).
  pose proof (toggleStep_grid st1 track arr1 index Ha1) as H2. fold st2 in H2.
  split; [unfold JS.activeAt; by rewrite Hb|].
  split.
  { exists arr1. split; [done|]. subst arr1.
    rewrite store_length_in by done. unfold JS.activeAt.
    by rewrite Hb, list_lookup_insert_eq by done. }
  split.
  - rewrite H2. subst arr1. rewrite (flip_back arr index b Hb).
    rewrite H1, set_set. by apply set_same.
  - subst st2. rewrite (toggleStep_hist _ _ _ _ Ha1).
    subst st1. by rewrite (toggleStep_hist _ _ _ _ Ha).
Qed.

Lemma toggleStep_twice_witness :
  let st1 := Monad.final (Strudel.toggleStep "bd" 2 Strudel.initial) in
  let st2 := Monad.final (Strudel.toggleStep "bd" 2 st1) in
  JS.get "bd" (Strudel.sequencerState st1)
  = Some (List.map JS.Step [false; false; true; false;
                            false; false; false; false])
  /\ Strudel.sequencerState st2 = Strudel.sequencerState Strudel.initial.
Proof.
  intros st1 st2.
  destruct (toggleStep_twice Strudel.initial "bd" (JS.filled 8) 2 false
              eq_refl eq_refl) as (_ & _ & H3 & _).
  split; [by vm_compute|exact H3].
Defined.

(** ** The mixer of [CyberMidi] *)

Lemma append_empty (s : string) : s +:+ "" = s.
Proof.
  induction s as [|c s IH]; [done|].
  change (String c (s +:+ EmptyString) = String c s). by rewrite IH.
Qed.

Lemma fold_append_ext {A} (f g : A -> string) (l : list A) (code : string) :
  (forall x, f x = g x) ->
  fold_left (fun code x => code +:+ f x) l code
  = fold_left (fun code x => code +:+ g x) l code.
Proof.
  intros H. revert code. induction l as [|x l IH]; intros code; [done|].
  cbn [fold_left]. by rewrite H, IH.
Qed.

Section MidiMixer.

Import Monad Midi.

Lemma midi_appendAll_run {A} (l : list A) (body : string -> A -> M state string)
    (f : A -> string) m code :
  (forall code x, In x l -> body code x m = Done (code +:+ f x) m) ->
  appendAll l body code m
  = Done (fold_left (fun code x => code +:+ f x) l code) m.
Proof.
  revert code. induction l as [|x l IH]; intros code H; [done|].
  cbn [appendAll fold_left].
  rewrite (bind_run _ _ _ _ _ (H code x (or_introl eq_refl))).
  apply IH. intros; apply H; by right.
Qed.

Lemma midi_trackLine_run m code track line :
  midiLine m track = Some line ->
  trackLine code track m = Done (code +:+ line) m.
Proof.
  unfold midiLine, trackLine. intros H.
  destruct (JS.get track (trackStates m)) as [c|] eqn:Hc; [|done].
  destruct (JS.get track (sequencerState m)) as [arr|] eqn:Ha; [|done].
  injection H as <-.
  rewrite (bind_run _ _ _ _ _ (midi_config_run _ _ _ Hc)).
  by rewrite (bind_run _ _ _ _ _ (midi_grid_run _ _ _ Ha)).
Qed.

Lemma midi_savedLine_run m code name :
  savedLine code name m = Done (code +:+ midiSaved m name) m.
Proof.
  unfold savedLine, midiSaved, bind, gets.
  destruct (JS.flag name _); [|by rewrite append_empty].
  cbv zeta. destruct (_ && _); [done|by rewrite append_empty].
Qed.

Lemma midi_updateMixedCode_run m :
  mixable m = true -> updateMixedCode m = Done tt (setEditor (midiText m) m).
Proof.
  intros Hm. unfold updateMixedCode.
  rewrite (bind_run _ _ _ (chosenTracks m) m) by done.
  assert (Hl : forall code t, In t (chosenTracks m) ->
                 trackLine code t m
                 = Done (code +:+ default "" (midiLine m t)) m).
  { intros code t Ht. unfold mixable in Hm. rewrite forallb_forall in Hm.
    specialize (Hm t Ht). destruct (midiLine m t) as [line|] eqn:E; [|done].
    by apply midi_trackLine_run. }
  rewrite (bind_run _ _ _ _ _
             (midi_appendAll_run (chosenTracks m) trackLine
                (fun t => default "" (midiLine m t)) m "" Hl)).
  rewrite (bind_run _ _ _ (JS.keys (saved (mixedPatterns m))) m) by done.
  rewrite (bind_run _ _ _ _ _
             (midi_appendAll_run _ savedLine (midiSaved m) m _
                (fun code x _ => midi_savedLine_run m code x))).
  reflexivity.
Qed.

(** The text is a function of the arrays, the sounds, the selection and
    the bank. *)
Lemma midiText_sounds m m' :
  sequencerState m' = sequencerState m ->
  mixedPatterns m' = mixedPatterns m ->
  savedPatterns m' = savedPatterns m ->
  (forall t, sound <$> JS.get t (trackStates m')
             = sound <$> JS.get t (trackStates m)) ->
  (forall t, midiLine m' t = midiLine m t) /\ midiText m' = midiText m.
Proof.
  intros H1 H2 H3 H4.
  assert (Hl : forall t, midiLine m' t = midiLine m t).
  { intros t. unfold midiLine. rewrite H1. specialize (H4 t).
    destruct (JS.get t (trackStates m')) as [c'|],
             (JS.get t (trackStates m)) as [c|]; try done.
    injection H4 as ->. done. }
  split; [done|].
  unfold midiText, chosenTracks, midiSaved. rewrite H2, H3.
  f_equal. apply fold_append_ext. intros t. by rewrite Hl.
Qed.

Lemma midi_toggleMute_unfold m track c :
  JS.get track (trackStates m) = Some c ->
  toggleMute track m
  = (let* _ := (if JS.flag track (tracks (mixedPatterns m))
                then updateMixedCode else ret tt) in
     saveToLocalStorage)
      (setTrackStates
         (JS.alter track (setMuted (negb (muted c))) (trackStates m)) m).
Proof.
  intros Hc. unfold toggleMute.
  rewrite (bind_run _ _ _ _ _ (midi_config_run _ _ _ Hc)).
  unfold bind at 1. unfold modify at 1.
  set (m1 := setTrackStates _ m).
  assert (Hc1 : JS.get track (trackStates m1)
                = Some (setMuted (negb (muted c)) c))
    by (subst m1; cbn; by rewrite get_alter_eq, Hc).
  rewrite (bind_run _ _ _ tt m1).
  - by rewrite (bind_run _ _ _
                  (JS.flag track (tracks (mixedPatterns m))) m1).
  - unfold updateSequencerUI.
    by rewrite (bind_run _ _ _ _ _ (midi_config_run _ _ _ Hc1)).
Qed.

End MidiMixer.

(** X23.  In [CyberMidi] the mixed code is one line per selected track and
    per usable saved pattern, and it does not depend on mute, solo, step
    counts or tempo.  Muting a selected track flips its flag and leaves the
    recomposed code as it was: the muted track keeps its line. *)
Theorem midi_mix_ignores_mute (m : Midi.state) (track : string)
    (c : trackState) :
  mixable m = true ->
  JS.get track (Midi.trackStates m) = Some c ->
  let m' := Monad.final (Midi.toggleMute track m) in
  Midi.updateMixedCode m = Monad.Done tt (Midi.setEditor (midiText m) m)
  /\ Monad.returned (Midi.toggleMute track m) = true
  /\ JS.get track (Midi.trackStates m') = Some (setMuted (negb (muted c)) c)
  /\ midiText m' = midiText m
  /\ (JS.flag track (Midi.tracks (Midi.mixedPatterns m)) = true ->
      Midi.editor m' = midiText m).
Proof.
  intros Hm Hc m'.
  split; [by apply midi_updateMixedCode_run|].
  subst m'. rewrite (midi_toggleMute_unfold _ _ _ Hc).
  set (m1 := Midi.setTrackStates _ m).
  destruct (midiText_sounds m m1) as [Hl Ht]; [done|done|done| |].
  { intros t. subst m1. cbn.
    destruct (String.eqb_spec track t) as [<-|Hne].
    - rewrite get_alter_eq, Hc. done.
    - by rewrite get_alter_ne. }
  assert (Hm1 : mixable m1 = true).
  { unfold mixable in *. rewrite forallb_forall in *. intros t Hin.
    rewrite Hl. by apply Hm. }
  assert (Hc1 : JS.get track (Midi.trackStates m1)
                = Some (setMuted (negb (muted c)) c))
    by (subst m1; cbn; by rewrite get_alter_eq, Hc).
  destruct (JS.flag track _).
  - rewrite (bind_run _ _ _ _ _ (midi_updateMixedCode_run _ Hm1)).
    set (mF := Monad.final _).
    change (midiText mF) with (midiText m1).
    change (Midi.editor mF) with (midiText m1).
    change (Midi.trackStates mF) with (Midi.trackStates m1).
    by rewrite Ht.
  - set (mF := Monad.final _).
    change (midiText mF) with (midiText m1).
    change (Midi.trackStates mF) with (Midi.trackStates m1).
    by rewrite Ht.
Qed.

Lemma midi_mix_ignores_mute_witness :
  let m := Midi.State
             [("note", List.map JS.Step [true; false; true; false])]
             [("note", TrackState false false 4 "C4")]
             (Midi.Synth 120 true) (Midi.Mix [("note", true)] []) []
             History.empty "" [] in
  let m' := Monad.final (Midi.toggleMute "note" m) in
  JS.get "note" (Midi.trackStates m') = Some (TrackState true false 4 "C4")
  /\ Midi.editor m'
     = "note(" +:+ JS.dq +:+ "C4 ~ C4 ~" +:+ JS.dq +:+ ").midi()" +:+ JS.nl.
Proof.
  intros m m'.
  destruct (midi_mix_ignores_mute m "note" (TrackState false false 4 "C4")
              eq_refl eq_refl) as (_ & _ & H3 & _ & H5).
  split; [exact H3|]. fold m' in H5. rewrite H5; reflexivity.
Defined.

(** ** Undo after a click on Mix *)

Lemma undo_after_two_pushes {A} (a b : A) (s : History.stack A) :
  History.historyIndex s = (History.len (History.history s) - 1)%Z ->
  (History.len (History.history s) + 2 <= History.maxHistory)%Z ->
  snd (History.undo (History.saveToHistory b (History.saveToHistory a s)))
  = History.Restore (Some a).
Proof.
  intros Hi Hl.
  rewrite (saveToHistory_appends a s) by (done || lia).
  rewrite saveToHistory_appends;
    [|simpl; rewrite len_app_one; lia|simpl; rewrite len_app_one; lia].
  simpl. rewrite <- app_assoc. simpl. rewrite len_app_one.
  assert (Hn : (0 <= History.len (History.history s))%Z)
    by (unfold History.len; lia).
  unfold History.undo. simpl.
  destruct (Z.leb_spec (History.len (History.history s) + 1) 0); [lia|]. simpl.
  unfold History.at_. simpl.
  replace (History.len (History.history s) + 1 - 1)%Z
    with (History.len (History.history s)) by lia.
  destruct (Z.ltb_spec (History.len (History.history s)) 0); [lia|].
  by rewrite lookup_len_app.
Qed.

(** X24.  The listener of a Mix button saves the state and calls
    [mixTrack], which pushes the state it has reached.  After a click that
    [mixTrack] accepts, with the cursor at the end of the stack before it,
    one [undo] restores the snapshot of the state before the click. *)
Theorem undo_after_mix_click (st : Strudel.state) (track : string)
    (c : trackState) (arr : list JS.slot) :
  configured st = true ->
  JS.get track (Strudel.trackStates st) = Some c ->
  JS.get track (Strudel.sequencerState st) = Some arr ->
  Strudel.silenced (Strudel.trackStates st) c = false ->
  existsb JS.active (take (steps c) arr) = true ->
  History.historyIndex (Strudel.hist st)
  = (History.len (History.history (Strudel.hist st)) - 1)%Z ->
  (History.len (History.history (Strudel.hist st)) + 2 <= History.maxHistory)%Z ->
  let st' := Monad.final (StrudelOps.onMix track st) in
  Monad.returned (StrudelOps.onMix track st) = true
  /\ JS.flag track (Strudel.tracks (Strudel.mixedPatterns st'))
     = negb (JS.flag track (Strudel.tracks (Strudel.mixedPatterns st)))
  /\ snd (History.undo (Strudel.hist st'))
     = History.Restore (Some (Strudel.snapshot st)).
Proof.
  intros Hc Hcfg Harr Hs Hx Hi Hl st'.
  set (st1 := Strudel.setHist
                (History.saveToHistory (Strudel.snapshot st) (Strudel.hist st))
                st).
  assert (E : StrudelOps.onMix track st = StrudelOps.mixTrack track st1)
    by done.
  subst st'. rewrite E.
  rewrite (mixTrack_unfold st1 track c arr) by done.
  destruct (remix_run
              (fun st => JS.flag track (Strudel.tracks (Strudel.mixedPatterns st)))
              (StrudelOps.TrackMixed track) (trackToggled track st1))
    as (st' & -> & Hcore & _ & Hh); [done| |].
  { intros s Hs'. destruct (core_parts _ _ Hs') as (_ & _ & _ & H4 & _).
    by rewrite H4. }
  cbn [Monad.returned Monad.final]. split; [done|].
  destruct (core_parts _ _ Hcore) as (_ & _ & _ & H4 & _).
  split; [rewrite H4; unfold trackToggled; cbn; apply flag_set_eq|].
  rewrite Hh. by apply undo_after_two_pushes.
Qed.

Lemma undo_after_mix_click_witness :
  let st := Strudel.setHist
              (History.Stack [Strudel.snapshot Strudel.initial] 0)
              (Strudel.setSequencerState
                 [("bd", List.map JS.Step [true; false; false; false;
                                           true; false; false; false]);
                  ("sd", JS.filled 8); ("hh", JS.filled 8);
                  ("cp", JS.filled 8)] Strudel.initial) in
  let st' := Monad.final (StrudelOps.onMix "bd" st) in
  JS.flag "bd" (Strudel.tracks (Strudel.mixedPatterns st')) = true
  /\ snd (History.undo (Strudel.hist st'))
     = History.Restore (Some (Strudel.snapshot st)).
Proof.
  intros st st'.
  destruct (undo_after_mix_click st "bd" (TrackState false false 8 "bd")
              (List.map JS.Step [true; false; false; false;
                                 true; false; false; false])
              eq_refl eq_refl eq_refl eq_refl eq_refl eq_refl)
    as (_ & H2 & H3); [vm_compute; discriminate|].
  split; [exact H2|exact H3].
Defined.

(** ** Tracks and mixer of [CyberMidi] *)

Lemma forEach_same {S A} (l : list A) (f : A -> Monad.M S unit) (st : S) :
  (forall x, In x l -> f x st = Monad.Done tt st) ->
  Monad.forEach l f st = Monad.Done tt st.
Proof.
  induction l as [|x l IH]; intros H; simpl; [done|].
  rewrite (bind_run _ _ _ _ _ (H x (or_introl eq_refl))).
  apply IH. intros; apply H; by right.
Qed.

Lemma remove_absent {A} (o : JS.obj A) (k : string) :
  JS.get k o = None -> JS.remove k o = o.
Proof.
  induction o as [|[k1 v1] o IH]; simpl; [done|].
  destruct (String.eqb_spec k k1); [done|]. intros H. by rewrite IH.
Qed.

Section MidiTracks.

Import Monad Midi MidiOps.

Lemma midi_configured_spec m :
  midiConfigured m = true
  <-> (forall t, In t (getTracks m) -> is_Some (JS.get t (trackStates m))).
Proof.
  unfold midiConfigured. rewrite forallb_forall. split.
  - intros H t Ht. specialize (H t Ht).
    by destruct (JS.get t (trackStates m)).
  - intros H t Ht. by destruct (H t Ht) as [c ->].
Qed.

Lemma midi_updateSequencerUI_run m t c :
  JS.get t (trackStates m) = Some c -> updateSequencerUI t m = Done tt m.
Proof.
  intros H. unfold updateSequencerUI.
  by rewrite (bind_run _ _ _ _ _ (midi_config_run _ _ _ H)).
Qed.

Lemma midi_recreateSequencer_run m :
  midiConfigured m = true -> recreateSequencer m = Done tt m.
Proof.
  rewrite midi_configured_spec. intros Hc. unfold recreateSequencer.
  rewrite (bind_run _ _ _ (getTracks m) m) by done.
  rewrite (bind_run _ _ _ tt m).
  2:{ apply forEach_same. intros t Ht. destruct (Hc t Ht) as [c Hg].
      unfold createTrackHTML.
      by rewrite (bind_run _ _ _ _ _ (midi_config_run _ _ _ Hg)). }
  rewrite (bind_run _ _ _ (getTracks m) m) by done.
  rewrite (bind_run _ _ _ tt m).
  2:{ apply forEach_same. intros t Ht. destruct (Hc t Ht) as [c Hg].
      unfold updateSequencerTrack.
      rewrite (bind_run _ _ _ _ _ (midi_config_run _ _ _ Hg)).
      by apply midi_updateSequencerUI_run with c. }
  unfold adjustSequencerGrid.
  rewrite (bind_run _ _ _ (getTracks m) m) by done.
  apply forEach_same. intros t Ht. destruct (Hc t Ht) as [c Hg].
  by rewrite (bind_run _ _ _ _ _ (midi_config_run _ _ _ Hg)).
Qed.

(** The text and the condition to compose it depend on four fields. *)
Lemma midi_mix_same m m' :
  sequencerState m' = sequencerState m ->
  trackStates m' = trackStates m ->
  mixedPatterns m' = mixedPatterns m ->
  savedPatterns m' = savedPatterns m ->
  midiText m' = midiText m /\ mixable m' = mixable m.
Proof.
  intros H1 H2 H3 H4.
  unfold midiText, mixable, chosenTracks, midiSaved, midiLine.
  by rewrite H1, H2, H3, H4.
Qed.

Lemma midi_trackLine_raises m code track :
  midiLine m track = None -> trackLine code track m = Raised m.
Proof.
  unfold midiLine, trackLine. intros H.
  destruct (JS.get track (trackStates m)) as [c|] eqn:Hc.
  - destruct (JS.get track (sequencerState m)) as [arr|] eqn:Ha; [done|].
    rewrite (bind_run _ _ _ _ _ (midi_config_run _ _ _ Hc)).
    unfold grid, bind, gets. by rewrite Ha.
  - unfold config, bind, gets. by rewrite Hc.
Qed.

Lemma midi_appendAll_raises l m code :
  forallb (fun t => match midiLine m t with
                    | Some _ => true
                    | None => false
                    end) l = false ->
  appendAll l trackLine code m = Raised m.
Proof.
  revert code. induction l as [|t l IH]; intros code; simpl; [done|].
  destruct (midiLine m t) as [line|] eqn:E; simpl.
  - intros H. rewrite (bind_run _ _ _ _ _ (midi_trackLine_run _ code _ _ E)).
    by apply IH.
  - intros _. unfold bind. by rewrite midi_trackLine_raises.
Qed.

Lemma midi_updateMixedCode_raises m :
  mixable m = false -> updateMixedCode m = Raised m.
Proof.
  intros Hm. unfold updateMixedCode.
  rewrite (bind_run _ _ _ (chosenTracks m) m) by done.
  unfold bind at 1. by rewrite midi_appendAll_raises.
Qed.

End MidiTracks.

Lemma flag_set_back (o : JS.obj bool) (t k : string) :
  JS.flag k (JS.set t (JS.flag t o) o) = JS.flag k o.
Proof.
  destruct (String.eqb_spec t k) as [<-|Hne].
  - by rewrite flag_set_eq.
  - by rewrite flag_set_ne.
Qed.

Lemma chosen_set_back (o : JS.obj bool) (t : string) (b : bool) :
  let o2 := JS.set t (JS.flag t o) (JS.set t b o) in
  List.filter (fun k => JS.flag k o2) (JS.keys o2)
  = List.filter (fun k => JS.flag k o) (JS.keys o).
Proof.
  cbv zeta. rewrite set_set.
  rewrite (List.filter_ext _ (fun k => JS.flag k o))
    by (intros k; apply flag_set_back).
  rewrite keys_set. destruct (JS.get t o) as [v|] eqn:E; [done|].
  rewrite List.filter_app. simpl.
  unfold JS.flag at 2. rewrite E. by rewrite app_nil_r.
Qed.

Lemma chosen_set_in (o : JS.obj bool) (t k : string) (b : bool) :
  In k (List.filter (fun x => JS.flag x (JS.set t b o)) (JS.keys (JS.set t b o))) ->
  k = t \/ In k (List.filter (fun x => JS.flag x o) (JS.keys o)).
Proof.
  rewrite !List.filter_In. intros [_ Hf].
  destruct (String.eqb_spec t k) as [->|Hne]; [by left|right].
  rewrite flag_set_ne in Hf by done. split; [by apply flag_in_keys|done].
Qed.

Section MidiMixButton.

Import Monad Midi MidiOps.

Lemma midi_text_chosen m m' :
  sequencerState m' = sequencerState m ->
  trackStates m' = trackStates m ->
  chosenTracks m' = chosenTracks m ->
  saved (mixedPatterns m') = saved (mixedPatterns m) ->
  savedPatterns m' = savedPatterns m ->
  midiText m' = midiText m /\ mixable m' = mixable m.
Proof.
  intros H1 H2 H3 H4 H5.
  unfold midiText, mixable, midiSaved, midiLine.
  by rewrite H1, H2, H3, H4, H5.
Qed.

Lemma midi_mixTrack_run m track :
  mixable (midiToggled track m) = true ->
  mixTrack track m
  = Done tt (setLog (log m ++ [Persist])
               (setEditor (midiText (midiToggled track m))
                  (midiToggled track m))).
Proof.
  intros Hm. unfold mixTrack.
  unfold bind at 1. unfold modify at 1. fold (midiToggled track m).
  by rewrite (bind_run _ _ _ _ _ (midi_updateMixedCode_run _ Hm)).
Qed.

Lemma midi_mixTrack_raises m track :
  mixable (midiToggled track m) = false ->
  mixTrack track m = Raised (midiToggled track m).
Proof.
  intros Hm. unfold mixTrack.
  unfold bind at 1. unfold modify at 1. fold (midiToggled track m).
  unfold bind. by rewrite (midi_updateMixedCode_raises _ Hm).
Qed.

Lemma mixable_toggled m track line :
  mixable m = true -> midiLine m track = Some line ->
  mixable (midiToggled track m) = true.
Proof.
  unfold mixable. rewrite !forallb_forall. intros Hm Hl k Hk.
  change (midiLine (midiToggled track m) k) with (midiLine m k).
  apply chosen_set_in in Hk as [->|Hk]; [by rewrite Hl|by apply Hm].
Qed.

End MidiMixButton.

(** X25.  [mixTrack] of [CyberMidi] asks nothing of the track but its two
    entries: it negates the selection flag, composes the code for the new
    selection and returns.  A second call selects what was selected before
    the first, and the editor holds the code of that selection. *)
Theorem midi_mixTrack_twice (m : Midi.state) (track line : string) :
  mixable m = true ->
  midiLine m track = Some line ->
  let m1 := Monad.final (MidiOps.mixTrack track m) in
  let m2 := Monad.final (MidiOps.mixTrack track m1) in
  Monad.returned (MidiOps.mixTrack track m) = true
  /\ JS.flag track (Midi.tracks (Midi.mixedPatterns m1))
     = negb (JS.flag track (Midi.tracks (Midi.mixedPatterns m)))
  /\ Midi.editor m1 = midiText m1
  /\ Monad.returned (MidiOps.mixTrack track m1) = true
  /\ chosenTracks m2 = chosenTracks m
  /\ Midi.editor m2 = midiText m.
Proof.
  intros Hm Hl m1 m2.
  assert (Hm1 := mixable_toggled _ _ _ Hm Hl).
  assert (E1 := midi_mixTrack_run _ _ Hm1).
  subst m2 m1. rewrite E1. cbn [Monad.final Monad.returned].
  set (m1 := Midi.setLog _ _).
  assert (Hc : chosenTracks (midiToggled track m1) = chosenTracks m).
  { unfold chosenTracks, midiToggled, m1. cbn.
    rewrite flag_set_eq, negb_involutive. apply chosen_set_back. }
  destruct (midi_text_chosen m (midiToggled track m1))
    as [Ht Hx]; [done|done|done|done|done|].
  assert (Hm2 : mixable (midiToggled track m1) = true) by (by rewrite Hx).
  rewrite (midi_mixTrack_run _ _ Hm2). cbn [Monad.final Monad.returned].
  split; [done|]. split; [cbn; apply flag_set_eq|].
  split; [done|]. split; [done|]. split; [exact Hc|exact Ht].
Qed.

Lemma midi_mixTrack_twice_witness :
  let m := Midi.State
             [("note", List.map JS.Step [true; false; true; false]);
              ("note2", List.map JS.Step [false; true])]
             [("note", TrackState false false 4 "C4");
              ("note2", TrackState true false 2 "E4")]
             (Midi.Synth 120 true) (Midi.Mix [("note", true)] []) []
             History.empty "typed by hand" [] in
  let m1 := Monad.final (MidiOps.mixTrack "note2" m) in
  let m2 := Monad.final (MidiOps.mixTrack "note2" m1) in
  JS.flag "note2" (Midi.tracks (Midi.mixedPatterns m1)) = true
  /\ chosenTracks m2 = ["note"]
  /\ Midi.editor m2
     = "note(" +:+ JS.dq +:+ "C4 ~ C4 ~" +:+ JS.dq +:+ ").midi()" +:+ JS.nl.
Proof.
  intros m m1 m2.
  destruct (midi_mixTrack_twice m "note2"
              (Midi.noteCode "E4" (List.map JS.Step [false; true]))
              eq_refl eq_refl) as (_ & H2 & _ & _ & H5 & H6).
  split; [exact H2|]. split; [exact H5|exact H6].
Defined.

(** X26.  [mixTrack] of [CyberMidi] on a track that has no array of steps
    or no entry in [trackStates]: the flag is set before the code is
    composed, so the call is unwound with the track selected, the editor and
    the storage as they were, and from then on [updateMixedCode] is unwound
    too. *)
Theorem midi_mixTrack_unknown (m : Midi.state) (track : string) :
  midiLine m track = None ->
  JS.flag track (Midi.tracks (Midi.mixedPatterns m)) = false ->
  let m1 := Monad.final (MidiOps.mixTrack track m) in
  Monad.returned (MidiOps.mixTrack track m) = false
  /\ JS.flag track (Midi.tracks (Midi.mixedPatterns m1)) = true
  /\ Midi.editor m1 = Midi.editor m
  /\ Midi.log m1 = Midi.log m
  /\ Midi.updateMixedCode m1 = Monad.Raised m1.
Proof.
  intros Hl Hf m1.
  assert (Hx : mixable (midiToggled track m) = false).
  { unfold mixable. apply not_true_is_false. rewrite forallb_forall.
    intros H. specialize (H track).
    change (midiLine (midiToggled track m) track) with (midiLine m track) in H.
    rewrite Hl in H. discriminate H.
    unfold chosenTracks, midiToggled. cbn. rewrite Hf. apply List.filter_In.
    split; [|by rewrite flag_set_eq].
    apply get_keys. rewrite get_set_eq. by eexists. }
  subst m1. rewrite (midi_mixTrack_raises _ _ Hx).
  cbn [Monad.final Monad.returned]. split; [done|].
  split; [unfold midiToggled; cbn; by rewrite flag_set_eq, Hf|].
  split; [done|]. split; [done|].
  by apply midi_updateMixedCode_raises.
Qed.

Lemma midi_mixTrack_unknown_witness :
  let m1 := Monad.final (MidiOps.mixTrack "note9" Midi.initial) in
  Monad.returned (MidiOps.mixTrack "note9" Midi.initial) = false
  /\ Midi.tracks (Midi.mixedPatterns m1) = [("note9", true)]
  /\ Midi.updateMixedCode m1 = Monad.Raised m1.
Proof.
  intros m1.
  destruct (midi_mixTrack_unknown Midi.initial "note9" eq_refl eq_refl)
    as (H1 & _ & _ & _ & H5).
  split; [exact H1|]. split; [reflexivity|exact H5].
Defined.

Section MidiTrackButtons.

Import Monad Midi MidiOps.

Lemma midi_configured_parts m m' :
  sequencerState m' = sequencerState m ->
  trackStates m' = trackStates m ->
  midiConfigured m' = midiConfigured m.
Proof. intros H1 H2. unfold midiConfigured, getTracks. by rewrite H1, H2. Qed.

Lemma midi_configured_added m :
  midiConfigured m = true -> midiConfigured (midiAdded m) = true.
Proof.
  rewrite !midi_configured_spec. intros H t. unfold midiAdded, getTracks. cbn.
  fold (getTracks m). set (trackId := noteName (length (getTracks m))).
  intros Ht. destruct (String.eqb_spec trackId t) as [<-|Hne].
  - rewrite get_set_eq. by eexists.
  - rewrite get_set_ne by done. apply H.
    apply get_keys. apply get_keys in Ht. by rewrite get_set_ne in Ht.
Qed.

Lemma midi_addTrack_run m :
  midiConfigured m = true ->
  addTrack m
  = Done (TrackAdded (noteName (length (getTracks m))), success)
      (setLog (log m ++ [Persist]) (midiAdded m)).
Proof.
  intros Hc. unfold addTrack.
  unfold bind at 1. unfold saveToHistory at 1. unfold modify at 1.
  rewrite (bind_run _ _ _ (length (getTracks m)) _) by done.
  cbv zeta. fold (noteName (length (getTracks m))).
  unfold bind at 1. unfold modify at 1.
  unfold bind at 1. unfold modify at 1.
  fold (midiAdded m).
  by rewrite (bind_run _ _ _ _ _
                (midi_recreateSequencer_run _ (midi_configured_added _ Hc))).
Qed.

Lemma midi_removeTrack_refuses m :
  length (getTracks m) <= 1 ->
  removeTrack m
  = Done (LastTrack, error)
      (setHist (History.saveToHistory (snapshot m) (hist m)) m).
Proof.
  intros H. unfold removeTrack.
  unfold bind at 1. unfold saveToHistory at 1. unfold modify at 1.
  rewrite (bind_run _ _ _ (getTracks m) _) by done.
  by destruct (Nat.leb_spec (length (getTracks m)) 1); [|lia].
Qed.

Lemma midi_removeTrack_run m :
  1 < length (getTracks m) ->
  midiConfigured (midiRemoved m) = true ->
  mixable (midiRemoved m) = true ->
  removeTrack m
  = Done (TrackRemoved (StrudelOps.lastOf (getTracks m)), success)
      (setLog (log m ++ [Persist])
         (setEditor (midiText (midiRemoved m)) (midiRemoved m))).
Proof.
  intros H Hc Hm. unfold removeTrack.
  unfold bind at 1. unfold saveToHistory at 1. unfold modify at 1.
  rewrite (bind_run _ _ _ (getTracks m) _) by done.
  destruct (Nat.leb_spec (length (getTracks m)) 1); [lia|].
  cbv zeta.
  unfold bind at 1. unfold modify at 1.
  unfold bind at 1. unfold modify at 1.
  unfold bind at 1. unfold modify at 1.
  fold (midiRemoved m).
  rewrite (bind_run _ _ _ _ _ (midi_recreateSequencer_run _ Hc)).
  by rewrite (bind_run _ _ _ _ _ (midi_updateMixedCode_run _ Hm)).
Qed.

End MidiTrackButtons.

(** X27.  [addTrack] of [CyberMidi] appends a track named after the number
    of tracks plus one, with eight inactive steps and the note C4, and does
    not touch the editor.  A [removeTrack] right after it takes the track
    away again: arrays, track states and selection are as before, but the
    editor now holds the code composed from the selection, whatever it held.
    Both push on the undo stack, and so does a [removeTrack] that refuses
    because one track is left. *)
Theorem midi_removeTrack_after_addTrack (m : Midi.state) :
  let trackId := noteName (length (Midi.getTracks m)) in
  midiConfigured m = true ->
  mixable m = true ->
  1 <= length (Midi.getTracks m) ->
  JS.get trackId (Midi.sequencerState m) = None ->
  JS.get trackId (Midi.trackStates m) = None ->
  JS.get trackId (Midi.tracks (Midi.mixedPatterns m)) = None ->
  exists m1 m2,
    MidiOps.addTrack m = Monad.Done (MidiOps.TrackAdded trackId, success) m1
    /\ Midi.sequencerState m1
       = Midi.sequencerState m ++ [(trackId, JS.filled 8)]
    /\ Midi.trackStates m1
       = Midi.trackStates m ++ [(trackId, TrackState false false 8 "C4")]
    /\ Midi.editor m1 = Midi.editor m
    /\ MidiOps.removeTrack m1
       = Monad.Done (MidiOps.TrackRemoved trackId, success) m2
    /\ Midi.sequencerState m2 = Midi.sequencerState m
    /\ Midi.trackStates m2 = Midi.trackStates m
    /\ Midi.mixedPatterns m2 = Midi.mixedPatterns m
    /\ Midi.editor m2 = midiText m
    /\ Midi.hist m2
       = History.saveToHistory (Midi.snapshot m1)
           (History.saveToHistory (Midi.snapshot m) (Midi.hist m))
    /\ (length (Midi.getTracks m) = 1 ->
        MidiOps.removeTrack m
        = Monad.Done (MidiOps.LastTrack, error)
            (Midi.setHist
               (History.saveToHistory (Midi.snapshot m) (Midi.hist m)) m)).
Proof.
  intros trackId Hc Hm Hlen Hs Ht Hx.
  rewrite (midi_addTrack_run _ Hc). fold trackId.
  set (m1 := Midi.setLog _ (midiAdded m)).
  assert (E1 : Midi.sequencerState m1
               = Midi.sequencerState m ++ [(trackId, JS.filled 8)])
    by (subst m1; unfold midiAdded; cbn; fold trackId; by apply set_absent).
  assert (E2 : Midi.trackStates m1
               = Midi.trackStates m
                 ++ [(trackId, TrackState false false 8 "C4")])
    by (subst m1; unfold midiAdded; cbn; fold trackId; by apply set_absent).
  assert (Ek : Midi.getTracks m1 = Midi.getTracks m ++ [trackId])
    by (unfold Midi.getTracks, JS.keys; by rewrite E1, List.map_app).
  assert (R1 : Midi.sequencerState (midiRemoved m1) = Midi.sequencerState m).
  { change (Midi.sequencerState (midiRemoved m1))
      with (JS.remove (StrudelOps.lastOf (Midi.getTracks m1))
              (Midi.sequencerState m1)).
    rewrite Ek, lastOf_snoc, E1. by apply remove_app_last. }
  assert (R2 : Midi.trackStates (midiRemoved m1) = Midi.trackStates m).
  { change (Midi.trackStates (midiRemoved m1))
      with (JS.remove (StrudelOps.lastOf (Midi.getTracks m1))
              (Midi.trackStates m1)).
    rewrite Ek, lastOf_snoc, E2. by apply remove_app_last. }
  assert (R3 : Midi.mixedPatterns (midiRemoved m1) = Midi.mixedPatterns m).
  { change (Midi.mixedPatterns (midiRemoved m1))
      with (Midi.Mix
              (JS.remove (StrudelOps.lastOf (Midi.getTracks m1))
                 (Midi.tracks (Midi.mixedPatterns m)))
              (Midi.saved (Midi.mixedPatterns m))).
    rewrite Ek, lastOf_snoc, remove_absent by done.
    by destruct (Midi.mixedPatterns m). }
  destruct (midi_mix_same m (midiRemoved m1) R1 R2 R3 eq_refl) as [Tx Mx].
  assert (Hc1 : midiConfigured (midiRemoved m1) = true)
    by (by rewrite (midi_configured_parts _ _ R1 R2)).
  assert (Hm1 : mixable (midiRemoved m1) = true) by (by rewrite Mx).
  exists m1. eexists. split; [done|]. split; [done|]. split; [done|].
  split; [done|]. split.
  { rewrite midi_removeTrack_run; [|rewrite Ek, length_app; simpl; lia|done|done].
    by rewrite Ek, lastOf_snoc. }
  cbn [Midi.sequencerState Midi.trackStates Midi.mixedPatterns Midi.editor
       Midi.hist Midi.setLog Midi.setEditor].
  split; [exact R1|]. split; [exact R2|]. split; [exact R3|].
  split; [exact Tx|]. split; [done|].
  intros H1. apply midi_removeTrack_refuses. lia.
Qed.

Lemma midi_removeTrack_after_addTrack_witness :
  exists m1 m2,
    MidiOps.addTrack Midi.initial
    = Monad.Done (MidiOps.TrackAdded "note2", success) m1
    /\ Midi.getTracks m1 = ["note"; "note2"]
    /\ MidiOps.removeTrack m1
       = Monad.Done (MidiOps.TrackRemoved "note2", success) m2
    /\ Midi.sequencerState m2 = Midi.sequencerState Midi.initial
    /\ Midi.trackStates m2 = Midi.trackStates Midi.initial
    /\ Monad.returned (MidiOps.removeTrack Midi.initial) = true.
Proof.
  destruct (midi_removeTrack_after_addTrack Midi.initial
              eq_refl eq_refl ltac:(simpl; lia) eq_refl eq_refl eq_refl)
    as (m1 & m2 & H1 & H2 & _ & _ & H5 & H6 & H7 & _ & _ & _ & H11).
  exists m1, m2. split; [exact H1|].
  split; [unfold Midi.getTracks; rewrite H2; reflexivity|].
  split; [exact H5|]. split; [exact H6|]. split; [exact H7|].
  rewrite (H11 eq_refl). reflexivity.
Defined.

Section MidiClearing.

Import Monad Midi MidiOps.

Lemma midi_clearTrack_run m t c :
  JS.get t (trackStates m) = Some c ->
  clearTrack t m
  = Done tt (setSequencerState
               (JS.set t (JS.filled (steps c)) (sequencerState m)) m).
Proof.
  intros H. unfold clearTrack.
  rewrite (bind_run _ _ _ _ _ (midi_config_run _ _ _ H)).
  unfold bind at 1. unfold modify at 1.
  by apply midi_updateSequencerUI_run with c.
Qed.

Lemma midi_clearLoop_run ids : forall m,
  (forall t, In t ids -> is_Some (JS.get t (trackStates m))) ->
  exists m',
    forEach ids clearTrack m = Done tt m'
    /\ besidesGrids m' = besidesGrids m
    /\ (forall t c, In t ids -> JS.get t (trackStates m) = Some c ->
          JS.get t (sequencerState m') = Some (JS.filled (steps c)))
    /\ (forall t, ~ In t ids ->
          JS.get t (sequencerState m') = JS.get t (sequencerState m))
    /\ ((forall t, In t ids -> In t (getTracks m)) ->
        getTracks m' = getTracks m).
Proof.
  induction ids as [|t ids IH]; intros m Hc.
  - exists m. by repeat split.
  - destruct (Hc t (or_introl eq_refl)) as [c Hg].
    set (m1 := setSequencerState
                 (JS.set t (JS.filled (steps c)) (sequencerState m)) m).
    destruct (IH m1) as (m' & E & B & G1 & G2 & K).
    { intros t' Ht'. apply Hc. by right. }
    exists m'. split.
    { cbn [forEach]. by rewrite (bind_run _ _ _ _ _ (midi_clearTrack_run _ _ _ Hg)). }
    split; [by rewrite B|]. split; [|split].
    + intros t' c' Hin Hg'.
      destruct (in_dec string_dec t' ids) as [Hi|Hi]; [by apply G1|].
      destruct Hin as [<-|Hin]; [|done].
      rewrite (G2 _ Hi). subst m1. cbn [sequencerState setSequencerState].
      rewrite get_set_eq. congruence.
    + intros t' Hn. rewrite G2 by (intros ?; apply Hn; by right).
      subst m1. cbn [sequencerState setSequencerState].
      apply get_set_ne. intros ->. apply Hn. by left.
    + intros Hk. rewrite K.
      * unfold getTracks. subst m1. cbn [sequencerState setSequencerState].
        apply keys_set_present. apply get_keys. apply Hk. by left.
      * intros t' Ht'. unfold getTracks. subst m1.
        cbn [sequencerState setSequencerState].
        rewrite keys_set_present by (apply get_keys; apply Hk; by left).
        apply Hk. by right.
Qed.

End MidiClearing.

(** X28.  [clearAll] of [CyberMidi], when every track has its entry in
    [trackStates]: it pushes the state on the undo stack, gives every track
    as many inactive steps as its step count, and empties the selection of
    tracks.  The selection of saved patterns stays, and the editor holds
    their code alone.  It returns even from a state whose selection names a
    track that does not exist. *)
Theorem midi_clearAll_clears (m : Midi.state) :
  midiConfigured m = true ->
  exists m',
    MidiOps.clearAll m = Monad.Done (MidiOps.AllCleared, success) m'
    /\ Midi.getTracks m' = Midi.getTracks m
    /\ Midi.trackStates m' = Midi.trackStates m
    /\ (forall t c, In t (Midi.getTracks m) ->
          JS.get t (Midi.trackStates m) = Some c ->
          JS.get t (Midi.sequencerState m') = Some (JS.filled (steps c)))
    /\ Midi.mixedPatterns m' = Midi.Mix [] (Midi.saved (Midi.mixedPatterns m))
    /\ Midi.savedPatterns m' = Midi.savedPatterns m
    /\ Midi.editor m' = midiSavedText m
    /\ Midi.hist m'
       = History.saveToHistory (Midi.snapshot m) (Midi.hist m).
Proof.
  intros Hc. assert (Hc' := proj1 (midi_configured_spec m) Hc).
  clear Hc. rename Hc' into Hc.
  set (m0 := Midi.setHist
               (History.saveToHistory (Midi.snapshot m) (Midi.hist m)) m).
  destruct (midi_clearLoop_run (Midi.getTracks m) m0 Hc)
    as (m1 & E & B & G1 & _ & K).
  specialize (K (fun t H => H)).
  injection B as B1 _ B3 B4 B5 _ B7.
  set (m2 := MidiOps.setTracks [] m1).
  assert (Hm : mixable m2 = true) by done.
  assert (Ht : midiText m2 = midiSavedText m).
  { unfold midiText, midiSavedText, midiSaved. subst m2.
    cbn [chosenTracks Midi.mixedPatterns Midi.tracks Midi.saved
         Midi.savedPatterns MidiOps.setTracks MidiOps.setMixedPatterns
         List.filter JS.keys List.map fold_left].
    by rewrite B3, B4. }
  eexists. split.
  { unfold MidiOps.clearAll.
    unfold Monad.bind at 1. unfold Midi.saveToHistory at 1.
    unfold Monad.modify at 1. fold m0.
    rewrite (bind_run _ _ _ (Midi.getTracks m) m0) by done.
    rewrite (bind_run _ _ _ _ _ E).
    unfold Monad.bind at 1. unfold Monad.modify at 1. fold m2.
    rewrite (bind_run _ _ _ _ _ (midi_updateMixedCode_run _ Hm)).
    reflexivity. }
  cbn [Midi.sequencerState Midi.trackStates Midi.mixedPatterns Midi.editor
       Midi.hist Midi.savedPatterns Midi.getTracks Midi.setLog Midi.setEditor].
  split; [exact K|]. split; [exact B1|]. split; [exact G1|].
  split; [subst m2; cbn; by rewrite B3|]. split; [exact B4|].
  split; [exact Ht|exact B5].
Qed.

Lemma midi_clearAll_clears_witness :
  let m := Midi.State
             [("note", List.map JS.Step [true; false; true; false]);
              ("note2", List.map JS.Step [false; true])]
             [("note", TrackState false false 4 "C4");
              ("note2", TrackState true false 2 "E4")]
             (Midi.Synth 120 true)
             (Midi.Mix [("note", true); ("note9", true)] [("a", true)])
             [(JS.Str "a", JS.Obj [("code", JS.Str "s(x)")])]
             History.empty "typed by hand" [] in
  exists m',
    MidiOps.clearAll m = Monad.Done (MidiOps.AllCleared, success) m'
    /\ Midi.sequencerState m'
       = [("note", JS.filled 4); ("note2", JS.filled 2)]
    /\ Midi.editor m' = "s(x)" +:+ JS.nl
    /\ Midi.updateMixedCode m = Monad.Raised m.
Proof.
  intros m.
  destruct (midi_clearAll_clears m eq_refl)
    as (m' & H1 & _ & _ & _ & _ & _ & H7 & _).
  exists m'. split; [exact H1|].
  split; [injection H1 as <-; reflexivity|]. split; [exact H7|reflexivity].
Defined.

Section MidiBank.

Import Monad Midi MidiOps.

(** The operations on the bank end alike: compose, push, store. *)
Lemma midi_recompose_run {A} (a : A) m :
  mixable m = true ->
  (let* _ := updateMixedCode in
   let* _ := saveToHistory in
   let* _ := saveToLocalStorage in
   ret a) m
  = Done a
      (setLog (log m ++ [Persist])
         (setHist
            (History.saveToHistory (snapshot (setEditor (midiText m) m))
               (hist m))
            (setEditor (midiText m) m))).
Proof.
  intros Hm. by rewrite (bind_run _ _ _ _ _ (midi_updateMixedCode_run _ Hm)).
Qed.




Lemma midi_deletePattern_missing m name :
  JS.mapHas (JS.Str name) (savedPatterns m) = false ->
  deletePattern name m = Done (PatternNotFound name, error) m.
Proof.
  intros H. unfold deletePattern.
  rewrite (bind_run _ _ _ false m) by (unfold gets; by rewrite H).
  done.
Qed.

Lemma midi_deletePattern_run m name :
  mixable m = true ->
  JS.mapHas (JS.Str name) (savedPatterns m) = true ->
  let m1 := midiDeleted name m in
  deletePattern name m
  = Done (PatternDeleted name, success)
      (setLog (log m ++ [Persist])
         (setHist
            (History.saveToHistory (snapshot (setEditor (midiText m1) m1))
               (hist m))
            (setEditor (midiText m1) m1))).
Proof.
  intros Hm H m1. unfold deletePattern.
  rewrite (bind_run _ _ _ true m) by (unfold gets; by rewrite H).
  cbn [negb].
  unfold bind at 1. unfold modify at 1.
  unfold bind at 1. unfold modify at 1.
  unfold bind at 1. unfold modify at 1.
  match goal with
  | |- _ ?s = _ => assert (E : s = m1)
  end.
  { subst m1. unfold midiDeleted, setSaved, setMixedPatterns, setSavedPatterns.
    cbn. by rewrite remove_set. }
  rewrite E. exact (midi_recompose_run (PatternDeleted name, success) m1 Hm).
Qed.

End MidiBank.



(** X30.  [deletePattern] of [CyberMidi] on a name the bank does not hold
    says so and changes nothing.  On a name it holds, the name leaves the
    bank and the selection, every other pattern and every other selection
    entry stays, and the editor receives the code composed without it. *)
Theorem midi_deletePattern_forgets (m : Midi.state) (name : string) :
  mixable m = true ->
  distinct (Midi.savedPatterns m) = true ->
  NoDup (JS.keys (Midi.saved (Midi.mixedPatterns m))) ->
  if JS.mapHas (JS.Str name) (Midi.savedPatterns m)
  then exists m',
      MidiOps.deletePattern name m
      = Monad.Done (MidiOps.PatternDeleted name, success) m'
      /\ JS.mapHas (JS.Str name) (Midi.savedPatterns m') = false
      /\ JS.get name (Midi.saved (Midi.mixedPatterns m')) = None
      /\ (forall n, n <> name ->
            JS.mapGet (JS.Str n) (Midi.savedPatterns m')
            = JS.mapGet (JS.Str n) (Midi.savedPatterns m)
            /\ JS.get n (Midi.saved (Midi.mixedPatterns m'))
               = JS.get n (Midi.saved (Midi.mixedPatterns m)))
      /\ Midi.tracks (Midi.mixedPatterns m')
         = Midi.tracks (Midi.mixedPatterns m)
      /\ Midi.sequencerState m' = Midi.sequencerState m
      /\ Midi.trackStates m' = Midi.trackStates m
      /\ Midi.editor m' = midiText m'
      /\ Midi.hist m' = History.saveToHistory (Midi.snapshot m') (Midi.hist m)
  else MidiOps.deletePattern name m
       = Monad.Done (MidiOps.PatternNotFound name, error) m.
Proof.
  intros Hm Hd Hnd.
  destruct (JS.mapHas _ _) eqn:Hhas; [|by apply midi_deletePattern_missing].
  rewrite (midi_deletePattern_run _ _ Hm Hhas).
  eexists. split; [reflexivity|].
  cbn [Midi.mixedPatterns Midi.editor Midi.hist Midi.setLog Midi.setHist
       Midi.setEditor Midi.savedPatterns Midi.sequencerState Midi.trackStates].
  unfold midiDeleted. cbn.
  split; [by apply mapHas_mapDelete|].
  split; [by apply get_remove_eq|].
  split; [|done].
  intros n Hn. split; [by apply mapGet_mapDelete_ne|by apply get_remove_ne].
Qed.

Lemma midi_deletePattern_forgets_witness :
  let m := Midi.State
             [("note", List.map JS.Step [true; false])]
             [("note", TrackState false false 2 "C4")]
             (Midi.Synth 120 true)
             (Midi.Mix [("note", true)] [("P", true); ("Q", true)])
             [(JS.Str "P", JS.Obj [("code", JS.Str "s(p)")]);
              (JS.Str "Q", JS.Obj [("code", JS.Str "s(q)")])]
             History.empty "" [] in
  exists m',
    MidiOps.deletePattern "P" m
    = Monad.Done (MidiOps.PatternDeleted "P", success) m'
    /\ Midi.savedPatterns m' = [(JS.Str "Q", JS.Obj [("code", JS.Str "s(q)")])]
    /\ Midi.saved (Midi.mixedPatterns m') = [("Q", true)]
    /\ Midi.editor m'
       = "note(" +:+ JS.dq +:+ "C4 ~" +:+ JS.dq +:+ ").midi()" +:+ JS.nl
         +:+ "s(q)" +:+ JS.nl.
Proof.
  intros m.
  assert (Hnd : NoDup (JS.keys (Midi.saved (Midi.mixedPatterns m))))
    by (apply (bool_decide_unpack _); vm_compute; exact I).
  destruct (midi_deletePattern_forgets m "P" eq_refl eq_refl Hnd)
    as (m' & H1 & _).
  exists m'. split; [exact H1|].
  assert (E : Monad.final (MidiOps.deletePattern "P" m) = m')
    by (by rewrite H1).
  rewrite <- E. by vm_compute.
Defined.
